(** * COA file extraction: the data-validation pipeline

    A shallow embedding of [coa_data_validation.py]: the test-result
    extractors, the catalog matcher, the per-entity ranking and the
    stages of [process_validation], followed by the properties of the
    specification that are stated about them.

    Conventions.
    - Text is [string]; the character classes of [re] ([\d], [\w], [\s])
      and [str.lower] are the ASCII ones.
    - A Python exception is the [Raise] result of the [py] monad; a
      [try ... except] is a [catch].  A step of the pipeline that raises
      on the frame it gets (no rows, a column without texts, a column
      that is not there) is a stage with a [py] result.
    - [None]/[NaN] in a column is [None] of an [option].
    - The value [float(m.group())] of a matched numeral is kept as the
      exact decimal rational the numeral denotes.
    - [fuzz.token_set_ratio] is an external scoring function and is a
      parameter of everything that calls it.
    - [json.loads] and [ast.literal_eval] are external parsers: a
      [json_values] cell is given by what they return on its text.
    - A DataFrame is the list of its rows in order; [merge], [explode],
      [groupby] and [sort_values] are the list transforms of the module
      [Frame].  The inputs are the sheet of extracted documents, the
      order registry from its [lot_number_order] column on, and the
      catalog. *)

From Stdlib Require Import Bool Arith ZArith QArith Lia List Ascii String.
From Stdlib Require Import Permutation Sorted.
From Stdlib Require Import DecimalString.
Import ListNotations.

Open Scope string_scope.
Open Scope list_scope.
Open Scope Z_scope.

(* ------------------------------------------------------------------ *)
(** ** Python results *)

Module Py.

Inductive py (A : Type) : Type :=
| Ok (a : A)
| Raise.
Arguments Ok {A} a.
Arguments Raise {A}.

Definition bind {A B : Type} (m : py A) (f : A -> py B) : py B :=
  match m with
  | Ok a => f a
  | Raise => Raise
  end.

(** [try: m except Exception: return d] *)
Definition catch {A : Type} (m : py A) (d : A) : A :=
  match m with
  | Ok a => a
  | Raise => d
  end.

End Py.
Export Py.

Notation "x <- m ;; k" := (bind m (fun x => k))
  (at level 61, m at next level, right associativity).

(* ------------------------------------------------------------------ *)
(** ** Characters and text *)

Module Text.

Definition code (c : ascii) : N := N_of_ascii c.

Definition between (lo hi : N) (c : ascii) : bool :=
  ((lo <=? code c) && (code c <=? hi))%N.

(** [\d] *)
Definition is_digit (c : ascii) : bool := between 48 57 c.

Definition is_upper (c : ascii) : bool := between 65 90 c.
Definition is_lower (c : ascii) : bool := between 97 122 c.

(** [\w] *)
Definition is_word (c : ascii) : bool :=
  is_digit c || is_upper c || is_lower c || (code c =? 95)%N.

(** [\s]: tab, newline, vertical tab, form feed, carriage return, the
    four separators 28..31 and the space. *)
Definition is_space (c : ascii) : bool :=
  between 9 13 c || between 28 31 c || (code c =? 32)%N.

Definition lower_char (c : ascii) : ascii :=
  if is_upper c then ascii_of_N (code c + 32) else c.

(** [s.lower()] *)
Fixpoint lower (s : string) : string :=
  match s with
  | EmptyString => EmptyString
  | String c s' => String (lower_char c) (lower s')
  end.

Fixpoint filter_chars (p : ascii -> bool) (s : string) : string :=
  match s with
  | EmptyString => EmptyString
  | String c s' => if p c then String c (filter_chars p s') else filter_chars p s'
  end.

Fixpoint drop_while (p : ascii -> bool) (s : string) : string :=
  match s with
  | EmptyString => EmptyString
  | String c s' => if p c then drop_while p s' else s
  end.

Fixpoint rev_string (acc s : string) : string :=
  match s with
  | EmptyString => acc
  | String c s' => rev_string (String c acc) s'
  end.

(** [s.lstrip()], [s.rstrip()], [s.strip()] *)
Definition lstrip (s : string) : string := drop_while is_space s.
Definition rstrip (s : string) : string :=
  rev_string EmptyString (drop_while is_space (rev_string EmptyString s)).
Definition strip (s : string) : string := rstrip (lstrip s).

Fixpoint forallb_string (p : ascii -> bool) (s : string) : bool :=
  match s with
  | EmptyString => true
  | String c s' => p c && forallb_string p s'
  end.

Fixpoint existsb_string (p : ascii -> bool) (s : string) : bool :=
  match s with
  | EmptyString => false
  | String c s' => p c || existsb_string p s'
  end.

End Text.
Export Text.

(* ------------------------------------------------------------------ *)
(** ** A backtracking matcher for the patterns of the module

    The matcher follows [re]: alternatives are tried left to right,
    repetition is greedy and gives characters back on failure, [\b]
    looks at the characters on both sides of the position, a lookahead
    consumes nothing. *)

Module Regex.

Inductive regex : Type :=
| Eps
| Lit (c : ascii)
| Cls (p : ascii -> bool)
| Cat (r1 r2 : regex)
| Alt (r1 r2 : regex)
| Star (r : regex)
| Bnd
| Ahead (r : regex).

Definition Opt (r : regex) : regex := Alt r Eps.
Definition Plus (r : regex) : regex := Cat r (Star r).

Fixpoint lit (s : string) : regex :=
  match s with
  | EmptyString => Eps
  | String c s' => Cat (Lit c) (lit s')
  end.

Fixpoint alts (l : list regex) : regex :=
  match l with
  | [] => Cls (fun _ => false)
  | [r] => r
  | r :: l' => Alt r (alts l')
  end.

Definition word_opt (c : option ascii) : bool :=
  match c with
  | Some x => is_word x
  | None => false
  end.

Definition peek (s : string) : option ascii :=
  match s with
  | EmptyString => None
  | String c _ => Some c
  end.

Definition cont : Type := option ascii -> string -> option string.

Section Run.

(** [re.IGNORECASE] *)
Variable ignorecase : bool.

Definition lit_eq (c x : ascii) : bool :=
  if ignorecase then Ascii.eqb (lower_char c) (lower_char x) else Ascii.eqb c x.

(** The loop of a greedy repetition: one more turn of [body] when it
    consumes something and the rest then matches, else on with [k]. *)
Definition star_loop (body : option ascii -> string -> cont -> option string)
  (k : cont) : nat -> option ascii -> string -> option string :=
  fix loop (fuel : nat) (prev : option ascii) (s : string) {struct fuel}
    : option string :=
    match fuel with
    | O => k prev s
    | S fuel' =>
        match body prev s
                (fun p' s' =>
                   if (String.length s' <? String.length s)%nat
                   then loop fuel' p' s' else None) with
        | Some t => Some t
        | None => k prev s
        end
    end.

(** [run r prev s k]: match [r] at a position whose previous character
    is [prev] and whose remaining text is [s], then continue with [k];
    the answer is the text left after the whole match. *)
Fixpoint run (r : regex) (prev : option ascii) (s : string) (k : cont)
  {struct r} : option string :=
  match r with
  | Eps => k prev s
  | Lit c =>
      match s with
      | String x s' => if lit_eq c x then k (Some x) s' else None
      | EmptyString => None
      end
  | Cls p =>
      match s with
      | String x s' => if p x then k (Some x) s' else None
      | EmptyString => None
      end
  | Cat r1 r2 => run r1 prev s (fun p' s' => run r2 p' s' k)
  | Alt r1 r2 =>
      match run r1 prev s k with
      | Some t => Some t
      | None => run r2 prev s k
      end
  | Star r1 => star_loop (run r1) k (String.length s) prev s
  | Bnd => if xorb (word_opt prev) (word_opt (peek s)) then k prev s else None
  | Ahead r1 =>
      match run r1 prev s (fun _ s' => Some s') with
      | Some _ => k prev s
      | None => None
      end
  end.

(** The match of [r] that starts exactly here: the matched text. *)
Definition match_here (r : regex) (prev : option ascii) (s : string)
  : option string :=
  match run r prev s (fun _ rest => Some rest) with
  | Some rest => Some (substring 0 (String.length s - String.length rest) s)
  | None => None
  end.

(** [re.search]: the leftmost position with a match; the answer is the
    start index and the matched text ([m.group()]). *)
Fixpoint search_from (r : regex) (prev : option ascii) (i : nat) (s : string)
  : option (nat * string) :=
  match match_here r prev s with
  | Some m => Some (i, m)
  | None =>
      match s with
      | EmptyString => None
      | String c s' => search_from r (Some c) (S i) s'
      end
  end.

Definition search (r : regex) (s : string) : option (nat * string) :=
  search_from r None 0 s.

Definition group (m : option (nat * string)) : option string :=
  option_map snd m.

Definition is_some {A : Type} (x : option A) : bool :=
  match x with
  | Some _ => true
  | None => false
  end.

Definition found (r : regex) (s : string) : bool :=
  match search r s with
  | Some _ => true
  | None => false
  end.

Fixpoint drop (n : nat) (s : string) : string :=
  match n, s with
  | S n', String _ s' => drop n' s'
  | _, _ => s
  end.

(** The character before position [n] of [s], [prev] at position 0. *)
Fixpoint before (prev : option ascii) (n : nat) (s : string) : option ascii :=
  match n, s with
  | S n', String c s' => before (Some c) n' s'
  | _, _ => prev
  end.

(** The greedy repetition of one character class, in closed form: as
    many characters as the class accepts, one fewer each time the rest
    fails. *)
Fixpoint greedy (p : ascii -> bool) (prev : option ascii) (s : string)
  (k : cont) : option string :=
  match s with
  | String c s' =>
      if p c then
        match greedy p (Some c) s' k with
        | Some t => Some t
        | None => k prev s
        end
      else k prev s
  | EmptyString => k prev s
  end.

(** [re.findall]: the successive matches, each search resuming where
    the previous match ended (one character further after an empty
    match). *)
Fixpoint findall_from (fuel : nat) (r : regex) (prev : option ascii)
  (s : string) : list string :=
  match fuel with
  | O => []
  | S fuel' =>
      match search_from r prev 0 s with
      | None => []
      | Some (i, m) =>
          let e := (i + Nat.max 1 (String.length m))%nat in
          m :: findall_from fuel' r (before prev e s) (drop e s)
      end
  end.

Definition findall (r : regex) (s : string) : list string :=
  findall_from (S (String.length s)) r None s.

End Run.

End Regex.
Export Regex.

(* ------------------------------------------------------------------ *)
(** ** The data model *)

Module Data.

(** A JSON scalar as it occurs in the lot fields: [null], an integer or
    a string. *)
Inductive scalar : Type :=
| SNull
| SInt (z : Z)
| SStr (s : string).

(** The value of a lot field: a single scalar or a list of them. *)
Inductive lots : Type :=
| One (x : scalar)
| Many (l : list scalar).

(** A string-valued key of a JSON object: missing, [null], or a text. *)
Inductive jfield : Type :=
| Absent
| Null
| Text (s : string).

Record test_entry : Type := mk_entry {
  test : jfield;
  unit_ : jfield;
  limit : jfield;
  method : jfield;
  result : jfield
}.

(** The fields of ["general_info"] that the pipeline reads; [None] is a
    missing or [null] value. *)
Record ginfo : Type := mk_info {
  gi_product_name : option string;
  gi_manufacture_date : option string;
  gi_expiry_date : option string
}.

(** The envelope: the JSON object of a document.  [d.get(key)] of a
    missing lot key and of a [null] one are both [One SNull]. *)
Record envelope : Type := mk_envelope {
  lot_number_value : lots;
  lot_numbers_value : lots;
  general_info : ginfo;
  test_results : list test_entry;
  sufficient_content : option Z
}.

Definition empty_envelope : envelope :=
  mk_envelope (One SNull) (One SNull) (mk_info None None None) [] None.

(** What a parser returns: a dict, or any other value (a list, a
    number, a string, [None]). *)
Inductive pyval : Type :=
| PyDict (e : envelope)
| PyOther.

(** A [json_values] cell, given by what the two parsers make of its
    text. *)
Inductive cell : Type :=
| NaCell                (* a missing cell: [pd.isna] *)
| JsonText (v : pyval)  (* JSON text of the value [v] *)
| QuotedJson (v : pyval)(* a quote, then the JSON text of [v] starting with a brace *)
| ReprText (v : pyval)  (* not JSON, but a Python literal of value [v] *)
| Unparsable.           (* neither: both parsers raise *)

Record document : Type := mk_document {
  filename : string;
  filename_clean : string;
  json_values : cell
}.

(** A row of the catalog, and the two item columns of the registry. *)
Record item : Type := mk_item {
  Part_Number : option string;
  Description : option string
}.

(** A row of the order registry, from its [lot_number_order] column on. *)
Record order_row : Type := mk_order {
  lot_number_order : option string;
  order_item : item
}.

End Data.
Export Data.

(* ------------------------------------------------------------------ *)
(** ** Parsing utilities *)

Module Parse.

Definition isna (c : cell) : bool :=
  match c with
  | NaCell => true
  | _ => false
  end.

(** [json.loads(cell)] on the cell as it is. *)
Definition json_loads (c : cell) : py pyval :=
  match c with
  | JsonText v => Ok v
  | _ => Raise
  end.

(** [json.loads(text)] on the stripped text, its leading quote removed
    when a brace follows. *)
Definition json_loads_text (c : cell) : py pyval :=
  match c with
  | JsonText v | QuotedJson v => Ok v
  | _ => Raise
  end.

(** [ast.literal_eval(text)], reached when [json.loads(text)] raised. *)
Definition literal_eval (c : cell) : py pyval :=
  match c with
  | ReprText v => Ok v
  | _ => Raise
  end.

Definition safe_parse (c : cell) : pyval :=
  if isna c then PyDict empty_envelope
  else
    match json_loads_text c with
    | Ok v => v
    | Raise => catch (literal_eval c) (PyDict empty_envelope)
    end.

(** [re.sub(r'\W+', '', s)] *)
Definition remove_nonword (s : string) : string := filter_chars is_word s.

(** [str(x)] *)
Definition str (x : scalar) : string :=
  match x with
  | SNull => "None"
  | SInt z => NilZero.string_of_int (Z.to_int z)
  | SStr s => s
  end.

Definition digit : regex := Cls is_digit.

(** [M\d{4,6}] *)
Definition M_NUMBER : regex :=
  Cat (Lit "M")
    (Cat digit (Cat digit (Cat digit (Cat digit
       (Opt (Cat digit (Opt digit))))))).

Definition clean_and_extract_lot (x : scalar) : option string :=
  let cleaned := remove_nonword (str x) in
  group (search false M_NUMBER cleaned).

(** [clean_text]: lowercase, keep [a-z0-9] and whitespace, strip. *)
Definition clean_text (text : option string) : string :=
  match text with
  | None => ""
  | Some t =>
      strip (filter_chars (fun c => is_lower c || is_digit c || is_space c)
               (lower t))
  end.

End Parse.
Export Parse.

(* ------------------------------------------------------------------ *)
(** ** Test-result extraction *)

Module Lab.

Definition space : regex := Cls is_space.

(** [\b(...)\b] *)
Definition whole_word (r : regex) : regex := Cat Bnd (Cat r Bnd).

(** [[\d]*\.?\d+] *)
Definition NUMBER : regex :=
  Cat (Star digit) (Cat (Opt (Lit ".")) (Plus digit)).

(** [[\d]*\.?\d+(?=\s*cfu)] *)
Definition NUMBER_CFU : regex :=
  Cat (Star digit)
    (Cat (Opt (Lit "."))
       (Cat (Plus digit) (Ahead (Cat (Star space) (lit "cfu"))))).

(** The negative markers, in the order of the two patterns. *)
Definition CHEM_MARKERS : list string :=
  ["not detected"; "conform"; "conforms"; "negative"; "absent"; "none"].

Definition MICRO_MARKERS : list string :=
  ["not detected"; "absent"; "none"; "negative"; "conform"; "conforms"].

(** [\b(not detected|conform|conforms|negative|absent|none)\b] *)
Definition CHEM_NEGATIVE : regex := whole_word (alts (map lit CHEM_MARKERS)).

(** [\b(not detected|absent|none|negative|conform|conforms)\b] *)
Definition MICRO_NEGATIVE : regex := whole_word (alts (map lit MICRO_MARKERS)).

Inductive chem_key : Type :=
| arsenic_ppm | cadmium_ppm | chromium_ppm | lead_ppm | mercury_ppm
| total_plate_count | yeast_and_mold.

Inductive micro_key : Type :=
| e_coli | salmonella | staphylococcus_aureus.

Definition CHEM_PATTERNS (k : chem_key) : regex :=
  match k with
  | arsenic_ppm =>
      whole_word (alts [Cat (lit "ars") (Opt (lit "enic")); lit "as ppm";
                        lit "as mg"; lit "as content"])
  | cadmium_ppm => whole_word (alts [lit "cadmium"; lit "cd"])
  | chromium_ppm => Cat Bnd (Cat (lit "chromium") Bnd)
  | lead_ppm => whole_word (alts [lit "lead"; lit "pb"])
  | mercury_ppm => whole_word (alts [lit "mercury"; lit "hg"; lit "mecury"])
  | total_plate_count =>
      whole_word (alts [lit "plate"; lit "tpc"; lit "aerobic count";
                        lit "total aerobic"; lit "total count"])
  | yeast_and_mold =>
      whole_word (alts [lit "yeast"; lit "yeaste"; lit "yeasts"; lit "mold";
                        lit "molds"; lit "mould"; lit "moulds"])
  end.

Definition MICRO_PATTERNS (k : micro_key) : regex :=
  match k with
  | e_coli => Cat Bnd (Cat (lit "coli") Bnd)
  | salmonella => Cat Bnd (Cat (lit "salmonella") Bnd)
  | staphylococcus_aureus =>
      whole_word (alts [lit "aureus"; lit "staph"; lit "staphylococcus"])
  end.

(** The compiled tables carry [re.IGNORECASE]. *)
Definition COMPILED_CHEM (k : chem_key) (s : string) : bool :=
  found true (CHEM_PATTERNS k) s.
Definition COMPILED_MICRO (k : micro_key) (s : string) : bool :=
  found true (MICRO_PATTERNS k) s.

(** [item.get(key, default)] *)
Definition get (f : jfield) (default : string) : option string :=
  match f with
  | Absent => Some default
  | Null => None
  | Text s => Some s
  end.

(** A text argument of [re]: [None] raises [TypeError]. *)
Definition text_arg (x : option string) : py string :=
  match x with
  | Some s => Ok s
  | None => Raise
  end.

(** [x or ''] *)
Definition or_empty (x : option string) : string :=
  match x with
  | Some s => s
  | None => ""
  end.

Definition digit_value (c : ascii) : Z := Z.of_N (code c) - 48.

Fixpoint digits_value (acc : Z) (s : string) : Z :=
  match s with
  | EmptyString => acc
  | String c s' => digits_value (10 * acc + digit_value c) s'
  end.

(** The digits before the first dot and, when there is a dot, the text
    after it. *)
Fixpoint split_dot (s : string) : string * option string :=
  match s with
  | EmptyString => (EmptyString, None)
  | String c s' =>
      if Ascii.eqb c "." then (EmptyString, Some s')
      else let (a, b) := split_dot s' in (String c a, b)
  end.

(** [float(m.group())] for a matched numeral. *)
Definition float (m : string) : Q :=
  match split_dot m with
  | (ip, None) => inject_Z (digits_value 0 ip)
  | (ip, Some fp) =>
      Qred (Qmake (digits_value (digits_value 0 ip) fp)
              (Z.to_pos (10 ^ Z.of_nat (String.length fp))))
  end.

(** [next((item for item in entries if pattern.search(item.get('test', ''))), None)] *)
Fixpoint first_entry (pattern : string -> bool) (entries : list test_entry)
  : py (option test_entry) :=
  match entries with
  | [] => Ok None
  | item :: rest =>
      label <- text_arg (get (test item) "") ;;
      if pattern label then Ok (Some item) else first_entry pattern rest
  end.

Definition extract_chem_info (data : envelope) (key : chem_key)
  : py (option Q) :=
  info <- first_entry (COMPILED_CHEM key) (test_results data) ;;
  match info with
  | None => Ok None
  | Some info =>
      let result := get (result info) "" in
      let limit := get (limit info) "" in
      result <- text_arg result ;;
      match group (search false NUMBER result) with
      | Some m => Ok (Some (float m))
      | None =>
          limit <- text_arg limit ;;
          match group (search false NUMBER limit) with
          | Some m => Ok (Some (float m))
          | None =>
              if found false CHEM_NEGATIVE (lower result)
              then Ok (Some 0%Q) else Ok None
          end
      end
  end.

Definition extract_micro_info (data : envelope) (key : micro_key)
  : py (option Q) :=
  info <- first_entry (COMPILED_MICRO key) (test_results data) ;;
  match info with
  | None => Ok None
  | Some info =>
      let result := or_empty (get (result info) "") in
      match group (search true NUMBER_CFU result) with
      | Some m => Ok (Some (float m))
      | None =>
          if found false MICRO_NEGATIVE (lower result)
          then Ok (Some 0%Q) else Ok None
      end
  end.

(** [json.loads(row['json_values'])] followed by a use of the value as a
    dict. *)
Definition loads_dict (c : cell) : py envelope :=
  v <- json_loads c ;;
  match v with
  | PyDict e => Ok e
  | PyOther => Raise
  end.

Definition extract_field {K : Type} (c : cell) (field : K)
  (extractor_func : envelope -> K -> py (option Q)) : option Q :=
  catch (data <- loads_dict c ;; extractor_func data field) None.

Definition no_info : ginfo := mk_info None None None.

Definition extract_general_info (c : cell) : ginfo :=
  catch (data <- loads_dict c ;; Ok (general_info data)) no_info.

(** [json.loads] failing to decode gives [None]; a decoded value that
    is no dict raises. *)
Definition extract_coa_sufficient_content (c : cell) : py (option Z) :=
  if isna c then Ok None
  else
    match json_loads c with
    | Raise => Ok None
    | Ok (PyDict data) => Ok (sufficient_content data)
    | Ok PyOther => Raise
    end.

Definition starts_with (p : ascii -> bool) (s : string) : bool :=
  match s with
  | String c _ => p c
  | EmptyString => false
  end.

(** The number at the head of a text, read by hand: its digits, then a
    dot and further digits when a digit follows the dot; a text that
    starts with neither a digit nor a dot and a digit has none.  The
    answer is the text left after the number. *)
Definition number_end (s : string) : option string :=
  let r := drop_while is_digit s in
  match r with
  | String c r' =>
      if Ascii.eqb c "." && starts_with is_digit r'
      then Some (drop_while is_digit r')
      else if starts_with is_digit s then Some r else None
  | EmptyString => if starts_with is_digit s then Some r else None
  end.

(** Reading a word by hand: the text after the word [w] at the head of
    [s], the character before that text, and whether a word starts or
    ends between [prev] and [s]. *)
Fixpoint strip_prefix (w s : string) : option string :=
  match w with
  | EmptyString => Some s
  | String a w' =>
      match s with
      | String b s' => if Ascii.eqb a b then strip_prefix w' s' else None
      | EmptyString => None
      end
  end.

Fixpoint last_char (prev : option ascii) (w : string) : option ascii :=
  match w with
  | EmptyString => prev
  | String a w' => last_char (Some a) w'
  end.

Definition boundary (prev : option ascii) (s : string) : bool :=
  xorb (word_opt prev) (word_opt (peek s)).

Definition word_here (prev : option ascii) (s w : string) : bool :=
  boundary prev s
  && match strip_prefix w s with
     | Some rest => boundary (last_char prev w) rest
     | None => false
     end.

(** Whether one of the words [ws] stands somewhere in [s] as a whole
    word. *)
Fixpoint contains_word (ws : list string) (prev : option ascii) (s : string)
  : bool :=
  existsb (word_here prev s) ws
  || match s with
     | EmptyString => false
     | String c s' => contains_word ws (Some c) s'
     end.

(** The first position of a text where a reader finds something, with
    the text found there; [ending] gives the text left after it. *)
Fixpoint scan (ending : string -> option string) (i : nat) (s : string)
  : option (nat * string) :=
  match ending s with
  | Some rest =>
      Some (i, substring 0 (String.length s - String.length rest) s)
  | None =>
      match s with
      | EmptyString => None
      | String _ s' => scan ending (S i) s'
      end
  end.

(** The first number of a text, read by hand: its position and text. *)
Definition first_number (s : string) : option (nat * string) :=
  scan number_end 0 s.

(** Whether ["cfu"], in any case, comes next after optional whitespace. *)
Definition cfu_follows (s : string) : bool :=
  match drop_while is_space s with
  | String a (String b (String c _)) =>
      lit_eq true "c" a && lit_eq true "f" b && lit_eq true "u" c
  | _ => false
  end.

(** The number at the head of a text that ["cfu"] follows, read by
    hand. *)
Definition number_cfu_end (s : string) : option string :=
  let r := drop_while is_digit s in
  match r with
  | String c r' =>
      if Ascii.eqb c "." && starts_with is_digit r'
         && cfu_follows (drop_while is_digit r')
      then Some (drop_while is_digit r')
      else if starts_with is_digit s && cfu_follows r then Some r else None
  | EmptyString => None
  end.

Definition first_number_cfu (s : string) : option (nat * string) :=
  scan number_cfu_end 0 s.

(** The envelope with the limit field of every test entry replaced. *)
Definition set_limits (f : test_entry -> jfield) (data : envelope) : envelope :=
  mk_envelope (lot_number_value data) (lot_numbers_value data)
    (general_info data)
    (map (fun e => mk_entry (test e) (unit_ e) (f e) (method e) (result e))
       (test_results data))
    (sufficient_content data).

(** The entries before the first one that the pattern matches: each has
    a text label that the pattern does not match. *)
Definition unmatched (pattern : string -> bool) (entries : list test_entry)
  : Prop :=
  Forall (fun e => exists s, get (test e) "" = Some s /\ pattern s = false)
    entries.

End Lab.
Export Lab.

(* ------------------------------------------------------------------ *)
(** ** Collection transforms: the DataFrame operations the pipeline uses *)

Module Frame.

(** Insertion of [x] after every row that has to come before it: the
    rows [y] with [before y x]. *)
Fixpoint insert {A : Type} (before : A -> A -> bool) (x : A) (l : list A) : list A :=
  match l with
  | [] => [x]
  | y :: l' => if before y x then y :: insert before x l' else x :: l
  end.

(** A stable sort: rows that [before] does not order keep their order.
    ([sort_values] promises this for short frames only; the order among
    rows of equal value is used by no property of this file.) *)
Fixpoint sort_by {A : Type} (before : A -> A -> bool) (l : list A) : list A :=
  match l with
  | [] => []
  | x :: l' => insert before x (sort_by before l')
  end.

(** [list(dict.fromkeys(lst))]: the distinct values, first seen first. *)
Fixpoint fromkeys {A : Type} (eqb : A -> A -> bool) (l : list A) : list A :=
  match l with
  | [] => []
  | x :: l' => x :: filter (fun y => negb (eqb y x)) (fromkeys eqb l')
  end.

(** The rows with their position: [range(len(df))]. *)
Definition enumerate {A : Type} (l : list A) : list (nat * A) :=
  combine (seq 0 (List.length l)) l.

Definition notna {B : Type} (x : option B) : bool :=
  match x with
  | Some _ => true
  | None => false
  end.

Definition isna_value {B : Type} (x : option B) : bool := negb (notna x).

(** [pd.merge(left, right, how='left')] on a text key: every left row in
    order, once per right row of the same key in the order of [right],
    or once with missing right columns. *)
Definition merge_left {A B : Type} (left_on : A -> string) (right_on : B -> string)
  (left : list A) (right : list B) : list (A * option B) :=
  flat_map
    (fun l =>
       match filter (fun r => String.eqb (right_on r) (left_on l)) right with
       | [] => [(l, None)]
       | matches => map (fun r => (l, Some r)) matches
       end)
    left.

(** The keys of [df.groupby(key)]: distinct, sorted, missing keys
    dropped. *)
Definition group_keys {A K : Type} (eqb ltb : K -> K -> bool)
  (key : A -> option K) (df : list A) : list K :=
  sort_by ltb
    (fromkeys eqb
       (flat_map (fun a => match key a with Some k => [k] | None => [] end) df)).

Definition group_of {A K : Type} (eqb : K -> K -> bool) (key : A -> option K)
  (k : K) (df : list A) : list A :=
  filter (fun a => match key a with Some k' => eqb k' k | None => false end) df.

(** [df.groupby(key, group_keys=False).apply(f)]: [f] on every group, the
    results one after the other in key order. *)
Definition groupby_apply {A K B : Type} (eqb ltb : K -> K -> bool)
  (key : A -> option K) (f : list A -> list B) (df : list A) : list B :=
  flat_map (fun k => f (group_of eqb key k df)) (group_keys eqb ltb key df).

(** The greatest value of a non-empty column. *)
Definition maximum (l : list Z) : Z :=
  match l with
  | [] => 0
  | x :: l' => fold_left Z.max l' x
  end.

Fixpoint mapM {A B : Type} (f : A -> py B) (l : list A) : py (list B) :=
  match l with
  | [] => Ok []
  | x :: l' => y <- f x ;; ys <- mapM f l' ;; Ok (y :: ys)
  end.

End Frame.
Export Frame.

(* ------------------------------------------------------------------ *)
(** ** Matching and ranking functions *)

Module Matching.

Record best_match : Type := mk_best {
  matched_part_number : option string;
  matched_description : option string;
  similarity_score : Z
}.

(** [str(x)] of a text that may be missing: the catalog gives a missing
    description as [null], a column of texts keeps a missing value as
    [None]; its [str] is ["None"]. *)
Definition str_text (d : option string) : string :=
  match d with
  | Some s => s
  | None => "None"
  end.

Section FindBest.

Variable token_set_ratio : string -> string -> Z.

(** One turn of the loop over [rm_df.iterrows()]. *)
Definition best_step (product_name : string) (st : Z * option item)
  (row : item) : Z * option item :=
  let (best_score, best_row) := st in
  let score := token_set_ratio product_name (str_text (Description row)) in
  if score >? best_score then (score, Some row) else (best_score, best_row).

Definition find_best_match (product_name : string) (rm_df : list item)
  : best_match :=
  let (best_score, best_row) :=
    fold_left (best_step product_name) rm_df (-1, None) in
  match best_row with
  | Some row => mk_best (Part_Number row) (Description row) best_score
  | None => mk_best None None 0
  end.

End FindBest.

Section CustomRank.

Context {A : Type}.
Variable manufacture_date : A -> option string.
Variable expiry_date : A -> option string.

(** The order of two date values; a missing one is below every date. *)
Definition date_ltb (a b : option string) : bool :=
  match a, b with
  | Some x, Some y => String.ltb x y
  | None, Some _ => true
  | _, _ => false
  end.

(** [df.sort_values(col, ascending=False)] *)
Definition sort_values_desc {B : Type} (col : B -> option string)
  (df : list B) : list B :=
  sort_by (fun y x => date_ltb (col x) (col y)) df.

(** [df.sort_values('row_order')] *)
Definition sort_values_row_order (df : list (nat * A)) : list (nat * A) :=
  sort_by (fun y x => (fst y <? fst x)%nat) df.

(** [range(a, b)] *)
Definition range (a b : nat) : list nat := seq a (b - a).

(** The rows of a group, each with its [rank]. *)
Definition custom_rank (group : list A) : list (A * nat) :=
  let group := enumerate group in
  let with_mfg :=
    filter (fun r => notna (manufacture_date (snd r))) group in
  let with_expiry :=
    filter (fun r => isna_value (manufacture_date (snd r))
                     && notna (expiry_date (snd r))) group in
  let fallback :=
    filter (fun r => isna_value (manufacture_date (snd r))
                     && isna_value (expiry_date (snd r))) group in
  let with_mfg :=
    sort_values_desc (fun r => manufacture_date (snd r)) with_mfg in
  let with_expiry :=
    sort_values_desc (fun r => expiry_date (snd r)) with_expiry in
  let fallback := sort_values_row_order fallback in
  let n1 := List.length with_mfg in
  let n2 := List.length with_expiry in
  let with_mfg := combine with_mfg (range 1 (n1 + 1)) in
  let with_expiry := combine with_expiry (range (n1 + 1) (n1 + n2 + 1)) in
  let fallback := combine fallback (range (n1 + n2 + 1) (List.length group + 1)) in
  let combined := with_mfg ++ with_expiry ++ fallback in
  map (fun r => (snd (fst r), snd r)) combined.

(** The rows of a group in the order of their ranks. *)
Definition rank_order (group : list A) : list A := map fst (custom_rank group).

(** [a <= b] on date values that are both known or both unknown. *)
Definition date_le (a b : option string) : Prop := date_ltb b a = false.

End CustomRank.

End Matching.
Export Matching.

(* ------------------------------------------------------------------ *)
(** ** The stages of [process_validation]

    The frames are lists of rows; a row of a later frame holds the row
    of the earlier frame it was made from together with its new
    columns.  The columns of step 2 (the ten test values and the three
    general-info fields) depend on [json_values] alone and are computed
    where they are read. *)

Module Pipeline.

(** A row of [extracted_df3]: one document with one lot candidate and
    one filename candidate. *)
Record cand_row : Type := mk_cand {
  doc : document;
  lot_number : option string;
  m_number : scalar
}.

(** A row of [merged_extracted_df2]: the registry rows found for the two
    keys, and the similarity columns. *)
Record merged_row : Type := mk_merged {
  cand : cand_row;
  rm1 : option order_row;
  rm2 : option order_row;
  clean_product_name : string;
  name_similarity1 : Z;
  name_similarity2 : Z;
  name_similarity : Z
}.

(** A row of [grouped_df], and of [unmatched_file_merged] once the
    fallback match is attached. *)
Record grouped_row : Type := mk_grouped {
  g_filename : string;
  g_clean_product_name : string;
  g_name_similarity : Z
}.

(** A row of [merged_extracted_df3] with its [rank1] and
    [max_name_similarity] columns. *)
Record ranked_row : Type := mk_ranked {
  merged : merged_row;
  rm3 : option (grouped_row * best_match);
  rank1 : nat;
  max_name_similarity : Z
}.

(** A row of [rm_final]. *)
Record assignment : Type := mk_assignment {
  winner : ranked_row;
  rm_id_final : option string;
  rm_name_final : option string;
  name_similarity_final : option Z;
  coa_sufficient_content : option Z
}.

(** A row of [rm_clean]. *)
Record export_row : Type := mk_export {
  pr_codenum : option string;
  x_rm_name_final : option string;
  x_chem : list (option Q);
  x_micro : list (option Q);
  x_manufacture_date : option string;
  x_expiry_date : option string
}.

(** *** Step 1: lot numbers and M-numbers *)

(** Python truth of a lot value. *)
Definition truthy (l : lots) : bool :=
  match l with
  | One SNull => false
  | One (SInt z) => negb (z =? 0)
  | One (SStr s) => negb (String.eqb s "")
  | Many [] => false
  | Many _ => true
  end.

(** [a or b] *)
Definition or_else (a b : lots) : lots := if truthy a then a else b.

(** [d.get("lot_number") or d.get("lot_numbers") or [0]]; a parsed value
    that is no dict has no [get]. *)
Definition lot_numbers_column (d : pyval) : py lots :=
  match d with
  | PyDict e =>
      Ok (or_else (lot_number_value e)
            (or_else (lot_numbers_value e) (Many [SInt 0])))
  | PyOther => Raise
  end.

(** The rows [explode] makes of one value: a scalar stays, a list gives
    one row per element, an empty list one missing value. *)
Definition explode (l : lots) : list scalar :=
  match l with
  | One x => [x]
  | Many [] => [SNull]
  | Many xs => xs
  end.

Definition not_null (x : scalar) : bool :=
  match x with
  | SNull => false
  | _ => true
  end.

Definition extracted_df2 (extracted_df : list document)
  : py (list (document * option string)) :=
  with_lots <-
    mapM (fun d => l <- lot_numbers_column (safe_parse (json_values d)) ;;
                   Ok (d, l)) extracted_df ;;
  let exploded :=
    flat_map (fun r => map (pair (fst r)) (explode (snd r))) with_lots in
  let kept := filter (fun r => not_null (snd r)) exploded in
  Ok (map (fun r => (fst r, clean_and_extract_lot (snd r))) kept).

(** The [m_numbers] cell of a row. *)
Definition m_numbers (d : document) : list scalar :=
  let lst :=
    fromkeys String.eqb
      (findall false M_NUMBER (remove_nonword (filename_clean d))) in
  match lst with
  | [] => [SInt 0]
  | _ => map SStr lst
  end.

Definition extracted_df3 (df2 : list (document * option string))
  : list cand_row :=
  let exploded :=
    flat_map (fun r => map (mk_cand (fst r) (snd r)) (m_numbers (fst r))) df2 in
  filter (fun r => not_null (m_number r)) exploded.

(** The lot candidates of one document, and its candidate rows: the
    cross set of its lot candidates and its filename candidates. *)
Definition lot_candidates (d : document) : list (option string) :=
  match lot_numbers_column (safe_parse (json_values d)) with
  | Ok l => map clean_and_extract_lot (filter not_null (explode l))
  | Raise => []
  end.

Definition cross (d : document) : list cand_row :=
  flat_map (fun lot => map (mk_cand d lot) (m_numbers d)) (lot_candidates d).

(** *** Step 3: the exact matches *)

(** [re.sub(r'\W+', '', str(x))] on a value of a column of texts after
    [.str.lower()], which leaves a missing value as it is: its key is
    ["None"], with a capital that no text in small letters has. *)
Definition clean_key (x : option string) : string :=
  remove_nonword (str_text x).

Definition lot_number_order_clean (o : order_row) : string :=
  clean_key (option_map lower (lot_number_order o)).

Definition lot_number_clean (r : cand_row) : string :=
  clean_key (option_map lower (lot_number r)).

Definition is_text (x : scalar) : bool :=
  match x with
  | SStr _ => true
  | _ => false
  end.

(** [str(x)] on a value of the [m_number] column after [.str.lower()]:
    a text in small letters; the placeholder [0] is no text and becomes
    [NaN]; a missing value stays [None]. *)
Definition lower_str (x : scalar) : string :=
  match x with
  | SStr s => lower s
  | SInt _ => "nan"
  | SNull => "None"
  end.

(** The key of one row in the [m_number_clean] column. *)
Definition m_number_key (r : cand_row) : string :=
  remove_nonword (lower_str (m_number r)).

(** Whether a column of texts, numbers and missing values has the
    accessor [.str]: some value is a text, or no value is there at
    all; a column of numbers raises AttributeError. *)
Definition has_str (column : list scalar) : bool :=
  existsb is_text column || forallb (fun x => negb (not_null x)) column.

(** The [m_number_clean] column (lines 445-447). *)
Definition m_number_clean (df4 : list cand_row) : py (list string) :=
  if has_str (map m_number df4) then Ok (map m_number_key df4) else Raise.

(** [extracted_df4] (lines 415-418) as the steps after it can use it.
    On a frame without rows [extracted_df3.apply(extract_general_info,
    axis=1)] gives back the frame itself, so that the concatenation
    holds every column twice; [extracted_df4['lot_number']] is then a
    frame, which has no [.str], and line 442 raises. *)
Definition extracted_df4 (df3 : list cand_row) : py (list cand_row) :=
  match df3 with
  | [] => Raise
  | _ => Ok df3
  end.

Definition product_name (d : document) : option string :=
  gi_product_name (extract_general_info (json_values d)).

Definition manufacture_date (d : document) : option string :=
  gi_manufacture_date (extract_general_info (json_values d)).

Definition expiry_date (d : document) : option string :=
  gi_expiry_date (extract_general_info (json_values d)).

Definition part_of (o : option order_row) : option string :=
  match o with
  | Some r => Part_Number (order_item r)
  | None => None
  end.

Definition name_of (o : option order_row) : option string :=
  match o with
  | Some r => Description (order_item r)
  | None => None
  end.

Definition rm_code1 (r : merged_row) : option string := part_of (rm1 r).
Definition rm_name1 (r : merged_row) : option string := name_of (rm1 r).
Definition rm_code2 (r : merged_row) : option string := part_of (rm2 r).
Definition rm_name2 (r : merged_row) : option string := name_of (rm2 r).

Definition row_filename (r : merged_row) : string := filename (doc (cand r)).

Section Stages.

Variable token_set_ratio : string -> string -> Z.
Variable order_df : list order_row.
Variable rm_df : list item.

Definition merged_extracted_df (df4 : list cand_row)
  : list (cand_row * option order_row) :=
  merge_left lot_number_clean lot_number_order_clean df4 order_df.

Definition score (r : cand_row * option order_row * option order_row)
  : merged_row :=
  let c := fst (fst r) in
  let o1 := snd (fst r) in
  let o2 := snd r in
  let name := clean_text (product_name (doc c)) in
  let s1 := token_set_ratio name (clean_text (name_of o1)) in
  let s2 := token_set_ratio name (clean_text (name_of o2)) in
  mk_merged c o1 o2 name s1 s2 (Z.max s1 s2).

Definition merged_extracted_df2 (df4 : list cand_row) : list merged_row :=
  map score
    (merge_left (fun r => m_number_key (fst r)) lot_number_order_clean
       (merged_extracted_df df4) order_df).

(** *** Step 4: the fallback for unmatched files *)

Definition pair_eqb (a b : string * string) : bool :=
  String.eqb (fst a) (fst b) && String.eqb (snd a) (snd b).

Definition pair_ltb (a b : string * string) : bool :=
  String.ltb (fst a) (fst b)
  || (String.eqb (fst a) (fst b) && String.ltb (snd a) (snd b)).

Definition file_and_name (r : merged_row) : option (string * string) :=
  Some (row_filename r, clean_product_name r).

Definition grouped_df (df : list merged_row) : list grouped_row :=
  map (fun k =>
         mk_grouped (fst k) (snd k)
           (maximum (map name_similarity (group_of pair_eqb file_and_name k df))))
    (group_keys pair_eqb pair_ltb file_and_name df).

Definition unmatched_file (df : list merged_row) : list grouped_row :=
  filter (fun g => g_name_similarity g =? 0) (grouped_df df).

Definition unmatched_file_merged (df : list merged_row)
  : list (grouped_row * best_match) :=
  map (fun g => (g, find_best_match token_set_ratio (g_clean_product_name g) rm_df))
    (unmatched_file df).

(** The merge of lines 508-512.  When no file is unmatched,
    [matched_info] is an empty Series, [unmatched_file_merged] has no
    column [rm_code3] and selecting it raises KeyError. *)
Definition merged_extracted_df3 (df : list merged_row)
  : py (list (merged_row * option (grouped_row * best_match))) :=
  match unmatched_file_merged df with
  | [] => Raise
  | unmatched =>
      Ok (merge_left row_filename (fun u => g_filename (fst u)) df unmatched)
  end.

(** *** Step 5: one row per file, and the final columns *)

Definition same_file (a b : merged_row) : bool :=
  String.eqb (row_filename a) (row_filename b).

(** [y] comes before [z] in the ranking of a file: more similar, or as
    similar and earlier. *)
Definition better (y z : nat * merged_row) : Prop :=
  name_similarity (snd y) > name_similarity (snd z)
  \/ (name_similarity (snd y) = name_similarity (snd z) /\ (fst y < fst z)%nat).

(** [groupby("filename")["name_similarity"].rank(method="first",
    ascending=False)]: one more than the number of rows of the file that
    are greater, or equal and earlier. *)
Definition rank_first (df : list (nat * merged_row)) (i : nat) (r : merged_row)
  : nat :=
  S (List.length
       (filter (fun jr =>
                  same_file (snd jr) r
                  && ((name_similarity (snd jr) >? name_similarity r)
                      || ((name_similarity (snd jr) =? name_similarity r)
                          && (fst jr <? i)%nat)))
          df)).

(** [groupby("filename")["name_similarity"].transform("max")] *)
Definition file_max (df : list merged_row) (r : merged_row) : Z :=
  maximum (map name_similarity (filter (fun r' => same_file r' r) df)).

Definition with_ranks (df3 : list (merged_row * option (grouped_row * best_match)))
  : list ranked_row :=
  let rows := map fst df3 in
  map (fun ir =>
         mk_ranked (fst (snd ir)) (snd (snd ir))
           (rank_first (enumerate rows) (fst ir) (fst (snd ir)))
           (file_max rows (fst (snd ir))))
    (enumerate df3).

Definition merged_extracted_df4 (df3 : list (merged_row * option (grouped_row * best_match)))
  : list ranked_row :=
  filter (fun r => (rank1 r =? 1)%nat) (with_ranks df3).

Definition rm_code3 (r : ranked_row) : option string :=
  match rm3 r with
  | Some u => matched_part_number (snd u)
  | None => None
  end.

Definition rm_name3 (r : ranked_row) : option string :=
  match rm3 r with
  | Some u => matched_description (snd u)
  | None => None
  end.

Definition name_similarity3 (r : ranked_row) : option Z :=
  match rm3 r with
  | Some u => Some (similarity_score (snd u))
  | None => None
  end.

(** The two conditions of the [np.where] and [np.select] calls. *)
Definition takes_first (r : ranked_row) : bool :=
  negb (max_name_similarity r =? 0)
  && (name_similarity1 (merged r) =? name_similarity (merged r)).

Definition takes_second (r : ranked_row) : bool :=
  negb (max_name_similarity r =? 0)
  && (name_similarity2 (merged r) =? name_similarity (merged r)).

Definition final_id (r : ranked_row) : option string :=
  if takes_first r then rm_code1 (merged r)
  else if takes_second r then rm_code2 (merged r)
  else rm_code3 r.

Definition final_name (r : ranked_row) : option string :=
  if takes_first r then rm_name1 (merged r)
  else if takes_second r then rm_name2 (merged r)
  else rm_name3 r.

Definition final_similarity (r : ranked_row) : option Z :=
  if max_name_similarity r =? 0 then name_similarity3 r
  else Some (max_name_similarity r).

(** Where the final columns of a row come from. *)
Inductive origin : Type :=
| exact_lot
| exact_filename
| fuzzy_fallback.

Definition final_origin (r : ranked_row) : origin :=
  if takes_first r then exact_lot
  else if takes_second r then exact_filename
  else fuzzy_fallback.

(** *** Step 6: the quality filter and the ranking per entity *)

Definition row_document (r : ranked_row) : document := doc (cand (merged r)).

Definition rm_final (df4 : list ranked_row) : py (list assignment) :=
  mapM (fun r =>
          coa <- extract_coa_sufficient_content (json_values (row_document r)) ;;
          Ok (mk_assignment r (final_id r) (final_name r) (final_similarity r) coa))
    df4.

(** [col >= n]; a missing value compares false. *)
Definition at_least (x : option Z) (n : Z) : bool :=
  match x with
  | Some v => v >=? n
  | None => false
  end.

Definition quality (a : assignment) : bool :=
  ((max_name_similarity (winner a) >=? 50) || at_least (name_similarity_final a) 80)
  && at_least (coa_sufficient_content a) 8.

Definition rm_final2 (rm_final : list assignment) : list assignment :=
  filter quality rm_final.

(** The condition of the filter, as a proposition. *)
Definition passes (a : assignment) : Prop :=
  (50 <= max_name_similarity (winner a)
   \/ exists s, name_similarity_final a = Some s /\ 80 <= s)
  /\ exists c, coa_sufficient_content a = Some c /\ 8 <= c.

Definition a_manufacture_date (a : assignment) : option string :=
  manufacture_date (row_document (winner a)).

Definition a_expiry_date (a : assignment) : option string :=
  expiry_date (row_document (winner a)).

(** [rm_final2.groupby('rm_id_final', group_keys=False).apply(custom_rank)] *)
Definition rm_ranked (rm_final2 : list assignment) : list (assignment * nat) :=
  groupby_apply String.eqb String.ltb rm_id_final
    (custom_rank a_manufacture_date a_expiry_date) rm_final2.

(** *** Step 7: the export *)

Definition CHEM_FIELDS : list chem_key :=
  [arsenic_ppm; cadmium_ppm; chromium_ppm; lead_ppm; mercury_ppm;
   total_plate_count; yeast_and_mold].

Definition MICRO_FIELDS : list micro_key :=
  [e_coli; salmonella; staphylococcus_aureus].

(** [rm_final2[rm_final2['rank'] == 1]] *)
Definition rank_one (ranked : list (assignment * nat)) : list assignment :=
  map fst (filter (fun r => (snd r =? 1)%nat) ranked).

(** The columns that are kept, under their export names. *)
Definition to_export (a : assignment) : export_row :=
  let c := json_values (row_document (winner a)) in
  mk_export (rm_id_final a) (rm_name_final a)
    (map (fun k => extract_field c k extract_chem_info) CHEM_FIELDS)
    (map (fun k => extract_field c k extract_micro_info) MICRO_FIELDS)
    (a_manufacture_date a) (a_expiry_date a).

(** Without a group, [groupby(...).apply(custom_rank)] gives a frame
    that has no column [rank], and line 592 raises KeyError. *)
Definition rm_clean (rm_final2 : list assignment) : py (list export_row) :=
  match rm_ranked rm_final2 with
  | [] => Raise
  | ranked => Ok (map to_export (rank_one ranked))
  end.

(** *** The whole run *)

Definition candidate_rows (extracted_df : list document) : py (list cand_row) :=
  df2 <- extracted_df2 extracted_df ;;
  Ok (extracted_df3 df2).

(** Steps 3 to 5 on the candidate rows.  The merges build the keys of
    the [m_number_clean] column row by row, once the column is there. *)
Definition winners (df3 : list cand_row) : py (list ranked_row) :=
  df4 <- extracted_df4 df3 ;;
  _ <- m_number_clean df4 ;;
  merged3 <- merged_extracted_df3 (merged_extracted_df2 df4) ;;
  Ok (merged_extracted_df4 merged3).

Definition assignments (extracted_df : list document) : py (list assignment) :=
  df3 <- candidate_rows extracted_df ;;
  df4 <- winners df3 ;;
  rm_final df4.

Definition process_validation (extracted_df : list document)
  : py (list export_row) :=
  final <- assignments extracted_df ;;
  rm_clean (rm_final2 final).

End Stages.

End Pipeline.
Export Pipeline.


(* ------------------------------------------------------------------ *)
(** ** A small run, used by the examples *)

Module Sample.

(** The words of a text. *)
Fixpoint split_words (acc : string) (s : string) : list string :=
  match s with
  | EmptyString => if String.eqb acc "" then [] else [acc]
  | String c s' =>
      if is_word c then split_words (acc ++ String c "") s'
      else (if String.eqb acc "" then [] else [acc]) ++ split_words "" s'
  end.

Definition words (s : string) : list string :=
  fromkeys String.eqb (split_words "" (lower s)).

(** A scoring function for the examples: the share of common words
    among the words of both texts, in percent. *)
Definition overlap_ratio (a b : string) : Z :=
  let wa := words a in
  let wb := words b in
  let common := filter (fun w => existsb (String.eqb w) wb) wa in
  let all := (List.length wa + List.length wb - List.length common)%nat in
  Z.of_nat (100 * List.length common / all).

Definition entry (t r l : string) : test_entry :=
  mk_entry (Text t) Absent (Text l) Absent (Text r).

(** An envelope that holds test entries only. *)
Definition tests_only (entries : list test_entry) : envelope :=
  mk_envelope (One SNull) (One SNull) (mk_info None None None) entries None.

Definition coli_data : envelope :=
  mk_envelope (One SNull) (One SNull) (mk_info None None None)
    [entry "Lead" "<0.5 ppm" "2 ppm";
     entry "E. coli" "Absent" "10 cfu/g"]
    None.

Definition turmeric_new : document :=
  mk_document "COA_M12345_turmeric.pdf" "COA_M12345_turmeric"
    (JsonText (PyDict
       (mk_envelope (Many [SStr "M12345"; SStr "M54321"]) (One SNull)
          (mk_info (Some "Turmeric Extract") (Some "2024-06-01")
             (Some "2026-06-01"))
          [entry "Lead (Pb)" "2.3 ppm" "5 ppm";
           entry "Arsenic" "Not Detected" "";
           entry "E. coli" "Negative" "10 cfu/g";
           entry "Total Plate Count" "" "1000 cfu/g"]
          (Some 9)))).

Definition turmeric_old : document :=
  mk_document "turmeric lot M20001.pdf" "turmeric lot M20001"
    (JsonText (PyDict
       (mk_envelope (One (SStr "Lot M20001")) (One SNull)
          (mk_info (Some "Turmeric Extract") (Some "2024-01-01") None)
          [entry "Lead" "1.1" "5"]
          (Some 8)))).

Definition ginger : document :=
  mk_document "ginger.pdf" "ginger"
    (JsonText (PyDict
       (mk_envelope (One SNull) (One SNull)
          (mk_info (Some "Ginger Root Extract") None (Some "2025-01-01"))
          [entry "Salmonella" "Absent in 25 g" ""]
          (Some 10)))).

Definition scan : document :=
  mk_document "scan_0003.pdf" "scan_0003" Unparsable.

Definition poor : document :=
  mk_document "M30001.pdf" "M30001"
    (JsonText (PyDict
       (mk_envelope (One (SStr "M30001")) (One SNull)
          (mk_info (Some "Ashwagandha Powder") None None) [] (Some 5)))).

Definition licorice : document :=
  mk_document "M40001 licorice.pdf" "M40001 licorice"
    (JsonText (PyDict
       (mk_envelope (One (SStr "M40001")) (One SNull)
          (mk_info (Some "Licorice Extract") None None) [] (Some 9)))).

Definition extracted_df : list document :=
  [turmeric_new; turmeric_old; ginger; scan; poor; licorice].

Definition order_df : list order_row :=
  [mk_order (Some "M12345") (mk_item (Some "RM-100") (Some "Turmeric Extract"));
   mk_order (Some "M20001") (mk_item (Some "RM-100") (Some "Turmeric Extract"));
   mk_order (Some "M30001") (mk_item (Some "RM-300") (Some "Ashwagandha Powder"));
   mk_order (Some "M40001") (mk_item None (Some "Licorice Extract"))].

Definition rm_df : list item :=
  [mk_item (Some "RM-100") (Some "Turmeric Extract");
   mk_item (Some "RM-200") (Some "Ginger Root Extract");
   mk_item (Some "RM-300") (Some "Ashwagandha Powder")].

(** The frames of the run. *)
Definition final : list assignment :=
  Eval vm_compute in
    match assignments overlap_ratio order_df rm_df extracted_df with
    | Ok l => l
    | Raise => []
    end.

Definition export : list export_row :=
  Eval vm_compute in
    match rm_clean (rm_final2 final) with
    | Ok l => l
    | Raise => []
    end.

Definition nth_assignment (n : nat) : assignment :=
  nth n final (mk_assignment
                 (mk_ranked (mk_merged (mk_cand scan None SNull) None None "" 0 0 0)
                    None 0 0) None None None None).

End Sample.

(* ------------------------------------------------------------------ *)
(** ** Test names *)

Module Names.

Fixpoint map_chars (f : ascii -> ascii) (s : string) : string :=
  match s with
  | EmptyString => EmptyString
  | String c s' => String (f c) (map_chars f s')
  end.

(** [[a-z0-9\s]] *)
Definition plain (c : ascii) : bool := is_lower c || is_digit c || is_space c.

(** [re.sub(r'\s+', ' ', s)]: every run of whitespace becomes one space;
    [in_run] tells that the character before was whitespace. *)
Fixpoint collapse (in_run : bool) (s : string) : string :=
  match s with
  | EmptyString => EmptyString
  | String c s' =>
      if is_space c
      then if in_run then collapse true s' else String " " (collapse true s')
      else String c (collapse false s')
  end.

Definition clean_test_name (name : string) : string :=
  let s := lower name in
  let s := map_chars (fun c => if plain c then c else " "%char) s in
  strip (collapse false s).

End Names.
Export Names.

(* ------------------------------------------------------------------ *)
(** ** The shapes of the texts read and written *)

Module Shape.

(** A numeral as [float] takes it from a match: digits with at most one
    dot among them. *)
Definition is_numeral (m : string) : bool :=
  match split_dot m with
  | (ip, None) => forallb_string is_digit ip
  | (ip, Some fp) => forallb_string is_digit ip && forallb_string is_digit fp
  end.

(** [M] and four to six digits. *)
Definition is_m_number (s : string) : bool :=
  match s with
  | String c ds =>
      Ascii.eqb c "M" && forallb_string is_digit ds
      && (4 <=? String.length ds)%nat && (String.length ds <=? 6)%nat
  | EmptyString => false
  end.

Definition ends_with (p : ascii -> bool) (s : string) : bool :=
  starts_with p (rev_string EmptyString s).

(** Text without whitespace at either end. *)
Definition trimmed (s : string) : bool :=
  negb (starts_with is_space s) && negb (ends_with is_space s).

(** A cleaned text: small letters, digits and whitespace, none of it at
    the ends. *)
Definition is_clean_text (s : string) : bool :=
  forallb_string plain s && trimmed s.

(** No two whitespace characters in a row; [after_space] tells that the
    character before was one. *)
Fixpoint single_spaced (after_space : bool) (s : string) : bool :=
  match s with
  | EmptyString => true
  | String c s' =>
      negb (after_space && is_space c) && single_spaced (is_space c) s'
  end.

(** A cleaned test name: small letters and digits in words that one
    space separates. *)
Definition is_clean_name (s : string) : bool :=
  forallb_string (fun c => is_lower c || is_digit c || Ascii.eqb c " ") s
  && trimmed s && single_spaced false s.

End Shape.
Export Shape.

(* ------------------------------------------------------------------ *)
(** ** The catalog request *)

Module Catalog.

(** The state of the paging loop of [get_raw_material_items]. *)
Record paging (A : Type) : Type := mk_paging {
  all_items : list A;
  skip : nat;
  has_more : bool
}.
Arguments mk_paging {A} _ _ _.
Arguments all_items {A} _.
Arguments skip {A} _.
Arguments has_more {A} _.

Definition take : nat := 1000.

(** One turn of the loop on the [results] of the page requested at
    [skip]. *)
Definition turn {A : Type} (st : paging A) (results : list A) : paging A :=
  match results with
  | [] => mk_paging (all_items st) (skip st) false
  | _ => mk_paging (all_items st ++ results) (skip st + take) true
  end.

(** The loop on the answers of the server in the order of the requests:
    [raise_for_status] raises on a failed request, no request is made
    once [has_more] is false.  The result is the state reached and the
    [skip] parameters of the requests made. *)
Fixpoint fetch {A : Type} (answers : list (py (list A))) (st : paging A)
  (requests : list nat) : py (paging A * list nat) :=
  if has_more st then
    match answers with
    | [] => Ok (st, requests)
    | Raise :: _ => Raise
    | Ok results :: answers' =>
        fetch answers' (turn st results) (requests ++ [skip st])
    end
  else Ok (st, requests).

Definition fetch_all {A : Type} (answers : list (py (list A)))
  : py (paging A * list nat) :=
  fetch answers (mk_paging [] 0 true) [].

End Catalog.
Export Catalog.

(* ------------------------------------------------------------------ *)
(** ** Patterns of words *)

Module Words.

(** A pattern made of letters, alternatives and word boundaries only,
    as the label patterns of the two tables are. *)
Fixpoint literal (r : regex) : bool :=
  match r with
  | Eps | Lit _ | Bnd => true
  | Cat r1 r2 | Alt r1 r2 => literal r1 && literal r2
  | Cls _ | Star _ | Ahead _ => false
  end.

End Words.
Export Words.
(* ================================================================== *)
(** * Properties *)

(** ** Lists and sorting *)

Section SortFacts.

Context {A : Type}.
Variable before : A -> A -> bool.

Lemma insert_perm (x : A) (l : list A) :
  Permutation (insert before x l) (x :: l).
Proof.
  induction l as [|y l IH]; simpl.
  - apply Permutation_refl.
  - destruct (before y x).
    + apply perm_trans with (y :: x :: l).
      * apply perm_skip. exact IH.
      * apply perm_swap.
    + apply Permutation_refl.
Qed.

Lemma sort_by_perm (l : list A) : Permutation (sort_by before l) l.
Proof.
  induction l as [|x l IH]; simpl.
  - apply perm_nil.
  - apply perm_trans with (x :: sort_by before l).
    + apply insert_perm.
    + apply perm_skip. exact IH.
Qed.

Lemma sort_by_length (l : list A) :
  List.length (sort_by before l) = List.length l.
Proof. apply Permutation_length, sort_by_perm. Qed.

Lemma sort_by_In (l : list A) (x : A) : In x (sort_by before l) <-> In x l.
Proof.
  split; apply Permutation_in;
    [apply sort_by_perm | apply Permutation_sym, sort_by_perm].
Qed.

(** A list in which no later row has to come before an earlier one is
    left as it is. *)
Lemma insert_head (x : A) (l : list A) :
  Forall (fun y => before y x = false) l -> insert before x l = x :: l.
Proof.
  intros H. destruct l as [|y l]; simpl; [reflexivity|].
  inversion H as [|? ? Hy _]; subst. rewrite Hy. reflexivity.
Qed.

Lemma sort_by_fixed (l : list A) :
  ForallOrdPairs (fun x y => before y x = false) l -> sort_by before l = l.
Proof.
  induction 1 as [|x l Hx _ IH]; simpl; [reflexivity|].
  rewrite IH. apply insert_head. exact Hx.
Qed.

(** The first row of a sorted frame is one that no row has to come
    before, when [before] is asymmetric and its negation transitive. *)
Hypothesis before_asym : forall x y, before x y = true -> before y x = false.
Hypothesis not_before_trans :
  forall x y z, before y x = false -> before z y = false -> before z x = false.

Lemma before_irrefl (x : A) : before x x = false.
Proof.
  destruct (before x x) eqn:E; [|reflexivity].
  rewrite (before_asym _ _ E) in E. discriminate.
Qed.

Lemma insert_first (x : A) (l : list A) (d : A) :
  Forall (fun y => before y (hd d l) = false) l ->
  Forall (fun y => before y (hd d (insert before x l)) = false)
    (insert before x l).
Proof.
  destruct l as [|y l]; simpl; intros H.
  - constructor; [apply before_irrefl | constructor].
  - rewrite Forall_forall in H.
    destruct (before y x) eqn:E; simpl; rewrite Forall_forall; intros z Hz.
    + destruct Hz as [Hz|Hz]; [subst; apply before_irrefl|].
      apply (Permutation_in _ (insert_perm x l)) in Hz.
      destruct Hz as [Hz|Hz].
      * subst z. apply before_asym. exact E.
      * apply H. right. exact Hz.
    + destruct Hz as [Hz|Hz]; [subst; apply before_irrefl|].
      destruct Hz as [Hz|Hz]; [subst; exact E|].
      apply not_before_trans with y; [exact E|].
      apply H. right. exact Hz.
Qed.

Lemma sort_by_first (l : list A) (d : A) :
  Forall (fun y => before y (hd d (sort_by before l)) = false)
    (sort_by before l).
Proof.
  induction l as [|x l IH]; simpl.
  - constructor.
  - apply insert_first. exact IH.
Qed.

End SortFacts.

(** ** The order of texts *)

Lemma ascii_compare_lt_trans (a b c : ascii) :
  Ascii.compare a b = Lt -> Ascii.compare b c = Lt -> Ascii.compare a c = Lt.
Proof.
  unfold Ascii.compare. rewrite !N.compare_lt_iff. apply N.lt_trans.
Qed.

Lemma string_compare_lt_trans (a b c : string) :
  String.compare a b = Lt -> String.compare b c = Lt -> String.compare a c = Lt.
Proof.
  revert b c. induction a as [|x a IH]; intros [|y b] [|z c]; simpl;
    try discriminate; try reflexivity.
  destruct (Ascii.compare x y) eqn:Exy; try discriminate.
  - apply Ascii.compare_eq_iff in Exy. subst y.
    destruct (Ascii.compare x z); try discriminate; auto.
    apply IH.
  - intros _. destruct (Ascii.compare y z) eqn:Eyz; try discriminate.
    + apply Ascii.compare_eq_iff in Eyz. subst z. rewrite Exy. reflexivity.
    + rewrite (ascii_compare_lt_trans _ _ _ Exy Eyz). reflexivity.
Qed.

Lemma string_ltb_lt (a b : string) :
  String.ltb a b = true <-> String.compare a b = Lt.
Proof.
  unfold String.ltb. destruct (String.compare a b); split; congruence.
Qed.

Lemma string_ltb_asym (a b : string) :
  String.ltb a b = true -> String.ltb b a = false.
Proof.
  unfold String.ltb. rewrite (String.compare_antisym a b).
  destruct (String.compare b a); simpl; congruence.
Qed.

Lemma string_ltb_irrefl (a : string) : String.ltb a a = false.
Proof.
  destruct (String.ltb a a) eqn:E; [|reflexivity].
  rewrite (string_ltb_asym _ _ E) in E. discriminate.
Qed.

Lemma string_not_ltb_trans (x y z : string) :
  String.ltb x y = false -> String.ltb y z = false -> String.ltb x z = false.
Proof.
  intros Hxy Hyz. destruct (String.ltb x z) eqn:Hxz; [|reflexivity].
  apply string_ltb_lt in Hxz.
  destruct (String.compare y z) eqn:E.
  - apply String.compare_eq_iff in E. subst z.
    apply string_ltb_lt in Hxz. congruence.
  - apply string_ltb_lt in E. congruence.
  - assert (Hzy : String.compare z y = Lt).
    { rewrite String.compare_antisym, E. reflexivity. }
    pose proof (string_compare_lt_trans _ _ _ Hxz Hzy) as H.
    apply string_ltb_lt in H. congruence.
Qed.

Lemma string_ltb_total (a b : string) :
  String.ltb a b = false -> String.ltb b a = false -> a = b.
Proof.
  unfold String.ltb. rewrite (String.compare_antisym a b).
  destruct (String.compare b a) eqn:E; simpl; try discriminate.
  intros _ _. symmetry. apply String.compare_eq_iff. exact E.
Qed.

Lemma date_ltb_asym (a b : option string) :
  date_ltb a b = true -> date_ltb b a = false.
Proof.
  destruct a, b; simpl; try congruence. apply string_ltb_asym.
Qed.

Lemma date_not_ltb_trans (x y z : option string) :
  date_ltb x y = false -> date_ltb y z = false -> date_ltb x z = false.
Proof.
  destruct x, y, z; simpl; try congruence. apply string_not_ltb_trans.
Qed.

(** ** Distinct keys *)

Section KeyFacts.

Context {K : Type}.
Variable eqb : K -> K -> bool.
Hypothesis eqb_eq : forall x y, eqb x y = true <-> x = y.

Lemma fromkeys_In (l : list K) (x : K) : In x (fromkeys eqb l) <-> In x l.
Proof.
  induction l as [|y l IH]; simpl; [tauto|].
  rewrite filter_In, IH. split.
  - intros [H|[H _]]; auto.
  - intros [H|H]; auto.
    destruct (eqb x y) eqn:E.
    + left. symmetry. apply eqb_eq. exact E.
    + right. split; [exact H|]. reflexivity.
Qed.

Lemma fromkeys_NoDup (l : list K) : NoDup (fromkeys eqb l).
Proof.
  induction l as [|y l IH]; simpl; constructor.
  - rewrite filter_In. intros [_ H].
    assert (E : eqb y y = true) by (apply eqb_eq; reflexivity).
    rewrite E in H. discriminate.
  - apply NoDup_filter. exact IH.
Qed.

Context {A : Type}.
Variable ltb : K -> K -> bool.
Variable key : A -> option K.

Lemma group_keys_In (df : list A) (k : K) :
  In k (group_keys eqb ltb key df) <-> exists a, In a df /\ key a = Some k.
Proof.
  unfold group_keys. rewrite sort_by_In, fromkeys_In, in_flat_map.
  split; intros [a [Ha Hk]]; exists a; split; auto.
  - destruct (key a); simpl in Hk; [|contradiction].
    destruct Hk as [Hk|[]]. congruence.
  - rewrite Hk. left. reflexivity.
Qed.

Lemma group_keys_NoDup (df : list A) : NoDup (group_keys eqb ltb key df).
Proof.
  unfold group_keys.
  eapply Permutation_NoDup; [apply Permutation_sym, sort_by_perm|].
  apply fromkeys_NoDup.
Qed.

Lemma group_of_In (df : list A) (k : K) (a : A) :
  In a (group_of eqb key k df) <-> In a df /\ key a = Some k.
Proof.
  unfold group_of. rewrite filter_In. split; intros [H1 H2]; split; auto.
  - destruct (key a); [|discriminate]. f_equal. apply eqb_eq. exact H2.
  - rewrite H2. apply eqb_eq. reflexivity.
Qed.

End KeyFacts.

(** ** The ranks of a group *)

Lemma combine_app_same {A B : Type} (a b : list A) (c d : list B) :
  List.length a = List.length c ->
  combine (a ++ b) (c ++ d) = combine a c ++ combine b d.
Proof.
  revert c. induction a as [|x a IH]; intros [|y c] H; simpl in *;
    try discriminate; [reflexivity|].
  f_equal. apply IH. lia.
Qed.

Lemma combine_ranges {A : Type} (a b c : list A) (n : nat) :
  n = (List.length a + List.length b + List.length c)%nat ->
  combine a (range 1 (List.length a + 1))
  ++ combine b (range (List.length a + 1) (List.length a + List.length b + 1))
  ++ combine c (range (List.length a + List.length b + 1) (n + 1))
  = combine (a ++ b ++ c) (seq 1 n).
Proof.
  intros ->. unfold range.
  replace (List.length a + 1 - 1)%nat with (List.length a) by lia.
  replace (List.length a + List.length b + 1 - (List.length a + 1))%nat
    with (List.length b) by lia.
  replace (List.length a + List.length b + List.length c + 1
           - (List.length a + List.length b + 1))%nat
    with (List.length c) by lia.
  replace (List.length a + List.length b + List.length c)%nat
    with (List.length a + (List.length b + List.length c))%nat by lia.
  rewrite seq_app, seq_app.
  rewrite combine_app_same by (rewrite length_seq; reflexivity).
  rewrite combine_app_same by (rewrite length_seq; reflexivity).
  replace (1 + List.length a)%nat with (List.length a + 1)%nat by lia.
  replace (List.length a + 1 + List.length b)%nat
    with (List.length a + List.length b + 1)%nat by lia.
  reflexivity.
Qed.

Lemma filter_three_length {A : Type} (m e : A -> option string) (l : list A) :
  (List.length (filter (fun r => notna (m r)) l)
   + List.length (filter (fun r => isna_value (m r) && notna (e r)) l)
   + List.length (filter (fun r => isna_value (m r) && isna_value (e r)) l))%nat
  = List.length l.
Proof.
  induction l as [|x l IH]; simpl; [reflexivity|].
  unfold isna_value in *.
  destruct (notna (m x)), (notna (e x)); simpl; lia.
Qed.

Lemma map_combine_fst {A B C : Type} (f : A -> C) (l : list A) (s : list B) :
  map (fun r => (f (fst r), snd r)) (combine l s) = combine (map f l) s.
Proof.
  revert s. induction l as [|x l IH]; intros [|y s]; simpl; try reflexivity.
  f_equal. apply IH.
Qed.

Lemma filter_rank_above {A : Type} (l : list A) (k n : nat) :
  (2 <= k)%nat ->
  filter (fun r => (snd r =? 1)%nat) (combine l (seq k n)) = [].
Proof.
  revert k n. induction l as [|x l IH]; intros k [|n] Hk; simpl; try reflexivity.
  destruct (Nat.eqb_spec k 1); [lia|]. apply IH. lia.
Qed.

Lemma filter_rank_one {A : Type} (l : list A) :
  map fst (filter (fun r => (snd r =? 1)%nat)
             (combine l (seq 1 (List.length l))))
  = match l with [] => [] | x :: _ => [x] end.
Proof.
  destruct l as [|x l]; simpl; [reflexivity|].
  rewrite filter_rank_above by lia. reflexivity.
Qed.

Lemma enumerate_length {A : Type} (l : list A) :
  List.length (enumerate l) = List.length l.
Proof.
  unfold enumerate. rewrite length_combine, length_seq. apply Nat.min_id.
Qed.

Lemma map_fst_combine_seq {A : Type} (l : list A) (k n : nat) :
  List.length l = n -> map fst (combine l (seq k n)) = l.
Proof.
  intros <-. revert k. induction l as [|x l IH]; intros k; simpl; [reflexivity|].
  f_equal. apply IH.
Qed.

Section RankFacts.

Context {A : Type}.
Variable mfg : A -> option string.
Variable expiry : A -> option string.

(** The three tiers of a group, sorted, one after the other. *)
Lemma rank_order_tiers (g : list A) :
  rank_order mfg expiry g =
  map snd
    (sort_values_desc (fun r => mfg (snd r))
       (filter (fun r => notna (mfg (snd r))) (enumerate g))
     ++ sort_values_desc (fun r => expiry (snd r))
          (filter (fun r => isna_value (mfg (snd r)) && notna (expiry (snd r)))
             (enumerate g))
     ++ sort_values_row_order
          (filter (fun r => isna_value (mfg (snd r))
                            && isna_value (expiry (snd r))) (enumerate g)))
  /\ custom_rank mfg expiry g
     = combine (rank_order mfg expiry g) (seq 1 (List.length g)).
Proof.
  assert (E : custom_rank mfg expiry g =
    combine (map snd
    (sort_values_desc (fun r => mfg (snd r))
       (filter (fun r => notna (mfg (snd r))) (enumerate g))
     ++ sort_values_desc (fun r => expiry (snd r))
          (filter (fun r => isna_value (mfg (snd r)) && notna (expiry (snd r)))
             (enumerate g))
     ++ sort_values_row_order
          (filter (fun r => isna_value (mfg (snd r))
                            && isna_value (expiry (snd r))) (enumerate g))))
      (seq 1 (List.length g))).
  { unfold custom_rank.
    rewrite (combine_ranges _ _ _ (List.length (enumerate g))).
    - rewrite map_combine_fst, enumerate_length. reflexivity.
    - unfold sort_values_desc, sort_values_row_order.
      rewrite !sort_by_length.
      symmetry. apply filter_three_length. }
  assert (L : List.length (map snd
    (sort_values_desc (fun r => mfg (snd r))
       (filter (fun r => notna (mfg (snd r))) (enumerate g))
     ++ sort_values_desc (fun r => expiry (snd r))
          (filter (fun r => isna_value (mfg (snd r)) && notna (expiry (snd r)))
             (enumerate g))
     ++ sort_values_row_order
          (filter (fun r => isna_value (mfg (snd r))
                            && isna_value (expiry (snd r))) (enumerate g))))
     = List.length g).
  { rewrite length_map, !length_app.
    unfold sort_values_desc, sort_values_row_order.
    rewrite !sort_by_length, Nat.add_assoc.
    rewrite (filter_three_length (fun r => mfg (snd r)) (fun r => expiry (snd r))).
    apply enumerate_length. }
  assert (R : rank_order mfg expiry g = map snd
    (sort_values_desc (fun r => mfg (snd r))
       (filter (fun r => notna (mfg (snd r))) (enumerate g))
     ++ sort_values_desc (fun r => expiry (snd r))
          (filter (fun r => isna_value (mfg (snd r)) && notna (expiry (snd r)))
             (enumerate g))
     ++ sort_values_row_order
          (filter (fun r => isna_value (mfg (snd r))
                            && isna_value (expiry (snd r))) (enumerate g)))).
  { unfold rank_order. rewrite E. apply map_fst_combine_seq. exact L. }
  split; [exact R|]. rewrite R. exact E.
Qed.

Lemma rank_order_length (g : list A) :
  List.length (rank_order mfg expiry g) = List.length g.
Proof.
  unfold rank_order. rewrite (proj2 (rank_order_tiers g)).
  rewrite length_map, length_combine, length_seq.
  rewrite (proj1 (rank_order_tiers g)), length_map, !length_app.
  unfold sort_values_desc, sort_values_row_order.
  rewrite !sort_by_length, Nat.add_assoc.
  rewrite (filter_three_length (fun r => mfg (snd r)) (fun r => expiry (snd r))).
  rewrite enumerate_length. apply Nat.min_id.
Qed.

(** The rows of rank 1 of a group: the first row in rank order. *)
Lemma custom_rank_rank_one (g : list A) :
  map fst (filter (fun r => (snd r =? 1)%nat) (custom_rank mfg expiry g))
  = match rank_order mfg expiry g with [] => [] | w :: _ => [w] end.
Proof.
  rewrite (proj2 (rank_order_tiers g)), <- (rank_order_length g).
  apply filter_rank_one.
Qed.

Lemma enumerate_snd (g : list A) : map snd (enumerate g) = g.
Proof.
  unfold enumerate. generalize 0%nat.
  induction g as [|x g IH]; intros k; simpl; [reflexivity|].
  f_equal. apply IH.
Qed.

Lemma enumerate_increasing (g : list A) :
  ForallOrdPairs (fun x y : nat * A => (fst y <? fst x)%nat = false)
    (enumerate g).
Proof.
  unfold enumerate. generalize 0%nat.
  induction g as [|x g IH]; intros k; simpl; constructor.
  - rewrite Forall_forall. intros [j y] Hy. simpl.
    apply in_combine_l in Hy. apply in_seq in Hy.
    apply Nat.ltb_ge. lia.
  - apply IH.
Qed.

Lemma ForallOrdPairs_filter {B : Type} (R : B -> B -> Prop) (p : B -> bool)
  (l : list B) :
  ForallOrdPairs R l -> ForallOrdPairs R (filter p l).
Proof.
  induction 1 as [|x l Hx _ IH]; simpl; [constructor|].
  destruct (p x); [|exact IH].
  constructor; [|exact IH].
  rewrite Forall_forall in *. intros y Hy. apply Hx.
  apply filter_In in Hy. tauto.
Qed.

(** The third tier keeps the order of arrival. *)
Lemma fallback_in_arrival_order (p : nat * A -> bool) (g : list A) :
  sort_values_row_order (filter p (enumerate g)) = filter p (enumerate g).
Proof.
  unfold sort_values_row_order. apply sort_by_fixed.
  apply ForallOrdPairs_filter, enumerate_increasing.
Qed.

Lemma three_tiers_perm {B : Type} (m e : B -> option string) (l : list B) :
  Permutation
    (filter (fun r => notna (m r)) l
     ++ filter (fun r => isna_value (m r) && notna (e r)) l
     ++ filter (fun r => isna_value (m r) && isna_value (e r)) l) l.
Proof.
  induction l as [|x l IH]; simpl; [constructor|].
  unfold isna_value in *.
  destruct (notna (m x)), (notna (e x)); simpl.
  - apply perm_skip, IH.
  - apply perm_skip, IH.
  - apply Permutation_sym, Permutation_cons_app, Permutation_sym, IH.
  - apply Permutation_sym.
    rewrite app_assoc. apply Permutation_cons_app.
    rewrite <- app_assoc. apply Permutation_sym, IH.
Qed.

Lemma rank_order_perm (g : list A) : Permutation (rank_order mfg expiry g) g.
Proof.
  rewrite (proj1 (rank_order_tiers g)).
  rewrite <- (enumerate_snd g) at 4.
  apply Permutation_map.
  eapply perm_trans; [|apply (three_tiers_perm (fun r => mfg (snd r))
                                (fun r => expiry (snd r)))].
  unfold sort_values_desc, sort_values_row_order.
  repeat apply Permutation_app; apply sort_by_perm.
Qed.

(** The first row of a frame sorted downwards on a column: no row has a
    greater value. *)
Lemma sort_values_desc_first {B : Type} (col : B -> option string)
  (l : list B) (w : B) (rest : list B) :
  sort_values_desc col l = w :: rest ->
  In w l /\ forall x, In x l -> date_le (col x) (col w).
Proof.
  intros E. split.
  - apply (sort_by_In (fun y x => date_ltb (col x) (col y))).
    unfold sort_values_desc in E. rewrite E. left. reflexivity.
  - intros x Hx.
    pose proof (sort_by_first (fun y x => date_ltb (col x) (col y))
                  (fun a b => date_ltb_asym _ _)
                  (fun a b c H1 H2 => date_not_ltb_trans _ _ _ H1 H2) l w) as F.
    unfold sort_values_desc in E. rewrite E in F. simpl in F.
    rewrite Forall_forall in F. unfold date_le.
    apply F. rewrite <- E. apply sort_by_In. exact Hx.
Qed.

Lemma filter_nil_iff {B : Type} (p : B -> bool) (l : list B) :
  filter p l = [] <-> forall x, In x l -> p x = false.
Proof.
  induction l as [|y l IH]; simpl.
  - split; [intros _ x []|reflexivity].
  - destruct (p y) eqn:E.
    + split; [discriminate|]. intros H.
      rewrite (H y (or_introl eq_refl)) in E. discriminate.
    + rewrite IH. split.
      * intros H x [->|Hx]; auto.
      * intros H x Hx. apply H. right. exact Hx.
Qed.

Lemma enumerate_In_snd (g : list A) (r : nat * A) :
  In r (enumerate g) -> In (snd r) g.
Proof.
  intros H. rewrite <- (enumerate_snd g). apply in_map. exact H.
Qed.

Lemma In_enumerate (g : list A) (x : A) :
  In x g -> exists i, In (i, x) (enumerate g).
Proof.
  intros H. rewrite <- (enumerate_snd g) in H.
  apply in_map_iff in H. destruct H as [[i y] [E H]]. simpl in E. subst y.
  exists i. exact H.
Qed.

(** The row of rank 1 of a group: the most recent manufacture date when
    one is known, else the most recent expiry date when one is known,
    else the first row. *)
Lemma custom_rank_winner (g : list A) :
  g <> [] ->
  exists w,
    map fst (filter (fun r => (snd r =? 1)%nat) (custom_rank mfg expiry g)) = [w]
    /\ In w g
    /\ ((exists x, In x g /\ mfg x <> None) ->
        mfg w <> None /\ forall x, In x g -> date_le (mfg x) (mfg w))
    /\ ((forall x, In x g -> mfg x = None) ->
        (exists x, In x g /\ expiry x <> None) ->
        expiry w <> None /\ forall x, In x g -> date_le (expiry x) (expiry w))
    /\ ((forall x, In x g -> mfg x = None /\ expiry x = None) ->
        hd_error g = Some w).
Proof.
  intros Hne. rewrite custom_rank_rank_one.
  pose proof (rank_order_perm g) as P.
  pose proof (proj1 (rank_order_tiers g)) as T.
  rewrite fallback_in_arrival_order in T.
  destruct (rank_order mfg expiry g) as [|w rest] eqn:E.
  { apply Permutation_nil in P. contradiction. }
  exists w. split; [reflexivity|].
  split; [apply (Permutation_in _ P); left; reflexivity|].
  set (Am := filter (fun r : nat * A => notna (mfg (snd r))) (enumerate g)) in *.
  set (Ae := filter (fun r : nat * A => isna_value (mfg (snd r))
                                       && notna (expiry (snd r))) (enumerate g)) in *.
  set (Af := filter (fun r : nat * A => isna_value (mfg (snd r))
                                       && isna_value (expiry (snd r))) (enumerate g)) in *.
  split; [|split].
  - intros [x [Hx Hk]].
    destruct (sort_values_desc (fun r => mfg (snd r)) Am) as [|v vs] eqn:Es.
    + exfalso.
      assert (L : List.length Am = 0%nat).
      { rewrite <- (sort_by_length (fun y x0 : nat * A =>
                      date_ltb (mfg (snd x0)) (mfg (snd y))) Am).
        unfold sort_values_desc in Es. rewrite Es. reflexivity. }
      apply length_zero_iff_nil in L.
      destruct (In_enumerate g x Hx) as [i Hi].
      assert (Hin : In (i, x) Am).
      { apply filter_In. split; [exact Hi|]. simpl.
        destruct (mfg x); [reflexivity|contradiction]. }
      rewrite L in Hin. exact Hin.
    + simpl in T. injection T as Tw _. subst w.
      destruct (sort_values_desc_first _ _ _ _ Es) as [Hv Hmax].
      apply filter_In in Hv. destruct Hv as [Hv Hk'].
      split.
      * destruct (mfg (snd v)); [discriminate|discriminate].
      * intros y Hy. destruct (mfg y) eqn:Ey.
        -- destruct (In_enumerate g y Hy) as [j Hj].
           rewrite <- Ey.
           apply (Hmax (j, y)). apply filter_In. split; [exact Hj|].
           simpl. rewrite Ey. reflexivity.
        -- unfold date_le. destruct (mfg (snd v)); reflexivity.
  - intros Hall [x [Hx Hk]].
    assert (Em : Am = []).
    { apply filter_nil_iff. intros r Hr.
      rewrite (Hall _ (enumerate_In_snd g r Hr)). reflexivity. }
    rewrite Em in T. simpl in T.
    destruct (sort_values_desc (fun r => expiry (snd r)) Ae) as [|v vs] eqn:Es.
    + exfalso.
      assert (L : List.length Ae = 0%nat).
      { rewrite <- (sort_by_length (fun y x0 : nat * A =>
                      date_ltb (expiry (snd x0)) (expiry (snd y))) Ae).
        unfold sort_values_desc in Es. rewrite Es. reflexivity. }
      apply length_zero_iff_nil in L.
      destruct (In_enumerate g x Hx) as [i Hi].
      assert (Hin : In (i, x) Ae).
      { apply filter_In. split; [exact Hi|]. simpl.
        rewrite (Hall x Hx). destruct (expiry x); [reflexivity|contradiction]. }
      rewrite L in Hin. exact Hin.
    + simpl in T. injection T as Tw _. subst w.
      destruct (sort_values_desc_first _ _ _ _ Es) as [Hv Hmax].
      apply filter_In in Hv. destruct Hv as [Hv Hk'].
      split.
      * destruct (expiry (snd v)); [discriminate|].
        rewrite andb_false_r in Hk'. discriminate.
      * intros y Hy. destruct (expiry y) eqn:Ey.
        -- destruct (In_enumerate g y Hy) as [j Hj].
           rewrite <- Ey.
           apply (Hmax (j, y)). apply filter_In. split; [exact Hj|].
           simpl. rewrite (Hall y Hy), Ey. reflexivity.
        -- unfold date_le. destruct (expiry (snd v)); reflexivity.
  - intros Hall.
    assert (Em : Am = []).
    { apply filter_nil_iff. intros r Hr.
      rewrite (proj1 (Hall _ (enumerate_In_snd g r Hr))). reflexivity. }
    assert (Ee : Ae = []).
    { apply filter_nil_iff. intros r Hr.
      rewrite (proj2 (Hall _ (enumerate_In_snd g r Hr))).
      apply andb_false_r. }
    assert (Ef : Af = enumerate g).
    { unfold Af. apply forallb_filter_id. apply forallb_forall. intros r Hr.
      destruct (Hall _ (enumerate_In_snd g r Hr)) as [H1 H2].
      rewrite H1, H2. reflexivity. }
    rewrite Em, Ee, Ef in T. simpl in T. rewrite enumerate_snd in T.
    rewrite <- T. reflexivity.
Qed.

End RankFacts.

(** ** The export: one row per entity code *)

Lemma string_eqb_eq (x y : string) : String.eqb x y = true <-> x = y.
Proof. apply String.eqb_eq. Qed.

Lemma rank_one_flat_map {K : Type} (f : K -> list (assignment * nat))
  (ks : list K) :
  rank_one (flat_map f ks) = flat_map (fun k => rank_one (f k)) ks.
Proof.
  unfold rank_one. induction ks as [|k ks IH]; simpl; [reflexivity|].
  rewrite filter_app, map_app, IH. reflexivity.
Qed.

(** The selected rows: for every key in key order, the first row of its
    group in rank order. *)
Lemma rank_one_rm_ranked (l : list assignment) :
  rank_one (rm_ranked l)
  = flat_map
      (fun k =>
         match rank_order a_manufacture_date a_expiry_date
                 (group_of String.eqb rm_id_final k l) with
         | [] => []
         | w :: _ => [w]
         end)
      (group_keys String.eqb String.ltb rm_id_final l).
Proof.
  unfold rm_ranked, groupby_apply. rewrite rank_one_flat_map.
  apply flat_map_ext. intros k. unfold rank_one.
  apply custom_rank_rank_one.
Qed.

Lemma group_nonempty (l : list assignment) (k : string) :
  In k (group_keys String.eqb String.ltb rm_id_final l) ->
  group_of String.eqb rm_id_final k l <> [].
Proof.
  intros H. apply (group_keys_In String.eqb string_eqb_eq) in H.
  destruct H as [a [Ha Hk]]. intros E.
  assert (Hin : In a (group_of String.eqb rm_id_final k l)).
  { apply (group_of_In String.eqb string_eqb_eq). split; assumption. }
  rewrite E in Hin. exact Hin.
Qed.

(** A selected row is the row of rank 1 of the group of its code. *)
Lemma rank_one_In (l : list assignment) (a : assignment) :
  In a (rank_one (rm_ranked l)) <->
  exists k,
    In k (group_keys String.eqb String.ltb rm_id_final l)
    /\ map fst (filter (fun r => (snd r =? 1)%nat)
                  (custom_rank a_manufacture_date a_expiry_date
                     (group_of String.eqb rm_id_final k l))) = [a].
Proof.
  rewrite rank_one_rm_ranked, in_flat_map.
  split; intros [k [Hk H]]; exists k; split; try exact Hk.
  - rewrite custom_rank_rank_one.
    destruct (rank_order _ _ _) as [|w rest]; [contradiction|].
    destruct H as [->|[]]. reflexivity.
  - rewrite custom_rank_rank_one in H.
    destruct (rank_order _ _ _) as [|w rest]; [discriminate|].
    injection H as ->. left. reflexivity.
Qed.

Lemma rank_one_origin (l : list assignment) (a : assignment) :
  In a (rank_one (rm_ranked l)) ->
  In a l /\ exists k, rm_id_final a = Some k.
Proof.
  intros H. apply rank_one_In in H. destruct H as [k [Hk H]].
  destruct (custom_rank_winner a_manufacture_date a_expiry_date _
              (group_nonempty l k Hk)) as [w [Hw [Hin _]]].
  rewrite Hw in H. injection H as ->.
  apply (group_of_In String.eqb string_eqb_eq) in Hin.
  destruct Hin as [H1 H2]. split; [exact H1|]. exists k. exact H2.
Qed.

Lemma rank_one_codes (l : list assignment) :
  map rm_id_final (rank_one (rm_ranked l))
  = map Some (group_keys String.eqb String.ltb rm_id_final l).
Proof.
  rewrite rank_one_rm_ranked.
  assert (G : forall ks,
    (forall k, In k ks -> In k (group_keys String.eqb String.ltb rm_id_final l)) ->
    map rm_id_final
      (flat_map
         (fun k =>
            match rank_order a_manufacture_date a_expiry_date
                    (group_of String.eqb rm_id_final k l) with
            | [] => []
            | w :: _ => [w]
            end) ks)
    = map Some ks).
  { induction ks as [|k ks IH]; intros Hks; simpl; [reflexivity|].
    rewrite map_app, IH by (intros k' Hk'; apply Hks; right; exact Hk').
    pose proof (custom_rank_winner a_manufacture_date a_expiry_date _
                  (group_nonempty l k (Hks k (or_introl eq_refl))))
      as [w [Hw [Hin _]]].
    rewrite custom_rank_rank_one in Hw.
    destruct (rank_order _ _ _) as [|w' rest]; [discriminate|].
    injection Hw as ->. simpl. f_equal.
    apply (group_of_In String.eqb string_eqb_eq) in Hin. tauto. }
  apply G. auto.
Qed.

Lemma rank_one_codes_NoDup (l : list assignment) :
  NoDup (map rm_id_final (rank_one (rm_ranked l))).
Proof.
  rewrite rank_one_codes.
  apply Finite.Injective_map_NoDup.
  - intros x y E. congruence.
  - apply (group_keys_NoDup String.eqb string_eqb_eq).
Qed.

Lemma rm_clean_Ok (l : list assignment) (out : list export_row) :
  rm_clean l = Ok out <->
  rm_ranked l <> [] /\ out = map to_export (rank_one (rm_ranked l)).
Proof.
  unfold rm_clean. destruct (rm_ranked l) as [|r ranked]; split.
  - discriminate.
  - intros [H _]. contradiction.
  - intros H. injection H as <-. split; [discriminate|reflexivity].
  - intros [_ ->]. reflexivity.
Qed.

Lemma rm_clean_codes (l : list assignment) :
  map pr_codenum (map to_export (rank_one (rm_ranked l)))
  = map rm_id_final (rank_one (rm_ranked l)).
Proof. rewrite map_map. reflexivity. Qed.

Lemma NoDup_map_eq {A B : Type} (f : A -> B) (l : list A) (x y : A) :
  NoDup (map f l) -> In x l -> In y l -> f x = f y -> x = y.
Proof.
  induction l as [|z l IH]; simpl; [contradiction|].
  intros N Hx Hy E. inversion N as [|? ? Hz N']; subst.
  destruct Hx as [->|Hx], Hy as [->|Hy]; auto.
  - exfalso. apply Hz. rewrite E. apply in_map. exact Hy.
  - exfalso. apply Hz. rewrite <- E. apply in_map. exact Hx.
Qed.

Section Run.

Variable token_set_ratio : string -> string -> Z.
Variable order_df : list order_row.
Variable rm_df : list item.

Lemma process_validation_export (docs : list document) (final : list assignment) :
  assignments token_set_ratio order_df rm_df docs = Ok final ->
  forall out,
    process_validation token_set_ratio order_df rm_df docs = Ok out <->
    rm_ranked (rm_final2 final) <> []
    /\ out = map to_export (rank_one (rm_ranked (rm_final2 final))).
Proof.
  intros H out. unfold process_validation. rewrite H. cbn [bind].
  apply rm_clean_Ok.
Qed.

Lemma process_validation_inv (docs : list document) (out : list export_row) :
  process_validation token_set_ratio order_df rm_df docs = Ok out ->
  exists final,
    assignments token_set_ratio order_df rm_df docs = Ok final
    /\ out = map to_export (rank_one (rm_ranked (rm_final2 final))).
Proof.
  unfold process_validation.
  destruct (assignments token_set_ratio order_df rm_df docs) as [final|];
    cbn [bind]; [|discriminate].
  intros H. apply rm_clean_Ok in H. exists final. split; [reflexivity|].
  exact (proj2 H).
Qed.

End Run.

(** ** The quality filter *)

Lemma quality_passes (a : assignment) : quality a = true <-> passes a.
Proof.
  unfold quality, passes, at_least.
  rewrite andb_true_iff, orb_true_iff.
  split.
  - intros [H1 H2]. split.
    + destruct H1 as [H1|H1]; [left; lia|right].
      destruct (name_similarity_final a) as [s|]; [|discriminate].
      exists s. split; [reflexivity|lia].
    + destruct (coa_sufficient_content a) as [c|]; [|discriminate].
      exists c. split; [reflexivity|lia].
  - intros [H1 [c [Hc H2]]]. split.
    + destruct H1 as [H1|[s [Hs H1]]]; [left; lia|right].
      rewrite Hs. lia.
    + rewrite Hc. lia.
Qed.

Lemma rm_final2_In (final : list assignment) (a : assignment) :
  In a (rm_final2 final) <-> In a final /\ passes a.
Proof.
  unfold rm_final2. rewrite filter_In, quality_passes. reflexivity.
Qed.

(** ** The claims on the export *)

(** C1. For every entity code appearing in the final export exactly one
    row with that code exists: no code occurs twice among the rows of
    [rm_clean], and every code of a filtered assignment occurs. *)
Theorem C1_one_row_per_entity_code :
  forall (token_set_ratio : string -> string -> Z) (order_df : list order_row)
         (rm_df : list item) (docs : list document) (out : list export_row),
    process_validation token_set_ratio order_df rm_df docs = Ok out ->
    NoDup (map pr_codenum out)
    /\ exists final,
         assignments token_set_ratio order_df rm_df docs = Ok final
         /\ forall a c,
              In a (rm_final2 final) -> rm_id_final a = Some c ->
              In (Some c) (map pr_codenum out).
Proof.
  intros ratio order rm docs out H.
  apply process_validation_inv in H. destruct H as [final [Hf ->]].
  rewrite rm_clean_codes.
  split; [apply rank_one_codes_NoDup|].
  exists final. split; [exact Hf|].
  intros a c Ha Hc. rewrite rank_one_codes. apply in_map.
  apply (group_keys_In String.eqb string_eqb_eq). exists a. split; assumption.
Qed.

Lemma C1_one_row_per_entity_code_witness :
  process_validation Sample.overlap_ratio Sample.order_df Sample.rm_df
    Sample.extracted_df = Ok Sample.export
  /\ NoDup (map pr_codenum Sample.export).
Proof.
  assert (H : process_validation Sample.overlap_ratio Sample.order_df
                Sample.rm_df Sample.extracted_df = Ok Sample.export)
    by (vm_compute; reflexivity).
  split; [exact H|].
  exact (proj1 (C1_one_row_per_entity_code _ _ _ _ _ H)).
Defined.

(** C10. Every row of the final export has an entity code: grouping by
    [rm_id_final] leaves out the rows whose code is missing, so a
    filtered assignment without a code is not among the selected rows. *)
Theorem C10_export_codes_not_null :
  forall (token_set_ratio : string -> string -> Z) (order_df : list order_row)
         (rm_df : list item) (docs : list document) (out : list export_row),
    process_validation token_set_ratio order_df rm_df docs = Ok out ->
    (forall x, In x out -> pr_codenum x <> None)
    /\ exists final,
         assignments token_set_ratio order_df rm_df docs = Ok final
         /\ out = map to_export (rank_one (rm_ranked (rm_final2 final)))
         /\ forall a,
              In a (rm_final2 final) -> rm_id_final a = None ->
              ~ In a (rank_one (rm_ranked (rm_final2 final))).
Proof.
  intros ratio order rm docs out H.
  apply process_validation_inv in H. destruct H as [final [Hf ->]].
  split.
  - intros x Hx. apply in_map_iff in Hx. destruct Hx as [a [<- Ha]].
    apply rank_one_origin in Ha. destruct Ha as [_ [k Hk]].
    simpl. rewrite Hk. discriminate.
  - exists final. split; [exact Hf|]. split; [reflexivity|].
    intros a _ Hnone Hin.
    apply rank_one_origin in Hin. destruct Hin as [_ [k Hk]]. congruence.
Qed.

Lemma C10_export_codes_not_null_witness :
  process_validation Sample.overlap_ratio Sample.order_df Sample.rm_df
    Sample.extracted_df = Ok Sample.export
  /\ (forall x, In x Sample.export -> pr_codenum x <> None).
Proof.
  assert (H : process_validation Sample.overlap_ratio Sample.order_df
                Sample.rm_df Sample.extracted_df = Ok Sample.export)
    by (vm_compute; reflexivity).
  split; [exact H|].
  exact (proj1 (C10_export_codes_not_null _ _ _ _ _ H)).
Defined.

(** C3. A row is in the final export only if its assignment has
    (maximum exact-match similarity of its document at least 50, or
    final confidence at least 80) and sufficiency score at least 8; an
    assignment that fails the condition is not among the selected rows. *)
Theorem C3_export_passes_quality_filter :
  forall (token_set_ratio : string -> string -> Z) (order_df : list order_row)
         (rm_df : list item) (docs : list document) (final : list assignment),
    assignments token_set_ratio order_df rm_df docs = Ok final ->
    (forall out,
       process_validation token_set_ratio order_df rm_df docs = Ok out <->
       rm_ranked (rm_final2 final) <> []
       /\ out = map to_export (rank_one (rm_ranked (rm_final2 final))))
    /\ (forall a, In a (rank_one (rm_ranked (rm_final2 final))) ->
                  In a final /\ passes a)
    /\ (forall a, In a final -> ~ passes a ->
                  ~ In a (rank_one (rm_ranked (rm_final2 final)))).
Proof.
  intros ratio order rm docs final Hf.
  split; [apply process_validation_export; exact Hf|].
  assert (G : forall a, In a (rank_one (rm_ranked (rm_final2 final))) ->
                        In a final /\ passes a).
  { intros a Ha. apply rank_one_origin in Ha. destruct Ha as [Ha _].
    apply rm_final2_In. exact Ha. }
  split; [exact G|].
  intros a _ Hn Ha. apply Hn. apply (G a Ha).
Qed.

Lemma C3_export_passes_quality_filter_witness :
  assignments Sample.overlap_ratio Sample.order_df Sample.rm_df
    Sample.extracted_df = Ok Sample.final
  /\ (forall a, In a (rank_one (rm_ranked (rm_final2 Sample.final))) ->
                In a Sample.final /\ passes a).
Proof.
  assert (H : assignments Sample.overlap_ratio Sample.order_df Sample.rm_df
                Sample.extracted_df = Ok Sample.final)
    by (vm_compute; reflexivity).
  split; [exact H|].
  exact (proj1 (proj2 (C3_export_passes_quality_filter _ _ _ _ _ H))).
Defined.

(** C2. In every group of filtered assignments that share an entity
    code, the selected row [w] is the only selected row of that code
    and: when some manufacture date is known, [w] has a known
    manufacture date that none of the group exceeds; otherwise, when
    some expiry date is known, [w] has a known expiry date that none of
    the group exceeds; otherwise [w] is the first row of the group. *)
Theorem C2_most_recent_record_selected :
  forall (token_set_ratio : string -> string -> Z) (order_df : list order_row)
         (rm_df : list item) (docs : list document) (final : list assignment),
    assignments token_set_ratio order_df rm_df docs = Ok final ->
    (forall out,
       process_validation token_set_ratio order_df rm_df docs = Ok out <->
       rm_ranked (rm_final2 final) <> []
       /\ out = map to_export (rank_one (rm_ranked (rm_final2 final))))
    /\ forall a0 c,
         In a0 (rm_final2 final) -> rm_id_final a0 = Some c ->
         let group := group_of String.eqb rm_id_final c (rm_final2 final) in
         exists w,
           In w (rank_one (rm_ranked (rm_final2 final)))
           /\ In w group
           /\ (forall w', In w' (rank_one (rm_ranked (rm_final2 final))) ->
                          rm_id_final w' = Some c -> w' = w)
           /\ ((exists x, In x group /\ a_manufacture_date x <> None) ->
               a_manufacture_date w <> None
               /\ forall x, In x group ->
                    date_le (a_manufacture_date x) (a_manufacture_date w))
           /\ ((forall x, In x group -> a_manufacture_date x = None) ->
               (exists x, In x group /\ a_expiry_date x <> None) ->
               a_expiry_date w <> None
               /\ forall x, In x group ->
                    date_le (a_expiry_date x) (a_expiry_date w))
           /\ ((forall x, In x group ->
                  a_manufacture_date x = None /\ a_expiry_date x = None) ->
               hd_error group = Some w).
Proof.
  intros ratio order rm docs final Hf.
  split; [apply process_validation_export; exact Hf|].
  intros a0 c Ha0 Hc group.
  assert (Hk : In c (group_keys String.eqb String.ltb rm_id_final (rm_final2 final))).
  { apply (group_keys_In String.eqb string_eqb_eq). exists a0. split; assumption. }
  destruct (custom_rank_winner a_manufacture_date a_expiry_date group
              (group_nonempty _ c Hk)) as [w [Hw [Hin [Hm [He Hfirst]]]]].
  exists w.
  assert (Hsel : In w (rank_one (rm_ranked (rm_final2 final)))).
  { apply rank_one_In. exists c. split; [exact Hk|exact Hw]. }
  split; [exact Hsel|]. split; [exact Hin|].
  split; [|split; [exact Hm|split; [exact He|exact Hfirst]]].
  intros w' Hw' Hc'.
  apply (NoDup_map_eq rm_id_final (rank_one (rm_ranked (rm_final2 final))));
    auto using rank_one_codes_NoDup.
  rewrite Hc'. symmetry.
  apply (group_of_In String.eqb string_eqb_eq) in Hin. tauto.
Qed.

Lemma C2_most_recent_record_selected_witness :
  assignments Sample.overlap_ratio Sample.order_df Sample.rm_df
    Sample.extracted_df = Ok Sample.final
  /\ In (Sample.nth_assignment 1) (rm_final2 Sample.final)
  /\ rm_id_final (Sample.nth_assignment 1) = Some "RM-100"
  /\ exists w,
       In w (rank_one (rm_ranked (rm_final2 Sample.final)))
       /\ a_manufacture_date w <> None
       /\ date_le (a_manufacture_date (Sample.nth_assignment 1))
            (a_manufacture_date w).
Proof.
  assert (H : assignments Sample.overlap_ratio Sample.order_df Sample.rm_df
                Sample.extracted_df = Ok Sample.final)
    by (vm_compute; reflexivity).
  assert (H1 : In (Sample.nth_assignment 1) (rm_final2 Sample.final))
    by (vm_compute; right; left; reflexivity).
  assert (H2 : rm_id_final (Sample.nth_assignment 1) = Some "RM-100")
    by reflexivity.
  split; [exact H|]. split; [exact H1|]. split; [exact H2|].
  destruct (proj2 (C2_most_recent_record_selected _ _ _ _ _ H) _ _ H1 H2)
    as [w [Hsel [Hin [_ [Hm _]]]]].
  exists w. split; [exact Hsel|].
  assert (Hex : exists x,
             In x (group_of String.eqb rm_id_final "RM-100"
                     (rm_final2 Sample.final))
             /\ a_manufacture_date x <> None).
  { exists (Sample.nth_assignment 1). split.
    - vm_compute. right. left. reflexivity.
    - vm_compute. discriminate. }
  destruct (Hm Hex) as [Hk Hmax]. split; [exact Hk|].
  apply Hmax. vm_compute. right. left. reflexivity.
Defined.

(** ** The number pattern *)

Lemma star_loop_cls (ic : bool) (p : ascii -> bool) (k : cont) (s : string) :
  forall (n : nat) (prev : option ascii),
    (String.length s <= n)%nat ->
    star_loop (run ic (Cls p)) k n prev s = greedy p prev s k.
Proof.
  induction s as [|c s IH]; intros n prev Hn.
  - destruct n; reflexivity.
  - destruct n as [|n]; [simpl in Hn; lia|].
    simpl. destruct (p c); [|reflexivity].
    assert (L : (String.length s <? S (String.length s))%nat = true)
      by (apply Nat.ltb_lt; lia).
    rewrite L. rewrite IH by (simpl in Hn; lia). reflexivity.
Qed.

Lemma run_star_cls (ic : bool) (p : ascii -> bool) (prev : option ascii)
  (s : string) (k : cont) :
  run ic (Star (Cls p)) prev s k = greedy p prev s k.
Proof.
  change (star_loop (run ic (Cls p)) k (String.length s) prev s
          = greedy p prev s k).
  apply star_loop_cls. apply Nat.le_refl.
Qed.

Lemma greedy_total (p : ascii -> bool) (prev : option ascii) (s : string) :
  greedy p prev s (fun _ rest => Some rest) = Some (drop_while p s).
Proof.
  revert prev. induction s as [|c s IH]; intros prev; simpl; [reflexivity|].
  destruct (p c); [|reflexivity]. rewrite IH. reflexivity.
Qed.

Lemma drop_while_head (p : ascii -> bool) (s : string) :
  starts_with p (drop_while p s) = false.
Proof.
  induction s as [|c s IH]; simpl; [reflexivity|].
  destruct (p c) eqn:E; [exact IH|]. simpl. exact E.
Qed.

Lemma drop_while_not (p : ascii -> bool) (s : string) :
  starts_with p s = false -> drop_while p s = s.
Proof.
  destruct s as [|c s]; simpl; [reflexivity|]. intros ->. reflexivity.
Qed.

(** [\d+], then nothing more: the text after the digits. *)
Lemma run_plus_digit (prev : option ascii) (s : string) :
  run false (Plus digit) prev s (fun _ rest => Some rest)
  = if starts_with is_digit s then Some (drop_while is_digit s) else None.
Proof.
  unfold Plus, digit. cbn [run].
  destruct s as [|c s]; [reflexivity|]. cbn [starts_with drop_while].
  destruct (is_digit c); [|reflexivity].
  fold (run false (Star (Cls is_digit)) (Some c) s (fun _ rest => Some rest)).
  rewrite run_star_cls. apply greedy_total.
Qed.

Lemma dot_is_no_digit (c : ascii) : is_digit c = true -> Ascii.eqb "." c = false.
Proof.
  intros H. destruct (Ascii.eqb_spec "."%char c) as [<-|]; [|reflexivity].
  discriminate.
Qed.

(** [\.?\d+], then nothing more. *)
Lemma run_fraction (prev : option ascii) (s : string) :
  run false (Cat (Opt (Lit ".")) (Plus digit)) prev s (fun _ rest => Some rest)
  = match s with
    | String c s' =>
        if Ascii.eqb c "." && starts_with is_digit s'
        then Some (drop_while is_digit s')
        else if is_digit c then Some (drop_while is_digit s') else None
    | EmptyString => None
    end.
Proof.
  unfold Opt. cbn [run].
  destruct s as [|c s].
  - rewrite run_plus_digit. reflexivity.
  - unfold lit_eq. rewrite Ascii.eqb_sym.
    destruct (Ascii.eqb c ".") eqn:Ec; cbn [andb].
    + rewrite run_plus_digit.
      destruct (starts_with is_digit s) eqn:Es; [reflexivity|].
      rewrite run_plus_digit. cbn [starts_with drop_while].
      apply Ascii.eqb_eq in Ec. subst c. reflexivity.
    + rewrite run_plus_digit. cbn [starts_with drop_while].
      destruct (is_digit c); reflexivity.
Qed.

(** The number pattern at a position reads the number as the hand
    reader does. *)
Lemma run_number (prev : option ascii) (s : string) :
  run false NUMBER prev s (fun _ rest => Some rest) = number_end s.
Proof.
  change (run false (Star (Cls is_digit)) prev s
            (fun p' s' => run false (Cat (Opt (Lit ".")) (Plus digit)) p' s'
                            (fun _ rest => Some rest))
          = number_end s).
  rewrite run_star_cls.
  revert prev. induction s as [|c s IH]; intros prev.
  - reflexivity.
  - cbn [greedy]. destruct (is_digit c) eqn:Ec.
    + rewrite IH. unfold number_end. cbn [drop_while starts_with].
      rewrite Ec.
      destruct (drop_while is_digit s) as [|x r] eqn:Er.
      * destruct (starts_with is_digit s) eqn:Es; [reflexivity|].
        rewrite run_fraction, Ec.
        rewrite (dot_is_no_digit c Ec) || rewrite Ascii.eqb_sym, (dot_is_no_digit c Ec).
        cbn [andb]. rewrite (drop_while_not _ _ Es) in *. rewrite Er. reflexivity.
      * destruct (Ascii.eqb x "." && starts_with is_digit r); [reflexivity|].
        destruct (starts_with is_digit s) eqn:Es; [reflexivity|].
        rewrite run_fraction, Ec.
        rewrite Ascii.eqb_sym, (dot_is_no_digit c Ec).
        cbn [andb]. rewrite (drop_while_not _ _ Es) in *. rewrite Er. reflexivity.
    + rewrite run_fraction. unfold number_end. cbn [drop_while starts_with].
      rewrite Ec.
      destruct (Ascii.eqb c "." && starts_with is_digit s); reflexivity.
Qed.

Lemma search_scan (ic : bool) (r : regex) (ending : string -> option string) :
  (forall prev s, run ic r prev s (fun _ rest => Some rest) = ending s) ->
  forall s, search ic r s = scan ending 0 s.
Proof.
  intros H s. unfold search. generalize 0%nat. generalize (@None ascii).
  induction s as [|c s IH]; intros prev i.
  - cbn [search_from scan]. unfold match_here. rewrite H.
    destruct (ending ""); reflexivity.
  - cbn [search_from scan]. unfold match_here. rewrite H.
    destruct (ending (String c s)); [reflexivity|]. apply IH.
Qed.

(** [re.search] with the number pattern finds the first number of the
    hand reader. *)
Lemma search_number (s : string) : search false NUMBER s = first_number s.
Proof. apply search_scan. apply run_number. Qed.

Lemma scan_none_shift (ending : string -> option string) (s : string) :
  forall i j, scan ending i s = None -> scan ending j s = None.
Proof.
  induction s as [|c s IH]; intros i j; cbn [scan].
  - destruct (ending ""); [discriminate|reflexivity].
  - destruct (ending (String c s)); [discriminate|]. apply IH.
Qed.

Lemma number_end_none (s : string) :
  number_end s = None -> starts_with is_digit s = false.
Proof.
  unfold number_end.
  destruct (drop_while is_digit s) as [|x r];
    [|destruct (Ascii.eqb x "." && starts_with is_digit r); [discriminate|]];
    destruct (starts_with is_digit s); congruence.
Qed.

Lemma scan_number_none (s : string) (i : nat) :
  scan number_end i s = None <-> existsb_string is_digit s = false.
Proof.
  revert i. induction s as [|c s IH]; intros i.
  - split; reflexivity.
  - cbn [scan existsb_string]. split.
    + intros H.
      destruct (number_end (String c s)) eqn:E; [discriminate|].
      apply number_end_none in E. cbn [starts_with] in E. rewrite E.
      apply (IH (S i)). exact H.
    + intros H. apply orb_false_iff in H. destruct H as [Hc Hs].
      assert (E : number_end (String c s) = None).
      { unfold number_end. cbn [drop_while starts_with]. rewrite Hc.
        destruct s as [|x r]; [rewrite andb_false_r; reflexivity|].
        cbn [starts_with]. cbn [existsb_string] in Hs.
        apply orb_false_iff in Hs. rewrite (proj1 Hs), andb_false_r.
        reflexivity. }
      rewrite E. apply IH. exact Hs.
Qed.

(** A text holds a number exactly when it holds a digit. *)
Lemma search_number_none (s : string) :
  group (search false NUMBER s) = None <-> existsb_string is_digit s = false.
Proof.
  rewrite search_number. unfold first_number.
  rewrite <- (scan_number_none s 0). unfold group.
  destruct (scan number_end 0 s); simpl; split; congruence.
Qed.

(** ** The number pattern with its unit *)

Lemma greedy_commit (p : ascii -> bool) (k : cont) :
  (forall q t, starts_with p t = true -> k q t = None) ->
  (forall q q' t, k q t = k q' t) ->
  forall prev s, greedy p prev s k = k prev (drop_while p s).
Proof.
  intros Hfail Hprev prev s. revert prev.
  induction s as [|c s IH]; intros prev; cbn [greedy drop_while]; [reflexivity|].
  destruct (p c) eqn:Ec; [|reflexivity].
  rewrite IH. rewrite (Hprev (Some c) prev).
  destruct (k prev (drop_while p s)) eqn:E; [reflexivity|].
  apply Hfail. exact Ec.
Qed.

Lemma space_is_no_c (x : ascii) : is_space x = true -> lit_eq true "c" x = false.
Proof.
  destruct x as [[] [] [] [] [] [] [] []]; vm_compute; congruence.
Qed.

Lemma digit_is_no_c (x : ascii) : is_digit x = true -> lit_eq true "c" x = false.
Proof.
  destruct x as [[] [] [] [] [] [] [] []]; vm_compute; congruence.
Qed.

Lemma digit_is_no_space (x : ascii) : is_digit x = true -> is_space x = false.
Proof.
  destruct x as [[] [] [] [] [] [] [] []]; vm_compute; congruence.
Qed.

Lemma run_lit_cfu (prev : option ascii) (s : string) :
  run true (lit "cfu") prev s (fun _ rest => Some rest)
  = match s with
    | String a (String b (String c rest)) =>
        if lit_eq true "c" a && lit_eq true "f" b && lit_eq true "u" c
        then Some rest else None
    | _ => None
    end.
Proof.
  destruct s as [|a [|b [|c rest]]]; cbn [lit run]; try reflexivity.
  - destruct (lit_eq true "c" a); reflexivity.
  - destruct (lit_eq true "c" a); [|reflexivity].
    destruct (lit_eq true "f" b); reflexivity.
  - destruct (lit_eq true "c" a); [|reflexivity].
    destruct (lit_eq true "f" b); [|reflexivity].
    destruct (lit_eq true "u" c); reflexivity.
Qed.

(** [(?=\s*cfu)] *)
Lemma run_ahead_cfu (prev : option ascii) (s : string) :
  run true (Ahead (Cat (Star space) (lit "cfu"))) prev s (fun _ rest => Some rest)
  = if cfu_follows s then Some s else None.
Proof.
  change (match run true (Star (Cls is_space)) prev s
                  (fun p' s' => run true (lit "cfu") p' s' (fun _ rest => Some rest))
          with
          | Some _ => Some s
          | None => None
          end = if cfu_follows s then Some s else None).
  rewrite run_star_cls, greedy_commit.
  - rewrite run_lit_cfu. unfold cfu_follows.
    destruct (drop_while is_space s) as [|a [|b [|c rest]]]; try reflexivity.
    destruct (lit_eq true "c" a && lit_eq true "f" b && lit_eq true "u" c);
      reflexivity.
  - intros q t Ht. rewrite run_lit_cfu.
    destruct t as [|a [|b [|c rest]]]; try reflexivity.
    cbn [starts_with] in Ht. rewrite (space_is_no_c a Ht). reflexivity.
  - intros q q' t. rewrite !run_lit_cfu. reflexivity.
Qed.

Lemma cfu_follows_digit (t : string) :
  starts_with is_digit t = true -> cfu_follows t = false.
Proof.
  destruct t as [|a t]; [discriminate|]. cbn [starts_with]. intros Ha.
  unfold cfu_follows. cbn [drop_while]. rewrite (digit_is_no_space a Ha).
  destruct t as [|b [|c rest]]; try reflexivity.
  rewrite (digit_is_no_c a Ha). reflexivity.
Qed.

(** [\d+(?=\s*cfu)] *)
Lemma run_digits_cfu (prev : option ascii) (s : string) :
  run true (Cat (Plus digit) (Ahead (Cat (Star space) (lit "cfu")))) prev s
    (fun _ rest => Some rest)
  = if starts_with is_digit s && cfu_follows (drop_while is_digit s)
    then Some (drop_while is_digit s) else None.
Proof.
  destruct s as [|c s]; [reflexivity|].
  change ((if is_digit c
           then run true (Star (Cls is_digit)) (Some c) s
                  (fun p' s' =>
                     run true (Ahead (Cat (Star space) (lit "cfu"))) p' s'
                       (fun _ rest => Some rest))
           else None)
          = if starts_with is_digit (String c s)
               && cfu_follows (drop_while is_digit (String c s))
            then Some (drop_while is_digit (String c s)) else None).
  cbn [starts_with drop_while].
  destruct (is_digit c); [|reflexivity]. cbn [andb].
  rewrite run_star_cls, greedy_commit.
  - rewrite run_ahead_cfu.
    destruct (cfu_follows (drop_while is_digit s)); reflexivity.
  - intros q t Ht. rewrite run_ahead_cfu, (cfu_follows_digit t Ht). reflexivity.
  - intros q q' t. rewrite !run_ahead_cfu. reflexivity.
Qed.

(** [\.?\d+(?=\s*cfu)] *)
Lemma run_fraction_cfu (prev : option ascii) (s : string) :
  run true
    (Cat (Opt (Lit "."))
       (Cat (Plus digit) (Ahead (Cat (Star space) (lit "cfu")))))
    prev s (fun _ rest => Some rest)
  = match s with
    | String c s' =>
        if Ascii.eqb c "." && starts_with is_digit s'
           && cfu_follows (drop_while is_digit s')
        then Some (drop_while is_digit s')
        else if is_digit c && cfu_follows (drop_while is_digit s')
             then Some (drop_while is_digit s') else None
    | EmptyString => None
    end.
Proof.
  destruct s as [|c s].
  - change (match run true (Lit ".") prev ""
                    (fun p' s' =>
                       run true (Cat (Plus digit)
                                   (Ahead (Cat (Star space) (lit "cfu"))))
                         p' s' (fun _ rest => Some rest)) with
            | Some t => Some t
            | None =>
                run true (Cat (Plus digit) (Ahead (Cat (Star space) (lit "cfu"))))
                  prev "" (fun _ rest => Some rest)
            end = None).
    reflexivity.
  - change (match (if lit_eq true "." c
                   then run true (Cat (Plus digit)
                                    (Ahead (Cat (Star space) (lit "cfu"))))
                          (Some c) s (fun _ rest => Some rest)
                   else None) with
            | Some t => Some t
            | None =>
                run true (Cat (Plus digit) (Ahead (Cat (Star space) (lit "cfu"))))
                  prev (String c s) (fun _ rest => Some rest)
            end
            = if Ascii.eqb c "." && starts_with is_digit s
                 && cfu_follows (drop_while is_digit s)
              then Some (drop_while is_digit s)
              else if is_digit c && cfu_follows (drop_while is_digit s)
                   then Some (drop_while is_digit s) else None).
    rewrite !run_digits_cfu. cbn [starts_with drop_while].
    destruct (Ascii.eqb_spec c ".") as [->|Hc].
    + change (lit_eq true "." ".") with true. cbn [andb].
      destruct (starts_with is_digit s && cfu_follows (drop_while is_digit s));
        reflexivity.
    + assert (E : lit_eq true "." c = false).
      { destruct c as [[] [] [] [] [] [] [] []]; try reflexivity.
        exfalso. apply Hc. reflexivity. }
      rewrite E. cbn [andb].
      destruct (is_digit c); reflexivity.
Qed.

(** The pattern with the unit reads the number as the hand reader
    does. *)
Lemma run_number_cfu (prev : option ascii) (s : string) :
  run true NUMBER_CFU prev s (fun _ rest => Some rest) = number_cfu_end s.
Proof.
  change (run true (Star (Cls is_digit)) prev s
            (fun p' s' =>
               run true
                 (Cat (Opt (Lit "."))
                    (Cat (Plus digit) (Ahead (Cat (Star space) (lit "cfu")))))
                 p' s' (fun _ rest => Some rest))
          = number_cfu_end s).
  rewrite run_star_cls.
  revert prev. induction s as [|c s IH]; intros prev.
  - reflexivity.
  - cbn [greedy]. destruct (is_digit c) eqn:Ec.
    + rewrite IH, run_fraction_cfu, Ec.
      assert (Edot : Ascii.eqb c "." = false)
        by (rewrite Ascii.eqb_sym; apply dot_is_no_digit; exact Ec).
      rewrite Edot. cbn [andb].
      unfold number_cfu_end. cbn [drop_while starts_with]. rewrite Ec.
      cbn [andb].
      destruct (drop_while is_digit s) as [|x r] eqn:Er.
      * reflexivity.
      * destruct (Ascii.eqb x "." && starts_with is_digit r
                  && cfu_follows (drop_while is_digit r)); [reflexivity|].
        destruct (starts_with is_digit s && cfu_follows (String x r)) eqn:E2.
        -- apply andb_true_iff in E2. rewrite (proj2 E2). reflexivity.
        -- reflexivity.
    + rewrite run_fraction_cfu, Ec. cbn [andb].
      unfold number_cfu_end. cbn [drop_while starts_with]. rewrite Ec.
      cbn [andb].
      destruct (Ascii.eqb c "." && starts_with is_digit s
                && cfu_follows (drop_while is_digit s)); reflexivity.
Qed.

(** [re.search] with the unit pattern finds the first number before
    ["cfu"] of the hand reader. *)
Lemma search_number_cfu (s : string) :
  search true NUMBER_CFU s = first_number_cfu s.
Proof. apply search_scan. apply run_number_cfu. Qed.

(** ** Whole words *)

Lemma run_lit (w : string) (k : cont) :
  forall (prev : option ascii) (s : string),
    run false (lit w) prev s k
    = match strip_prefix w s with
      | Some rest => k (last_char prev w) rest
      | None => None
      end.
Proof.
  induction w as [|a w IH]; intros prev s; [reflexivity|].
  change (run false (Lit a) prev s (fun p' s' => run false (lit w) p' s' k)
          = match strip_prefix (String a w) s with
            | Some rest => k (last_char prev (String a w)) rest
            | None => None
            end).
  destruct s as [|b s]; [reflexivity|].
  cbn [run strip_prefix last_char]. unfold lit_eq.
  destruct (Ascii.eqb_spec a b) as [->|]; [|reflexivity].
  apply IH.
Qed.

Lemma existsb_same {A : Type} (f g : A -> bool) (l : list A) :
  (forall x, f x = g x) -> existsb f l = existsb g l.
Proof.
  intros H. induction l as [|x l IH]; simpl; [reflexivity|].
  rewrite H, IH. reflexivity.
Qed.

Lemma existsb_never {A : Type} (l : list A) :
  existsb (fun _ : A => false) l = false.
Proof. induction l as [|x l IH]; simpl; [reflexivity|exact IH]. Qed.

Lemma run_alts_lit (ws : list string) (k : cont) (prev : option ascii)
  (s : string) :
  is_some (run false (alts (map lit ws)) prev s k)
  = existsb (fun w => match strip_prefix w s with
                      | Some rest => is_some (k (last_char prev w) rest)
                      | None => false
                      end) ws.
Proof.
  induction ws as [|w ws IH].
  - destruct s; reflexivity.
  - destruct ws as [|w' ws].
    + cbn [map alts existsb]. rewrite run_lit, orb_false_r.
      destruct (strip_prefix w s); reflexivity.
    + change (is_some
                (match run false (lit w) prev s k with
                 | Some t => Some t
                 | None => run false (alts (map lit (w' :: ws))) prev s k
                 end)
              = existsb (fun w0 => match strip_prefix w0 s with
                                   | Some rest => is_some (k (last_char prev w0) rest)
                                   | None => false
                                   end) (w :: w' :: ws)).
      cbn [existsb] in *. rewrite <- IH, run_lit.
      destruct (strip_prefix w s) as [rest|]; [|reflexivity].
      destruct (k (last_char prev w) rest); reflexivity.
Qed.

Lemma match_whole_word (ws : list string) (prev : option ascii) (s : string) :
  is_some (match_here false (whole_word (alts (map lit ws))) prev s)
  = existsb (word_here prev s) ws.
Proof.
  unfold match_here.
  change (is_some
            (match (if xorb (word_opt prev) (word_opt (peek s))
                    then run false (alts (map lit ws)) prev s
                           (fun p' s' =>
                              if xorb (word_opt p') (word_opt (peek s'))
                              then Some s' else None)
                    else None) with
             | Some rest =>
                 Some (substring 0 (String.length s - String.length rest) s)
             | None => None
             end)
          = existsb (word_here prev s) ws).
  unfold word_here, boundary.
  destruct (xorb (word_opt prev) (word_opt (peek s))).
  - cbn [andb].
    transitivity
      (is_some (run false (alts (map lit ws)) prev s
                  (fun p' s' =>
                     if xorb (word_opt p') (word_opt (peek s'))
                     then Some s' else None))).
    + destruct (run false (alts (map lit ws)) prev s _); reflexivity.
    + rewrite run_alts_lit. apply existsb_same. intros w.
      destruct (strip_prefix w s) as [rest|]; [|reflexivity].
      destruct (xorb (word_opt (last_char prev w)) (word_opt (peek rest)));
        reflexivity.
  - cbn [andb is_some]. symmetry. apply existsb_never.
Qed.

(** [re.search] with a whole-word pattern over a list of words finds
    what the hand reader finds. *)
Lemma found_whole_word (ws : list string) (s : string) :
  found false (whole_word (alts (map lit ws))) s = contains_word ws None s.
Proof.
  unfold found, search. generalize 0%nat. generalize (@None ascii).
  induction s as [|c s IH]; intros prev i.
  - cbn [search_from contains_word].
    rewrite <- match_whole_word, orb_false_r.
    destruct (match_here false (whole_word (alts (map lit ws))) prev "");
      reflexivity.
  - cbn [search_from contains_word].
    rewrite <- match_whole_word.
    destruct (match_here false (whole_word (alts (map lit ws))) prev (String c s));
      [reflexivity|].
    apply IH.
Qed.

(** ** Test-result extraction *)

Lemma first_entry_found (pattern : string -> bool)
  (earlier later : list test_entry) (item : test_entry) (label : string) :
  unmatched pattern earlier ->
  get (test item) "" = Some label ->
  pattern label = true ->
  first_entry pattern (earlier ++ item :: later) = Ok (Some item).
Proof.
  intros Hu Hl Hp. induction Hu as [|e earlier [s [Hs Hn]] _ IH]; simpl.
  - rewrite Hl. simpl. rewrite Hp. reflexivity.
  - rewrite Hs. simpl. rewrite Hn. exact IH.
Qed.




Lemma first_entry_set_limits (pattern : string -> bool)
  (f : test_entry -> jfield) (entries : list test_entry) :
  first_entry pattern
    (map (fun e => mk_entry (test e) (unit_ e) (f e) (method e) (result e))
       entries)
  = match first_entry pattern entries with
    | Ok (Some e) =>
        Ok (Some (mk_entry (test e) (unit_ e) (f e) (method e) (result e)))
    | Ok None => Ok None
    | Raise => Raise
    end.
Proof.
  induction entries as [|e entries IH]; simpl; [reflexivity|].
  destruct (get (test e) "") as [s|]; simpl; [|reflexivity].
  destruct (pattern s); [reflexivity|exact IH].
Qed.

(** C5, as the code has it. For a microbial category the limit field
    is not read: replacing every limit leaves the value unchanged, and
    the value of the first matching entry is the number that stands
    before ["cfu"] in its result if there is one, else 0.0 if the
    lowercased result holds a negative marker, else no value. *)
Theorem C5_micro_value_from_result_only :
  (forall (data : envelope) (key : micro_key) (f : test_entry -> jfield),
      extract_micro_info (set_limits f data) key = extract_micro_info data key)
  /\ (forall (data : envelope) (key : micro_key)
             (earlier later : list test_entry) (item : test_entry)
             (label : string),
         test_results data = earlier ++ item :: later ->
         unmatched (COMPILED_MICRO key) earlier ->
         get (test item) "" = Some label ->
         COMPILED_MICRO key label = true ->
         let res := or_empty (get (result item) "") in
         extract_micro_info data key
         = Ok (match group (first_number_cfu res) with
               | Some m => Some (float m)
               | None =>
                   if contains_word MICRO_MARKERS None (lower res)
                   then Some 0%Q else None
               end)).
Proof.
  split.
  - intros data key f. unfold extract_micro_info, set_limits. simpl.
    rewrite first_entry_set_limits.
    destruct (first_entry (COMPILED_MICRO key) (test_results data))
      as [[e|]|]; reflexivity.
  - intros data key earlier later item label Hd Hu Hl Hp res.
    unfold extract_micro_info.
    rewrite Hd, (first_entry_found _ _ _ _ _ Hu Hl Hp). simpl.
    fold res. rewrite search_number_cfu.
    destruct (group (first_number_cfu res)); [reflexivity|].
    unfold MICRO_NEGATIVE. rewrite found_whole_word.
    destruct (contains_word MICRO_MARKERS None (lower res)); reflexivity.
Qed.

Lemma C5_micro_value_from_result_only_witness :
  extract_micro_info Sample.coli_data e_coli = Ok (Some 0%Q).
Proof.
  apply (proj2 C5_micro_value_from_result_only Sample.coli_data e_coli
           [Sample.entry "Lead" "<0.5 ppm" "2 ppm"] []
           (Sample.entry "E. coli" "Absent" "10 cfu/g") "E. coli").
  - reflexivity.
  - constructor; [|constructor]. exists "Lead". split; reflexivity.
  - reflexivity.
  - reflexivity.
Defined.

(** The claim C5 fails: the first matching entry for [e_coli] has a
    result without a number and a limit whose first number is 10, and
    the value is 0.0, not 10. *)
Lemma C5_limit_is_not_read :
  first_entry (COMPILED_MICRO e_coli) (test_results Sample.coli_data)
  = Ok (Some (Sample.entry "E. coli" "Absent" "10 cfu/g"))
  /\ group (search false NUMBER "Absent") = None
  /\ group (search true NUMBER_CFU "Absent") = None
  /\ group (search false NUMBER "10 cfu/g") = Some "10"
  /\ extract_micro_info Sample.coli_data e_coli <> Ok (Some (float "10")).
Proof.
  repeat split; try reflexivity.
  vm_compute. discriminate.
Qed.

(** The examples of the specification. *)

Example chem_result_before_limit :
  extract_chem_info (Sample.tests_only [Sample.entry "Lead" "2.3 ppm" "5 ppm"])
    lead_ppm = Ok (Some (23 # 10)%Q).
Proof. reflexivity. Qed.

Example chem_not_detected :
  extract_chem_info (Sample.tests_only [Sample.entry "Lead" "Not Detected" ""])
    lead_ppm = Ok (Some 0%Q).
Proof. reflexivity. Qed.

Example chem_no_value :
  extract_chem_info (Sample.tests_only [Sample.entry "Lead" "pending" "n/a"])
    lead_ppm = Ok None.
Proof. reflexivity. Qed.

Example chem_limit_before_marker :
  extract_chem_info (Sample.tests_only [Sample.entry "Lead" "Not Detected" "<10 ppm"])
    lead_ppm = Ok (Some (10 # 1)%Q).
Proof. reflexivity. Qed.

Example micro_number_before_cfu :
  extract_micro_info
    (Sample.tests_only [Sample.entry "Staph. aureus" "<10 CFU/g" "100 cfu/g"])
    staphylococcus_aureus = Ok (Some (10 # 1)%Q).
Proof. reflexivity. Qed.

Example micro_number_without_cfu :
  extract_micro_info
    (Sample.tests_only [Sample.entry "Salmonella" "0" "Negative in 25 g"])
    salmonella = Ok None.
Proof. reflexivity. Qed.

(** A [null] result or limit makes [re.search] raise inside
    [extract_chem_info]; [extract_field] then gives no value.  The
    microbial extractor reads a [null] result as the empty text. *)
Example chem_null_result :
  extract_field
    (JsonText (PyDict (Sample.tests_only
       [mk_entry (Text "Lead") Absent (Text "5 ppm") Absent Null])))
    lead_ppm extract_chem_info = None.
Proof. reflexivity. Qed.

Example micro_null_result :
  extract_micro_info
    (Sample.tests_only [mk_entry (Text "Salmonella") Absent Absent Absent Null])
    salmonella = Ok None.
Proof. reflexivity. Qed.

(** ** The fallback match *)

Section BestMatch.

Variable token_set_ratio : string -> string -> Z.
Variable product_name : string.

Let score (row : item) : Z :=
  token_set_ratio product_name (str_text (Description row)).

(** The state of the loop after the rows [l], from the state
    [(best_score, best_row)]: either untouched, no row of [l] scoring
    above [best_score], or holding the first row of greatest score. *)
Lemma best_step_fold (l : list item) (best_score : Z) (best_row : option item) :
  (fold_left (best_step token_set_ratio product_name) l (best_score, best_row)
   = (best_score, best_row)
   /\ forall x, In x l -> score x <= best_score)
  \/ exists before row after,
       l = before ++ row :: after
       /\ fold_left (best_step token_set_ratio product_name) l
            (best_score, best_row) = (score row, Some row)
       /\ best_score < score row
       /\ (forall x, In x before -> score x < score row)
       /\ (forall x, In x after -> score x <= score row).
Proof.
  revert best_score best_row.
  induction l as [|x l IH]; intros bs br; simpl.
  - left. split; [reflexivity|]. intros x [].
  - fold (score x). destruct (Z.gtb_spec (score x) bs) as [Hgt|Hle].
    + right. destruct (IH (score x) (Some x)) as [[E Hall]|
        [before [row [after [El [E [Hlt [Hb Ha]]]]]]]].
      * exists [], x, l. repeat split; auto. intros y [].
      * exists (x :: before), row, after. subst l.
        repeat split; auto; try lia.
        intros y [<-|Hy]; [exact Hlt|apply Hb; exact Hy].
    + destruct (IH bs br) as [[E Hall]|
        [before [row [after [El [E [Hlt [Hb Ha]]]]]]]].
      * left. split; [exact E|]. intros y [<-|Hy]; [exact Hle|apply Hall; exact Hy].
      * right. exists (x :: before), row, after. subst l.
        repeat split; auto.
        intros y [<-|Hy]; [lia|apply Hb; exact Hy].
Qed.

End BestMatch.

(** C6. On a non-empty catalog the fallback returns the entry whose
    similarity to the product name is greatest; among entries of that
    greatest similarity, the first listed: every earlier entry scores
    strictly less, no later entry scores more. *)
Theorem C6_best_match_first_greatest :
  forall (token_set_ratio : string -> string -> Z) (product_name : string)
         (rm_df : list item),
    rm_df <> [] ->
    (forall row, In row rm_df ->
       0 <= token_set_ratio product_name (str_text (Description row))) ->
    exists before row after,
      rm_df = before ++ row :: after
      /\ find_best_match token_set_ratio product_name rm_df
         = mk_best (Part_Number row) (Description row)
             (token_set_ratio product_name (str_text (Description row)))
      /\ (forall x, In x before ->
            token_set_ratio product_name (str_text (Description x))
            < token_set_ratio product_name (str_text (Description row)))
      /\ (forall x, In x after ->
            token_set_ratio product_name (str_text (Description x))
            <= token_set_ratio product_name (str_text (Description row))).
Proof.
  intros ratio name rm_df Hne Hpos.
  destruct (best_step_fold ratio name rm_df (-1) None)
    as [[E Hall]|[before [row [after [El [E [Hlt [Hb Ha]]]]]]]].
  - exfalso. destruct rm_df as [|x l]; [contradiction|].
    specialize (Hall x (or_introl eq_refl)).
    specialize (Hpos x (or_introl eq_refl)). lia.
  - exists before, row, after. split; [exact El|].
    split; [|split; assumption].
    unfold find_best_match. rewrite E. reflexivity.
Qed.

Lemma C6_best_match_first_greatest_witness :
  exists before row after,
    Sample.rm_df = before ++ row :: after
    /\ find_best_match Sample.overlap_ratio "ginger extract" Sample.rm_df
       = mk_best (Part_Number row) (Description row)
           (Sample.overlap_ratio "ginger extract" (str_text (Description row)))
    /\ (forall x, In x before ->
          Sample.overlap_ratio "ginger extract" (str_text (Description x))
          < Sample.overlap_ratio "ginger extract" (str_text (Description row)))
    /\ (forall x, In x after ->
          Sample.overlap_ratio "ginger extract" (str_text (Description x))
          <= Sample.overlap_ratio "ginger extract" (str_text (Description row))).
Proof.
  apply (C6_best_match_first_greatest Sample.overlap_ratio "ginger extract"
           Sample.rm_df).
  - discriminate.
  - intros row H. vm_compute in H.
    destruct H as [<-|[<-|[<-|[]]]]; vm_compute; discriminate.
Defined.

(** ** Frames of the pipeline *)

Lemma mapM_In {A B : Type} (f : A -> py B) (l : list A) (l' : list B) :
  mapM f l = Ok l' -> forall y, In y l' -> exists x, In x l /\ f x = Ok y.
Proof.
  revert l'. induction l as [|x l IH]; simpl; intros l' H y Hy.
  - injection H as <-. contradiction.
  - destruct (f x) as [z|] eqn:Ex; simpl in H; [|discriminate].
    destruct (mapM f l) as [zs|]; simpl in H; [|discriminate].
    injection H as <-. destruct Hy as [<-|Hy].
    + exists x. split; [left; reflexivity|exact Ex].
    + destruct (IH zs eq_refl y Hy) as [x' [Hx' E]].
      exists x'. split; [right; exact Hx'|exact E].
Qed.


Lemma merge_left_In {A B : Type} (left_on : A -> string) (right_on : B -> string)
  (left : list A) (right : list B) (x : A * option B) :
  In x (merge_left left_on right_on left right) ->
  In (fst x) left
  /\ match snd x with
     | Some r => In r right /\ right_on r = left_on (fst x)
     | None => forall r, In r right -> right_on r <> left_on (fst x)
     end.
Proof.
  unfold merge_left. rewrite in_flat_map. intros [l [Hl Hx]].
  destruct (filter (fun r => String.eqb (right_on r) (left_on l)) right)
    as [|m ms] eqn:E.
  - destruct Hx as [<-|[]]. simpl. split; [exact Hl|].
    intros r Hr Heq.
    assert (Hin : In r (filter (fun r => String.eqb (right_on r) (left_on l)) right)).
    { apply filter_In. split; [exact Hr|]. apply String.eqb_eq. exact Heq. }
    rewrite E in Hin. exact Hin.
  - apply in_map_iff in Hx. destruct Hx as [r [<- Hr]]. simpl.
    split; [exact Hl|].
    rewrite <- E in Hr. apply filter_In in Hr. destruct Hr as [Hr Heq].
    split; [exact Hr|]. apply String.eqb_eq. exact Heq.
Qed.

Lemma merge_left_covers {A B : Type} (left_on : A -> string)
  (right_on : B -> string) (left : list A) (right : list B) (l : A) :
  In l left ->
  exists o, In (l, o) (merge_left left_on right_on left right).
Proof.
  intros Hl. unfold merge_left.
  destruct (filter (fun r => String.eqb (right_on r) (left_on l)) right)
    as [|m ms] eqn:E.
  - exists None. apply in_flat_map. exists l. split; [exact Hl|].
    rewrite E. left. reflexivity.
  - exists (Some m). apply in_flat_map. exists l. split; [exact Hl|].
    rewrite E. left. reflexivity.
Qed.

Lemma enumerate_map {A B : Type} (f : A -> B) (l : list A) :
  enumerate (map f l) = map (fun p => (fst p, f (snd p))) (enumerate l).
Proof.
  unfold enumerate. rewrite length_map. generalize 0%nat.
  induction l as [|x l IH]; intros k; simpl; [reflexivity|].
  f_equal. apply IH.
Qed.

Lemma fold_max_ge (l : list Z) (a : Z) :
  a <= fold_left Z.max l a /\ forall x, In x l -> x <= fold_left Z.max l a.
Proof.
  revert a. induction l as [|y l IH]; intros a; simpl.
  - split; [lia|]. intros x [].
  - destruct (IH (Z.max a y)) as [H1 H2]. split; [lia|].
    intros x [<-|Hx]; [lia|apply H2; exact Hx].
Qed.

Lemma fold_max_In (l : list Z) (a : Z) :
  fold_left Z.max l a = a \/ In (fold_left Z.max l a) l.
Proof.
  revert a. induction l as [|y l IH]; intros a; simpl; [left; reflexivity|].
  destruct (IH (Z.max a y)) as [H|H].
  - rewrite H. destruct (Z.max_spec a y) as [[_ E]|[_ E]]; rewrite E; auto.
  - right. right. exact H.
Qed.

Lemma maximum_ge (l : list Z) (x : Z) : In x l -> x <= maximum l.
Proof.
  destruct l as [|a l]; simpl; [contradiction|].
  intros [<-|H]; [apply (proj1 (fold_max_ge l _))|apply (proj2 (fold_max_ge l a)); exact H].
Qed.

Lemma maximum_In (l : list Z) : l <> [] -> In (maximum l) l.
Proof.
  destruct l as [|a l]; simpl; [contradiction|]. intros _.
  destruct (fold_max_In l a) as [H|H]; [left; symmetry; exact H|right; exact H].
Qed.

Lemma same_file_refl (m : merged_row) : same_file m m = true.
Proof. apply String.eqb_refl. Qed.

Section WinnerFacts.

Variable df3 : list (merged_row * option (grouped_row * best_match)).

Lemma with_ranks_In (r : ranked_row) :
  In r (with_ranks df3) <->
  exists i x,
    In (i, x) (enumerate df3)
    /\ r = mk_ranked (fst x) (snd x)
             (rank_first (enumerate (map fst df3)) i (fst x))
             (file_max (map fst df3) (fst x)).
Proof.
  unfold with_ranks. rewrite in_map_iff. split.
  - intros [[i x] [<- H]]. exists i, x. split; [exact H|reflexivity].
  - intros [i [x [H ->]]]. exists (i, x). split; [reflexivity|exact H].
Qed.

(** A row of rank 1: no row of its file is more similar. *)
Lemma winner_is_greatest (r : ranked_row) :
  In r (merged_extracted_df4 df3) ->
  In (merged r) (map fst df3)
  /\ (forall m, In m (map fst df3) -> same_file m (merged r) = true ->
                name_similarity m <= name_similarity (merged r))
  /\ max_name_similarity r = name_similarity (merged r).
Proof.
  unfold merged_extracted_df4. rewrite filter_In.
  intros [Hr H1]. apply with_ranks_In in Hr.
  destruct Hr as [i [x [Hx ->]]]. simpl in *.
  assert (Hin : In (fst x) (map fst df3)).
  { apply in_map. apply (enumerate_In_snd df3 (i, x)). exact Hx. }
  assert (Hle : forall m, In m (map fst df3) -> same_file m (fst x) = true ->
                          name_similarity m <= name_similarity (fst x)).
  { intros m Hm Hs. apply Nat.eqb_eq in H1. unfold rank_first in H1.
    try injection H1 as H1. apply length_zero_iff_nil in H1.
    destruct (In_enumerate _ m Hm) as [j Hj].
    pose proof (proj1 (filter_nil_iff _ _) H1 (j, m) Hj) as F.
    simpl in F. rewrite Hs in F. simpl in F.
    apply orb_false_iff in F. destruct F as [F _]. lia. }
  split; [exact Hin|]. split; [exact Hle|].
  unfold file_max. apply Z.le_antisymm.
  - assert (Hne : map name_similarity
                    (filter (fun r' => same_file r' (fst x)) (map fst df3)) <> []).
    { intros E. apply map_eq_nil in E.
      pose proof (proj1 (filter_nil_iff _ _) E (fst x) Hin) as F.
      cbv beta in F. rewrite same_file_refl in F. discriminate. }
    apply maximum_In in Hne. apply in_map_iff in Hne.
    destruct Hne as [m [<- Hm]]. apply filter_In in Hm.
    apply Hle; tauto.
  - apply maximum_ge. apply in_map. apply filter_In.
    split; [exact Hin|apply same_file_refl].
Qed.

End WinnerFacts.

Lemma pair_eqb_eq (x y : string * string) : pair_eqb x y = true <-> x = y.
Proof.
  destruct x as [a b], y as [c d]. unfold pair_eqb. simpl.
  rewrite andb_true_iff, !String.eqb_eq. split.
  - intros [-> ->]. reflexivity.
  - intros E. injection E as -> ->. split; reflexivity.
Qed.

Section StageFacts.

Variable token_set_ratio : string -> string -> Z.
Variable order_df : list order_row.
Variable rm_df : list item.

Lemma merged_extracted_df2_In (rows : list cand_row) (m : merged_row) :
  In m (merged_extracted_df2 token_set_ratio order_df rows) ->
  In (cand m) rows
  /\ name_similarity m = Z.max (name_similarity1 m) (name_similarity2 m).
Proof.
  unfold merged_extracted_df2. rewrite in_map_iff.
  intros [[[c o1] o2] [<- H]]. simpl. split; [|reflexivity].
  apply merge_left_In in H. destruct H as [H _]. simpl in H.
  unfold merged_extracted_df in H.
  apply merge_left_In in H. destruct H as [H _]. exact H.
Qed.

Lemma merged_extracted_df3_Ok (df : list merged_row)
  (df3 : list (merged_row * option (grouped_row * best_match))) :
  merged_extracted_df3 token_set_ratio rm_df df = Ok df3 <->
  unmatched_file df <> []
  /\ df3 = merge_left row_filename
             (fun u : grouped_row * best_match => g_filename (fst u)) df
             (unmatched_file_merged token_set_ratio rm_df df).
Proof.
  unfold merged_extracted_df3, unmatched_file_merged.
  destruct (unmatched_file df) as [|g gs]; cbn [map]; split.
  - discriminate.
  - intros [H _]. contradiction.
  - intros H. injection H as <-. split; [discriminate|reflexivity].
  - intros [_ ->]. reflexivity.
Qed.

Lemma merged_extracted_df3_rows (df : list merged_row)
  (df3 : list (merged_row * option (grouped_row * best_match)))
  (m : merged_row) :
  merged_extracted_df3 token_set_ratio rm_df df = Ok df3 ->
  In m (map fst df3) -> In m df.
Proof.
  intros H. apply merged_extracted_df3_Ok in H. destruct H as [_ ->].
  rewrite in_map_iff. intros [x [<- H]].
  apply merge_left_In in H. tauto.
Qed.

Lemma merged_extracted_df3_covers (df : list merged_row)
  (df3 : list (merged_row * option (grouped_row * best_match)))
  (m : merged_row) :
  merged_extracted_df3 token_set_ratio rm_df df = Ok df3 ->
  In m df -> In m (map fst df3).
Proof.
  intros H Hm. apply merged_extracted_df3_Ok in H. destruct H as [_ ->].
  destruct (merge_left_covers row_filename
              (fun u : grouped_row * best_match => g_filename (fst u))
              df (unmatched_file_merged token_set_ratio rm_df df) m Hm)
    as [o Ho].
  apply in_map_iff. exists (m, o). split; [reflexivity|exact Ho].
Qed.

(** What a run has passed when it has its winners: the candidate frame
    has a row, the [m_number] column holds a text, some file is
    unmatched. *)
Lemma winners_Ok (rows : list cand_row) (ws : list ranked_row) :
  winners token_set_ratio order_df rm_df rows = Ok ws <->
  rows <> []
  /\ has_str (map m_number rows) = true
  /\ exists df3,
       merged_extracted_df3 token_set_ratio rm_df
         (merged_extracted_df2 token_set_ratio order_df rows) = Ok df3
       /\ ws = merged_extracted_df4 df3.
Proof.
  unfold winners, extracted_df4, m_number_clean.
  destruct rows as [|c rows]; cbn [bind].
  - split; [discriminate|]. intros [H _]. contradiction.
  - destruct (has_str (map m_number (c :: rows))); cbn [bind].
    + destruct (merged_extracted_df3 token_set_ratio rm_df
                  (merged_extracted_df2 token_set_ratio order_df (c :: rows)))
        as [df3|]; cbn [bind]; split.
      * intros H. injection H as <-. split; [discriminate|].
        split; [reflexivity|]. exists df3. split; reflexivity.
      * intros [_ [_ [df3' [E ->]]]]. injection E as <-. reflexivity.
      * discriminate.
      * intros [_ [_ [df3' [E _]]]]. discriminate E.
    + split; [discriminate|]. intros [_ [H _]]. discriminate H.
Qed.

(** A winner heads its file, and its similarity is the greater of its
    two exact similarities. *)
Lemma winners_In (rows : list cand_row) (ws : list ranked_row)
  (r : ranked_row) :
  winners token_set_ratio order_df rm_df rows = Ok ws ->
  In r ws ->
  In (merged r) (merged_extracted_df2 token_set_ratio order_df rows)
  /\ In (cand (merged r)) rows
  /\ name_similarity (merged r)
     = Z.max (name_similarity1 (merged r)) (name_similarity2 (merged r))
  /\ max_name_similarity r = name_similarity (merged r)
  /\ forall m, In m (merged_extracted_df2 token_set_ratio order_df rows) ->
               row_filename m = row_filename (merged r) ->
               name_similarity m <= max_name_similarity r.
Proof.
  intros Hws H. apply winners_Ok in Hws.
  destruct Hws as [_ [_ [df3 [Hdf3 ->]]]].
  destruct (winner_is_greatest _ _ H) as [Hin [Hle Hmax]].
  apply (merged_extracted_df3_rows _ _ _ Hdf3) in Hin.
  destruct (merged_extracted_df2_In _ _ Hin) as [Hc Hs].
  split; [exact Hin|]. split; [exact Hc|]. split; [exact Hs|].
  split; [exact Hmax|].
  intros m Hm Hf. rewrite Hmax. apply Hle.
  - apply (merged_extracted_df3_covers _ _ _ Hdf3). exact Hm.
  - unfold same_file. apply String.eqb_eq. exact Hf.
Qed.

Lemma assignments_In (docs : list document) (final : list assignment)
  (a : assignment) :
  assignments token_set_ratio order_df rm_df docs = Ok final ->
  In a final ->
  exists rows ws,
    candidate_rows docs = Ok rows
    /\ winners token_set_ratio order_df rm_df rows = Ok ws
    /\ In (winner a) ws
    /\ rm_id_final a = final_id (winner a)
    /\ rm_name_final a = final_name (winner a)
    /\ name_similarity_final a = final_similarity (winner a)
    /\ extract_coa_sufficient_content (json_values (row_document (winner a)))
       = Ok (coa_sufficient_content a).
Proof.
  unfold assignments. intros H Ha.
  destruct (candidate_rows docs) as [rows|]; cbn [bind] in H; [|discriminate].
  destruct (winners token_set_ratio order_df rm_df rows) as [ws|] eqn:Ew;
    cbn [bind] in H; [|discriminate].
  exists rows, ws. split; [reflexivity|]. split; [exact Ew|].
  unfold rm_final in H.
  destruct (mapM_In _ _ _ H a Ha) as [r [Hr E]].
  destruct (extract_coa_sufficient_content (json_values (row_document r)))
    as [coa|] eqn:Ec; simpl in E; [|discriminate].
  injection E as <-. simpl. repeat split; try reflexivity; assumption.
Qed.

(** A winner of a file whose greatest similarity is 0 carries the
    fallback match of that file: the best catalog entry for the cleaned
    product name of a row of the file. *)
Lemma zero_file_has_fallback (rows : list cand_row) (ws : list ranked_row)
  (r : ranked_row) :
  winners token_set_ratio order_df rm_df rows = Ok ws ->
  In r ws ->
  max_name_similarity r = 0 ->
  exists g,
    rm3 r = Some (g, find_best_match token_set_ratio (g_clean_product_name g) rm_df)
    /\ g_filename g = row_filename (merged r)
    /\ exists m',
         In m' (merged_extracted_df2 token_set_ratio order_df rows)
         /\ row_filename m' = g_filename g
         /\ clean_product_name m' = g_clean_product_name g.
Proof.
  intros Hws Hr H0.
  destruct (winners_In _ _ _ Hws Hr) as [Hm [_ [_ [Hmax Hle]]]].
  apply winners_Ok in Hws. destruct Hws as [_ [_ [df3 [Hdf3 ->]]]].
  apply merged_extracted_df3_Ok in Hdf3. destruct Hdf3 as [_ ->].
  set (df2 := merged_extracted_df2 token_set_ratio order_df rows) in *.
  set (m := merged r) in *.
  set (k := (row_filename m, clean_product_name m)).
  assert (Hk : In k (group_keys pair_eqb pair_ltb file_and_name df2)).
  { apply (group_keys_In pair_eqb pair_eqb_eq). exists m. split; [exact Hm|reflexivity]. }
  set (grp := group_of pair_eqb file_and_name k df2).
  assert (Hgm : In m grp).
  { apply (group_of_In pair_eqb pair_eqb_eq). split; [exact Hm|reflexivity]. }
  assert (Hmax0 : maximum (map name_similarity grp) = 0).
  { assert (Hne : map name_similarity grp <> []).
    { intros E. apply map_eq_nil in E. rewrite E in Hgm. exact Hgm. }
    pose proof (maximum_ge (map name_similarity grp) (name_similarity m)
                  (in_map name_similarity grp m Hgm)) as Hlow.
    apply maximum_In in Hne. apply in_map_iff in Hne.
    destruct Hne as [m' [E Hm']]. rewrite <- E in *.
    apply (group_of_In pair_eqb pair_eqb_eq) in Hm'. destruct Hm' as [Hm' Hk'].
    unfold file_and_name, k in Hk'. injection Hk' as Hf' _.
    pose proof (Hle m' Hm' Hf') as Hup.
    lia. }
  set (g := mk_grouped (fst k) (snd k) (maximum (map name_similarity grp))).
  assert (Hg : In g (unmatched_file df2)).
  { unfold unmatched_file. apply filter_In. split.
    - unfold grouped_df. apply in_map_iff. exists k. split; [reflexivity|exact Hk].
    - unfold g. simpl. rewrite Hmax0. reflexivity. }
  assert (Hu : In (g, find_best_match token_set_ratio (g_clean_product_name g) rm_df)
                 (unmatched_file_merged token_set_ratio rm_df df2)).
  { unfold unmatched_file_merged. apply in_map_iff. exists g.
    split; [reflexivity|exact Hg]. }
  unfold merged_extracted_df4 in Hr. apply filter_In in Hr.
  destruct Hr as [Hr _]. apply with_ranks_In in Hr.
  destruct Hr as [i [x [Hx Er]]].
  apply enumerate_In_snd in Hx. simpl in Hx.
  apply merge_left_In in Hx. destruct Hx as [_ Hx].
  assert (Emx : fst x = m) by (unfold m; rewrite Er; reflexivity).
  assert (Erm : rm3 r = snd x) by (rewrite Er; reflexivity).
  rewrite Erm. destruct (snd x) as [[g' b']|].
  - destruct Hx as [Hin Hkey]. simpl in Hkey.
    unfold unmatched_file_merged in Hin. apply in_map_iff in Hin.
    destruct Hin as [g'' [E Hg'']]. injection E as -> <-.
    exists g'. split; [reflexivity|]. split; [rewrite Hkey, Emx; reflexivity|].
    unfold unmatched_file in Hg''. apply filter_In in Hg''.
    destruct Hg'' as [Hg'' _]. unfold grouped_df in Hg''.
    apply in_map_iff in Hg''. destruct Hg'' as [k' [<- Hk']].
    apply (group_keys_In pair_eqb pair_eqb_eq) in Hk'.
    destruct Hk' as [m' [Hm' Ek']]. exists m'. split; [exact Hm'|].
    unfold file_and_name in Ek'. injection Ek' as <-. split; reflexivity.
  - exfalso. apply (Hx _ Hu). simpl. rewrite Emx. reflexivity.
Qed.

End StageFacts.

(** ** Candidate rows *)

Lemma m_numbers_not_null (d : document) (m : scalar) :
  In m (m_numbers d) -> not_null m = true.
Proof.
  unfold m_numbers.
  destruct (fromkeys String.eqb
              (findall false M_NUMBER (remove_nonword (filename_clean d))))
    as [|x l].
  - intros [<-|[]]. reflexivity.
  - intros H. apply in_map_iff in H. destruct H as [s [<- _]]. reflexivity.
Qed.

Lemma m_numbers_nonempty (d : document) : m_numbers d <> [].
Proof.
  unfold m_numbers.
  destruct (fromkeys String.eqb
              (findall false M_NUMBER (remove_nonword (filename_clean d))));
    discriminate.
Qed.

Lemma explode_one_document (d : document) (xs : list scalar) :
  extracted_df3
    (map (fun r => (fst r, clean_and_extract_lot (snd r)))
       (filter (fun r : document * scalar => not_null (snd r))
          (map (pair d) xs)))
  = flat_map (fun lot => map (mk_cand d lot) (m_numbers d))
      (map clean_and_extract_lot (filter not_null xs)).
Proof.
  unfold extracted_df3.
  induction xs as [|x xs IH]; simpl; [reflexivity|].
  destruct (not_null x); simpl; [|exact IH].
  rewrite filter_app, IH. f_equal.
  apply forallb_filter_id. apply forallb_forall.
  intros r Hr. apply in_map_iff in Hr. destruct Hr as [m [<- Hm]].
  simpl. apply (m_numbers_not_null d m Hm).
Qed.

Lemma extracted_df3_app (a b : list (document * option string)) :
  extracted_df3 (a ++ b) = extracted_df3 a ++ extracted_df3 b.
Proof.
  unfold extracted_df3. rewrite flat_map_app, filter_app. reflexivity.
Qed.

(** The candidate rows of a run: the cross sets of its documents, one
    after the other. *)
Lemma candidate_rows_cross (docs : list document) (rows : list cand_row) :
  candidate_rows docs = Ok rows -> rows = flat_map cross docs.
Proof.
  revert rows. induction docs as [|d docs IH]; intros rows H.
  - injection H as <-. reflexivity.
  - unfold candidate_rows, extracted_df2 in H. simpl in H.
    unfold cross at 1, lot_candidates. simpl.
    destruct (lot_numbers_column (safe_parse (json_values d))) as [l|] eqn:El;
      simpl in H; [|discriminate].
    destruct (mapM (fun d0 => l0 <- lot_numbers_column (safe_parse (json_values d0)) ;;
                              Ok (d0, l0)) docs) as [wl|] eqn:Ew;
      simpl in H; [|discriminate].
    injection H as <-.
    rewrite filter_app, map_app, extracted_df3_app, explode_one_document.
    f_equal. apply IH.
    unfold candidate_rows, extracted_df2. rewrite Ew. reflexivity.
Qed.

Lemma cross_doc (d : document) (r : cand_row) : In r (cross d) -> doc r = d.
Proof.
  unfold cross. rewrite in_flat_map. intros [lot [_ H]].
  apply in_map_iff in H. destruct H as [m [<- _]]. reflexivity.
Qed.

Lemma filter_file_cross (f : string) (docs : list document) :
  (forall d, In d docs -> filename d <> f) ->
  filter (fun r => String.eqb (filename (doc r)) f) (flat_map cross docs) = [].
Proof.
  intros H. apply filter_nil_iff. intros r Hr.
  apply in_flat_map in Hr. destruct Hr as [d [Hd Hr]].
  rewrite (cross_doc d r Hr). apply String.eqb_neq. apply H. exact Hd.
Qed.

Lemma filter_file_own (d : document) :
  filter (fun r => String.eqb (filename (doc r)) (filename d)) (cross d) = cross d.
Proof.
  apply forallb_filter_id. apply forallb_forall. intros r Hr.
  rewrite (cross_doc d r Hr). apply String.eqb_refl.
Qed.

(** The rows of a document whose filename no other document has. *)
Lemma rows_of_document (before after : list document) (d : document)
  (rows : list cand_row) :
  candidate_rows (before ++ d :: after) = Ok rows ->
  (forall d', In d' (before ++ after) -> filename d' <> filename d) ->
  filter (fun r => String.eqb (filename (doc r)) (filename d)) rows = cross d.
Proof.
  intros H Hu. rewrite (candidate_rows_cross _ _ H).
  rewrite flat_map_app. simpl. rewrite !filter_app.
  rewrite filter_file_cross, filter_file_cross, filter_file_own.
  - rewrite app_nil_r. reflexivity.
  - intros d' Hd. apply Hu. apply in_or_app. right. exact Hd.
  - intros d' Hd. apply Hu. apply in_or_app. left. exact Hd.
Qed.

Lemma candidate_rows_doc (docs : list document) (rows : list cand_row)
  (c : cand_row) :
  candidate_rows docs = Ok rows -> In c rows -> In (doc c) docs.
Proof.
  intros H Hc. rewrite (candidate_rows_cross _ _ H) in Hc.
  apply in_flat_map in Hc. destruct Hc as [d [Hd Hc]].
  rewrite (cross_doc d c Hc). exact Hd.
Qed.

Lemma merged_row_name (token_set_ratio : string -> string -> Z)
  (order_df : list order_row) (rows : list cand_row) (m : merged_row) :
  In m (merged_extracted_df2 token_set_ratio order_df rows) ->
  clean_product_name m = clean_text (product_name (doc (cand m))).
Proof.
  unfold merged_extracted_df2. rewrite in_map_iff.
  intros [[[c o1] o2] [<- _]]. reflexivity.
Qed.

(** ** The fallback of a document *)

(** C7. For every document the fuzzy-fallback match is the final
    assignment exactly when the greatest exact-match similarity of the
    document is zero.  At zero the final code, name and confidence are
    those of [find_best_match] on the cleaned product name of the
    document (of a document of the same filename); with any other
    greatest similarity they are those of one of the two exact matches,
    whose similarity is that greatest one, and the final confidence is
    that greatest similarity. *)
Theorem C7_fallback_only_at_zero_similarity :
  forall (token_set_ratio : string -> string -> Z) (order_df : list order_row)
         (rm_df : list item) (docs : list document) (final : list assignment),
    assignments token_set_ratio order_df rm_df docs = Ok final ->
    forall a, In a final ->
      let r := winner a in
      (final_origin r = fuzzy_fallback <-> max_name_similarity r = 0)
      /\ (rm_id_final a, rm_name_final a) =
         match final_origin r with
         | exact_lot => (rm_code1 (merged r), rm_name1 (merged r))
         | exact_filename => (rm_code2 (merged r), rm_name2 (merged r))
         | fuzzy_fallback => (rm_code3 r, rm_name3 r)
         end
      /\ name_similarity_final a =
         (if max_name_similarity r =? 0 then name_similarity3 r
          else Some (max_name_similarity r))
      /\ (final_origin r = exact_lot ->
          name_similarity1 (merged r) = max_name_similarity r)
      /\ (final_origin r = exact_filename ->
          name_similarity2 (merged r) = max_name_similarity r)
      /\ (max_name_similarity r = 0 ->
          exists d,
            In d docs
            /\ filename d = filename (row_document r)
            /\ let best :=
                 find_best_match token_set_ratio (clean_text (product_name d))
                   rm_df in
               rm_id_final a = matched_part_number best
               /\ rm_name_final a = matched_description best
               /\ name_similarity_final a = Some (similarity_score best)).
Proof.
  intros ratio order rm docs final Hf a Ha r.
  destruct (assignments_In _ _ _ _ _ _ Hf Ha)
    as [rows [ws [Hrows [Hws [Hw [Hid [Hname [Hsim _]]]]]]]].
  destruct (winners_In _ _ _ _ _ _ Hws Hw) as [_ [_ [Hs [Hmax _]]]].
  pose proof (zero_file_has_fallback _ _ _ _ _ _ Hws Hw) as Hzero.
  fold r in Hid, Hname, Hsim, Hs, Hmax, Hzero.
  rewrite Hid, Hname, Hsim.
  unfold final_origin, final_id, final_name, final_similarity,
    takes_first, takes_second.
  rewrite Hmax in *.
  destruct (Z.eqb_spec (name_similarity (merged r)) 0) as [E0|E0]; simpl.
  - repeat split; auto; try discriminate.
    intros _. destruct (Hzero E0) as [g [Hg [Hfile [m' [Hm' [Hf' Hn']]]]]].
    exists (doc (cand m')).
    split.
    { apply (candidate_rows_doc _ _ _ Hrows).
      apply (merged_extracted_df2_In _ _ _ _ Hm'). }
    split.
    { unfold row_document. unfold row_filename in Hf', Hfile. congruence. }
    rewrite <- (merged_row_name _ _ _ _ Hm'), Hn'.
    unfold rm_code3, rm_name3, name_similarity3. rewrite Hg.
    repeat split.
  - destruct (Z.eqb_spec (name_similarity1 (merged r)) (name_similarity (merged r)))
      as [E1|E1]; simpl.
    + repeat split; auto; try discriminate; intros; contradiction.
    + destruct (Z.eqb_spec (name_similarity2 (merged r)) (name_similarity (merged r)))
        as [E2|E2]; simpl.
      * repeat split; auto; try discriminate; intros; contradiction.
      * exfalso. lia.
Qed.

Lemma C7_fallback_only_at_zero_similarity_witness :
  assignments Sample.overlap_ratio Sample.order_df Sample.rm_df
    Sample.extracted_df = Ok Sample.final
  /\ In (Sample.nth_assignment 2) Sample.final
  /\ (final_origin (winner (Sample.nth_assignment 2)) = fuzzy_fallback
      <-> max_name_similarity (winner (Sample.nth_assignment 2)) = 0)
  /\ rm_id_final (Sample.nth_assignment 2)
     = matched_part_number
         (find_best_match Sample.overlap_ratio
            (clean_text (product_name Sample.ginger)) Sample.rm_df).
Proof.
  assert (H : assignments Sample.overlap_ratio Sample.order_df Sample.rm_df
                Sample.extracted_df = Ok Sample.final)
    by (vm_compute; reflexivity).
  assert (H1 : In (Sample.nth_assignment 2) Sample.final)
    by (vm_compute; right; right; left; reflexivity).
  split; [exact H|]. split; [exact H1|].
  split; [exact (proj1 (C7_fallback_only_at_zero_similarity _ _ _ _ _ H _ H1))|].
  reflexivity.
Defined.

(** ** One winner per file *)

Lemma enumerate_fst {A : Type} (l : list A) :
  map fst (enumerate l) = seq 0 (List.length l).
Proof.
  unfold enumerate. generalize 0%nat.
  induction l as [|x l IH]; intros k; simpl; [reflexivity|].
  f_equal. apply IH.
Qed.

Lemma filter_singleton {X : Type} (Q : nat * X -> bool) (L : list (nat * X))
  (y0 : nat * X) :
  NoDup (map fst L) ->
  In y0 L ->
  (forall y, In y L -> (Q y = true <-> fst y = fst y0)) ->
  filter Q L = [y0].
Proof.
  induction L as [|y L IH]; simpl; intros N Hin HQ; [contradiction|].
  inversion N as [|? ? Hy N']; subst.
  destruct Hin as [->|Hin].
  - rewrite (proj2 (HQ y0 (or_introl eq_refl)) eq_refl). f_equal.
    apply filter_nil_iff. intros z Hz.
    destruct (Q z) eqn:E; [|reflexivity].
    exfalso. apply Hy.
    rewrite <- (proj1 (HQ z (or_intror Hz)) E). apply in_map. exact Hz.
  - destruct (Q y) eqn:E.
    + exfalso. apply Hy.
      rewrite (proj1 (HQ y (or_introl eq_refl)) E). apply in_map. exact Hin.
    + apply IH; auto.
Qed.

Lemma filter_map_comm {A B : Type} (P : B -> bool) (g : A -> B) (l : list A) :
  filter P (map g l) = map g (filter (fun a => P (g a)) l).
Proof.
  induction l as [|x l IH]; simpl; [reflexivity|].
  destruct (P (g x)); simpl; rewrite IH; reflexivity.
Qed.

Lemma filter_twice {A : Type} (P Q : A -> bool) (l : list A) :
  filter P (filter Q l) = filter (fun a => Q a && P a) l.
Proof.
  induction l as [|x l IH]; simpl; [reflexivity|].
  destruct (Q x); simpl; [destruct (P x)|]; rewrite IH; reflexivity.
Qed.

Lemma better_dec (y z : nat * merged_row) : better y z \/ ~ better y z.
Proof. unfold better. lia. Qed.

Lemma rank_first_one (E : list (nat * merged_row)) (i : nat) (r : merged_row) :
  rank_first E i r = 1%nat <->
  forall jr, In jr E -> same_file (snd jr) r = true -> ~ better jr (i, r).
Proof.
  unfold rank_first, better. simpl. split.
  - intros H jr Hjr Hs. injection H as H. apply length_zero_iff_nil in H.
    pose proof (proj1 (filter_nil_iff _ _) H jr Hjr) as F.
    cbv beta in F. rewrite Hs in F. simpl in F.
    apply orb_false_iff in F. destruct F as [F1 F2].
    apply andb_false_iff in F2.
    destruct F2 as [F2|F2]; [|apply Nat.ltb_ge in F2]; lia.
  - intros H. f_equal. apply length_zero_iff_nil, filter_nil_iff.
    intros jr Hjr. destruct (same_file (snd jr) r) eqn:Hs; [|reflexivity].
    specialize (H jr Hjr Hs). simpl.
    apply orb_false_iff. split; [lia|].
    apply andb_false_iff.
    destruct (Z.eqb_spec (name_similarity (snd jr)) (name_similarity r));
      [right; apply Nat.ltb_ge; lia|left; reflexivity].
Qed.

Lemma exists_best (f : string) (E : list (nat * merged_row)) :
  (exists y, In y E /\ row_filename (snd y) = f) ->
  exists y0,
    In y0 E /\ row_filename (snd y0) = f
    /\ forall y, In y E -> row_filename (snd y) = f -> ~ better y y0.
Proof.
  induction E as [|z E IH]; intros [y [Hy Hf]]; [contradiction|].
  assert (D : (exists y', In y' E /\ row_filename (snd y') = f)
              \/ forall y', In y' E -> row_filename (snd y') <> f).
  { clear. induction E as [|a E IH]; [right; intros y' []|].
    destruct (string_dec (row_filename (snd a)) f) as [Ea|Ea].
    - left. exists a. split; [left; reflexivity|exact Ea].
    - destruct IH as [[y' [H1 H2]]|IH].
      + left. exists y'. split; [right; exact H1|exact H2].
      + right. intros y' [<-|Hy']; [exact Ea|apply IH; exact Hy']. }
  destruct D as [D|D].
  - destruct (IH D) as [y0 [H0 [Hf0 Hmin]]].
    destruct (string_dec (row_filename (snd z)) f) as [Ez|Ez].
    + destruct (better_dec z y0) as [B|B].
      * exists z. split; [left; reflexivity|]. split; [exact Ez|].
        intros y' [<-|Hy'] Hf'; [unfold better; lia|].
        intros B'. apply (Hmin y' Hy' Hf'). unfold better in *. lia.
      * exists y0. split; [right; exact H0|]. split; [exact Hf0|].
        intros y' [<-|Hy'] Hf'; [exact B|apply Hmin; assumption].
    + exists y0. split; [right; exact H0|]. split; [exact Hf0|].
      intros y' [<-|Hy'] Hf'; [contradiction|apply Hmin; assumption].
  - destruct Hy as [->|Hy]; [|exfalso; apply (D y Hy Hf)].
    exists y. split; [left; reflexivity|]. split; [exact Hf|].
    intros y' [<-|Hy'] Hf'; [unfold better; lia|exfalso; apply (D y' Hy' Hf')].
Qed.

(** Among the rows of rank 1 exactly one belongs to a file that has a
    row in the frame. *)
Lemma unique_winner (df3 : list (merged_row * option (grouped_row * best_match)))
  (f : string) :
  (exists x, In x df3 /\ row_filename (fst x) = f) ->
  exists w,
    filter (fun r => String.eqb (row_filename (merged r)) f)
      (merged_extracted_df4 df3) = [w].
Proof.
  intros [x [Hx Hf]].
  pose (E := enumerate (map fst df3)).
  pose (g := fun ir : nat * (merged_row * option (grouped_row * best_match)) =>
               mk_ranked (fst (snd ir)) (snd (snd ir))
                 (rank_first E (fst ir) (fst (snd ir)))
                 (file_max (map fst df3) (fst (snd ir)))).
  assert (HE : E = map (fun p => (fst p, fst (snd p))) (enumerate df3))
    by apply enumerate_map.
  destruct (exists_best f E) as [y0 [H0 [Hf0 Hmin]]].
  { destruct (In_enumerate df3 x Hx) as [i Hi].
    exists (i, fst x). split; [|exact Hf].
    rewrite HE. apply in_map_iff. exists (i, x). split; [reflexivity|exact Hi]. }
  rewrite HE in H0. apply in_map_iff in H0.
  destruct H0 as [[i0 x0] [Ey0 H0]]. simpl in Ey0. subst y0. simpl in Hf0.
  exists (g (i0, x0)).
  unfold merged_extracted_df4, with_ranks. fold E. fold g.
  rewrite filter_map_comm, filter_map_comm, filter_twice.
  change [g (i0, x0)] with (map g [(i0, x0)]). f_equal.
  apply filter_singleton.
  - rewrite enumerate_fst. apply seq_NoDup.
  - exact H0.
  - intros [i y] Hy. unfold g. cbn [rank1 merged fst snd].
    rewrite andb_true_iff, Nat.eqb_eq, String.eqb_eq.
    rewrite rank_first_one. split.
    + intros [Hr Hfy].
      assert (HyE : In (i, fst y) E).
      { rewrite HE. apply in_map_iff. exists (i, y). split; [reflexivity|exact Hy]. }
      assert (H0E : In (i0, fst x0) E).
      { rewrite HE. apply in_map_iff. exists (i0, x0). split; [reflexivity|exact H0]. }
      pose proof (Hmin (i, fst y) HyE Hfy) as B1.
      assert (B2 : ~ better (i0, fst x0) (i, fst y)).
      { apply Hr; [exact H0E|]. unfold same_file. simpl.
        apply String.eqb_eq. congruence. }
      unfold better in B1, B2. simpl in B1, B2. lia.
    + intros ->.
      assert (Ey : y = x0).
      { assert (N : NoDup (map fst (enumerate df3)))
          by (rewrite enumerate_fst; apply seq_NoDup).
        pose proof (NoDup_map_eq fst (enumerate df3) (i0, y) (i0, x0) N Hy H0 eq_refl)
          as Eq.
        congruence. }
      subst y. split; [|exact Hf0].
      intros jr Hjr Hs. apply Hmin; [exact Hjr|].
      unfold same_file in Hs. apply String.eqb_eq in Hs. congruence.
Qed.

Section CandidateFacts.

Variable token_set_ratio : string -> string -> Z.
Variable order_df : list order_row.
Variable rm_df : list item.

Lemma merged_extracted_df2_covers (rows : list cand_row) (c : cand_row) :
  In c rows ->
  exists m, In m (merged_extracted_df2 token_set_ratio order_df rows)
            /\ cand m = c.
Proof.
  intros Hc.
  destruct (merge_left_covers lot_number_clean lot_number_order_clean
              rows order_df c Hc) as [o1 H1].
  destruct (merge_left_covers
              (fun r : cand_row * option order_row => m_number_key (fst r))
              lot_number_order_clean
              (merged_extracted_df order_df rows) order_df (c, o1) H1)
    as [o2 H2].
  exists (score token_set_ratio (c, o1, o2)). split; [|reflexivity].
  unfold merged_extracted_df2. apply in_map. exact H2.
Qed.

(** Every file with a candidate row has exactly one winner. *)
Lemma one_winner_per_file (rows : list cand_row) (ws : list ranked_row)
  (c : cand_row) :
  winners token_set_ratio order_df rm_df rows = Ok ws ->
  In c rows ->
  exists w,
    filter (fun r => String.eqb (filename (row_document r)) (filename (doc c)))
      ws = [w].
Proof.
  intros Hws Hc.
  apply winners_Ok in Hws. destruct Hws as [_ [_ [df3 [Hdf3 ->]]]].
  destruct (merged_extracted_df2_covers rows c Hc) as [m [Hm Em]].
  pose proof (merged_extracted_df3_covers _ _ _ _ _ Hdf3 Hm) as Hin.
  apply in_map_iff in Hin. destruct Hin as [x [Ex Hx]].
  apply (unique_winner df3 (filename (doc c))).
  exists x. split; [exact Hx|]. rewrite Ex. unfold row_filename.
  rewrite Em. reflexivity.
Qed.

End CandidateFacts.

(** C8, as the code has it. A document with two lot candidates and one
    filename M-number, whose filename no other document has, gives
    2 x 1 = 2 candidate rows.  In a run that gets as far as the ranking
    of the rows (the steps before it can raise), exactly one row wins
    for the document; it is made from one of these two, and no row of
    the document is more similar than the winner. *)
Theorem C8_two_lots_one_m_number_two_rows :
  forall (token_set_ratio : string -> string -> Z) (order_df : list order_row)
         (rm_df : list item) (before after : list document) (d : document)
         (e : envelope) (l1 l2 m : scalar) (rows : list cand_row),
    candidate_rows (before ++ d :: after) = Ok rows ->
    (forall d', In d' (before ++ after) -> filename d' <> filename d) ->
    safe_parse (json_values d) = PyDict e ->
    or_else (lot_number_value e) (or_else (lot_numbers_value e) (Many [SInt 0]))
    = Many [l1; l2] ->
    not_null l1 = true ->
    not_null l2 = true ->
    m_numbers d = [m] ->
    let r1 := mk_cand d (clean_and_extract_lot l1) m in
    let r2 := mk_cand d (clean_and_extract_lot l2) m in
    filter (fun r => String.eqb (filename (doc r)) (filename d)) rows = [r1; r2]
    /\ forall ws,
         winners token_set_ratio order_df rm_df rows = Ok ws ->
         exists w,
           filter (fun r => String.eqb (filename (row_document r)) (filename d))
             ws = [w]
           /\ (cand (merged w) = r1 \/ cand (merged w) = r2)
           /\ forall x,
                In x (merged_extracted_df2 token_set_ratio order_df rows) ->
                row_filename x = filename d ->
                name_similarity x <= name_similarity (merged w).
Proof.
  intros ratio order rm before after d e l1 l2 m rows Hrows Hu Hs Hl H1 H2 Hm r1 r2.
  assert (Hcross : cross d = [r1; r2]).
  { unfold cross, lot_candidates. rewrite Hs. simpl. rewrite Hl. simpl.
    rewrite H1, H2, Hm. reflexivity. }
  assert (Hfilter : filter (fun r => String.eqb (filename (doc r)) (filename d)) rows
                    = [r1; r2]).
  { rewrite (rows_of_document _ _ _ _ Hrows Hu). exact Hcross. }
  split; [exact Hfilter|].
  intros ws Hws.
  assert (Hr1 : In r1 rows).
  { assert (Hin : In r1 (filter (fun r => String.eqb (filename (doc r)) (filename d)) rows))
      by (rewrite Hfilter; left; reflexivity).
    apply filter_In in Hin. tauto. }
  destruct (one_winner_per_file ratio order rm rows ws r1 Hws Hr1) as [w Hw].
  exists w. split; [exact Hw|].
  assert (Hin : In w (filter (fun r => String.eqb (filename (row_document r))
                                         (filename (doc r1))) ws))
    by (rewrite Hw; left; reflexivity).
  apply filter_In in Hin. destruct Hin as [Hin Hf].
  apply String.eqb_eq in Hf. simpl in Hf.
  destruct (winners_In _ _ _ _ _ _ Hws Hin) as [_ [Hc [_ [Hmax Hle]]]].
  split.
  - assert (Hc' : In (cand (merged w))
                    (filter (fun r => String.eqb (filename (doc r)) (filename d)) rows)).
    { apply filter_In. split; [exact Hc|]. apply String.eqb_eq. exact Hf. }
    rewrite Hfilter in Hc'. destruct Hc' as [E|[E|[]]]; auto.
  - intros x Hx Hfx. rewrite <- Hmax. apply Hle; [exact Hx|].
    unfold row_filename in *. unfold row_document in Hf. congruence.
Qed.

Lemma C8_two_lots_one_m_number_two_rows_witness :
  exists rows ws w,
    candidate_rows ([] ++ Sample.turmeric_new :: [Sample.turmeric_old; Sample.ginger])
    = Ok rows
    /\ List.length
         (filter (fun r => String.eqb (filename (doc r))
                             (filename Sample.turmeric_new)) rows) = 2%nat
    /\ winners Sample.overlap_ratio Sample.order_df Sample.rm_df rows = Ok ws
    /\ filter (fun r => String.eqb (filename (row_document r))
                          (filename Sample.turmeric_new)) ws = [w].
Proof.
  pose proof (C8_two_lots_one_m_number_two_rows
                Sample.overlap_ratio Sample.order_df Sample.rm_df
                [] [Sample.turmeric_old; Sample.ginger] Sample.turmeric_new
                _ (SStr "M12345") (SStr "M54321") (SStr "M12345") _
                ltac:(vm_compute; reflexivity)
                ltac:(intros d' [<-|[<-|[]]]; vm_compute; discriminate)
                ltac:(reflexivity)
                ltac:(reflexivity)
                ltac:(reflexivity)
                ltac:(reflexivity)
                ltac:(vm_compute; reflexivity)) as [Hrows Hwin].
  destruct (Hwin _ ltac:(vm_compute; reflexivity)) as [w [Hw _]].
  eexists. eexists. exists w.
  split; [vm_compute; reflexivity|].
  split; [rewrite Hrows; reflexivity|].
  split; [vm_compute; reflexivity|exact Hw].
Defined.

(** The claim C8 fails: a document with two lot candidates and one
    filename M-number has two candidate rows, not three. *)
Lemma C8_two_rows_not_three :
  lot_candidates Sample.turmeric_new = [Some "M12345"; Some "M54321"]
  /\ m_numbers Sample.turmeric_new = [SStr "M12345"]
  /\ exists rows,
       candidate_rows [Sample.turmeric_new] = Ok rows
       /\ List.length rows = 2%nat
       /\ List.length rows <> 3%nat.
Proof.
  split; [vm_compute; reflexivity|].
  split; [vm_compute; reflexivity|].
  eexists. split; [vm_compute; reflexivity|].
  split; [reflexivity|discriminate].
Qed.

(** ** Unparsable envelopes *)


Lemma sufficient_content_total (c : cell) :
  safe_parse c <> PyOther ->
  exists v, extract_coa_sufficient_content c = Ok v.
Proof.
  destruct c as [|[e|]|v|v|]; simpl; intros H;
    try (eexists; reflexivity).
  contradiction.
Qed.





(** ** Further examples of the specification *)

(** Two manufacture dates: the later one has rank 1. *)
Example rank_by_manufacture_date :
  custom_rank fst snd
    [(Some "2024-01-01", None : option string); (Some "2024-06-01", None)]
  = [((Some "2024-06-01", None), 1%nat); ((Some "2024-01-01", None), 2%nat)].
Proof. reflexivity. Qed.

(** Only an expiry date against no date at all: the dated row has
    rank 1 although the other row arrived first. *)
Example rank_expiry_before_undated :
  custom_rank fst snd
    [(None : option string, None); (None, Some "2025-01-01")]
  = [((None, Some "2025-01-01"), 1%nat); ((None, None), 2%nat)].
Proof. reflexivity. Qed.

(** A known manufacture date goes before any expiry date. *)
Example rank_manufacture_before_expiry :
  custom_rank fst snd
    [(None, Some "2030-01-01"); (Some "2020-01-01", None : option string)]
  = [((Some "2020-01-01", None), 1%nat); ((None, Some "2030-01-01"), 2%nat)].
Proof. reflexivity. Qed.

Example best_match_turmeric :
  find_best_match Sample.overlap_ratio (clean_text (Some "Turmeric Extract 95%"))
    [mk_item (Some "RM-1") (Some "Turmeric Root Extract");
     mk_item (Some "RM-2") (Some "Ginger Extract")]
  = mk_best (Some "RM-1") (Some "Turmeric Root Extract") 50.
Proof. reflexivity. Qed.

Example best_match_tie_first_listed :
  find_best_match Sample.overlap_ratio "extract"
    [mk_item (Some "RM-1") (Some "Turmeric Extract");
     mk_item (Some "RM-2") (Some "Ginger Extract")]
  = mk_best (Some "RM-1") (Some "Turmeric Extract") 50.
Proof. reflexivity. Qed.

Example best_match_empty_catalog :
  find_best_match Sample.overlap_ratio "extract" [] = mk_best None None 0.
Proof. reflexivity. Qed.

Example lot_from_text :
  clean_and_extract_lot (SStr "Lot: M-12345 / B") = Some "M12345".
Proof. reflexivity. Qed.

Example m_numbers_of_filename :
  m_numbers (mk_document "x" "M12345_M1234567_M12345_m99999" Unparsable)
  = [SStr "M12345"; SStr "M123456"].
Proof. reflexivity. Qed.

Example sample_export_codes :
  map pr_codenum Sample.export = [Some "RM-100"; Some "RM-200"].
Proof. reflexivity. Qed.

(* ================================================================== *)
(** * Further properties of the code *)

(** ** What the quality filter lets through *)

Section ExportFacts.

Variable token_set_ratio : string -> string -> Z.
Variable order_df : list order_row.
Variable rm_df : list item.

(** X1. Only documents whose cell is plain JSON of a dict are exported: a
    cell that [safe_parse] reads after removing its quote or through
    [ast.literal_eval] has no sufficiency score, because
    [extract_coa_sufficient_content] uses [json.loads] on the cell as
    it is. *)
Theorem exported_documents_are_plain_json :
  forall (docs : list document) (final : list assignment) (a : assignment),
    assignments token_set_ratio order_df rm_df docs = Ok final ->
    In a (rm_final2 final) ->
    exists e c,
      json_values (row_document (winner a)) = JsonText (PyDict e)
      /\ sufficient_content e = Some c
      /\ coa_sufficient_content a = Some c
      /\ 8 <= c.
Proof.
  intros docs final a Hf Ha.
  apply rm_final2_In in Ha. destruct Ha as [Ha [_ [c [Hc H8]]]].
  destruct (assignments_In _ _ _ _ _ _ Hf Ha)
    as [rows [ws [_ [_ [_ [_ [_ [_ Hcoa]]]]]]]].
  rewrite Hc in Hcoa.
  destruct (json_values (row_document (winner a))) as [|[e|]|v|v|];
    simpl in Hcoa; try discriminate.
  injection Hcoa as Hcoa. exists e, c. repeat split; assumption.
Qed.

(** X2. The filter by origin: an assignment made from an exact match
    passes from similarity 50 on, one made from the fallback only from
    similarity 80 on; both need a sufficiency score of 8 or more. *)
Theorem quality_threshold_by_origin :
  forall (docs : list document) (final : list assignment) (a : assignment),
    assignments token_set_ratio order_df rm_df docs = Ok final ->
    In a final ->
    (passes a <->
     match final_origin (winner a) with
     | fuzzy_fallback =>
         exists s, name_similarity3 (winner a) = Some s /\ 80 <= s
     | _ => 50 <= max_name_similarity (winner a)
     end
     /\ exists c, coa_sufficient_content a = Some c /\ 8 <= c).
Proof.
  intros docs final a Hf Ha.
  destruct (assignments_In _ _ _ _ _ _ Hf Ha)
    as [rows [ws [_ [Hws [Hw [_ [_ [Hsim _]]]]]]]].
  destruct (winners_In _ _ _ _ _ _ Hws Hw) as [_ [_ [Hs [Hmax _]]]].
  unfold passes. rewrite Hsim.
  unfold final_origin, final_similarity, takes_first, takes_second.
  rewrite Hmax.
  destruct (Z.eqb_spec (name_similarity (merged (winner a))) 0) as [E0|E0];
    cbn [negb andb].
  - rewrite E0. split.
    + intros [[H|H] Hc]; [lia|]. split; assumption.
    + intros [H Hc]. split; [right; exact H|exact Hc].
  - assert (Hexact :
      (50 <= name_similarity (merged (winner a))
       \/ (exists s, Some (name_similarity (merged (winner a))) = Some s /\ 80 <= s))
      <-> 50 <= name_similarity (merged (winner a))).
    { split; [|intros H; left; exact H].
      intros [H|[s [Es H]]]; [exact H|]. injection Es as <-. lia. }
    destruct (Z.eqb_spec (name_similarity1 (merged (winner a)))
                (name_similarity (merged (winner a)))) as [E1|E1].
    + rewrite Hexact. reflexivity.
    + destruct (Z.eqb_spec (name_similarity2 (merged (winner a)))
                  (name_similarity (merged (winner a)))) as [E2|E2].
      * rewrite Hexact. reflexivity.
      * exfalso. lia.
Qed.

End ExportFacts.

Lemma exported_documents_are_plain_json_witness :
  exists e c,
    json_values (row_document (winner (Sample.nth_assignment 0)))
    = JsonText (PyDict e)
    /\ sufficient_content e = Some c
    /\ coa_sufficient_content (Sample.nth_assignment 0) = Some c
    /\ 8 <= c.
Proof.
  apply (exported_documents_are_plain_json Sample.overlap_ratio Sample.order_df
           Sample.rm_df Sample.extracted_df Sample.final).
  - vm_compute. reflexivity.
  - vm_compute. left. reflexivity.
Defined.

Lemma quality_threshold_by_origin_witness :
  final_origin (winner (Sample.nth_assignment 2)) = fuzzy_fallback
  /\ passes (Sample.nth_assignment 2).
Proof.
  split; [reflexivity|].
  apply (proj2 (quality_threshold_by_origin Sample.overlap_ratio Sample.order_df
                  Sample.rm_df Sample.extracted_df Sample.final
                  (Sample.nth_assignment 2)
                  ltac:(vm_compute; reflexivity)
                  ltac:(vm_compute; right; right; left; reflexivity))).
  split.
  - exists 100. split; [reflexivity|]. apply Z.leb_le. reflexivity.
  - exists 10. split; [reflexivity|]. apply Z.leb_le. reflexivity.
Defined.


(** ** The fallback confidence *)

(** X3. The confidence of the fallback match is the greatest score of the
    catalog, and 0 on an empty catalog, where no entry is returned; it
    is within 0..100 when the scores are. *)
Theorem best_match_score_is_greatest :
  forall (token_set_ratio : string -> string -> Z) (product_name : string)
         (rm_df : list item),
    (forall row, In row rm_df ->
       0 <= token_set_ratio product_name (str_text (Description row)) <= 100) ->
    let best := find_best_match token_set_ratio product_name rm_df in
    0 <= similarity_score best <= 100
    /\ (forall row, In row rm_df ->
          token_set_ratio product_name (str_text (Description row))
          <= similarity_score best)
    /\ (rm_df = [] -> best = mk_best None None 0)
    /\ (rm_df <> [] ->
        exists row,
          In row rm_df
          /\ similarity_score best
             = token_set_ratio product_name (str_text (Description row))).
Proof.
  intros ratio name rm_df Hb best. unfold best, find_best_match.
  destruct (best_step_fold ratio name rm_df (-1) None)
    as [[E Hall]|[before [row [after [El [E [Hlt [Hbef Haft]]]]]]]].
  - rewrite E. simpl.
    assert (Hnil : rm_df = []).
    { destruct rm_df as [|x l]; [reflexivity|]. exfalso.
      specialize (Hall x (or_introl eq_refl)).
      specialize (Hb x (or_introl eq_refl)). lia. }
    subst rm_df. repeat split; try lia; try contradiction.
  - rewrite E. simpl.
    assert (Hrow : In row rm_df) by (rewrite El; apply in_elt).
    split; [apply Hb; exact Hrow|].
    split.
    + intros x Hx. rewrite El in Hx. apply in_app_or in Hx.
      destruct Hx as [Hx|[<-|Hx]];
        [apply Z.lt_le_incl, Hbef; exact Hx|lia|apply Haft; exact Hx].
    + split; [intros Hnil; rewrite Hnil in Hrow; contradiction|].
      intros _. exists row. split; [exact Hrow|reflexivity].
Qed.

Lemma overlap_ratio_bounds (a b : string) : 0 <= Sample.overlap_ratio a b <= 100.
Proof.
  unfold Sample.overlap_ratio.
  set (wa := Sample.words a). set (wb := Sample.words b).
  set (common := filter (fun w => existsb (String.eqb w) wb) wa).
  assert (Hc : (List.length common <= List.length wa)%nat)
    by apply filter_length_le.
  assert (Hd : (List.length common <= List.length wb)%nat).
  { apply NoDup_incl_length.
    - apply NoDup_filter. apply (fromkeys_NoDup String.eqb string_eqb_eq).
    - intros x Hx. apply filter_In in Hx. destruct Hx as [_ Hx].
      apply existsb_exists in Hx. destruct Hx as [y [Hy E]].
      apply String.eqb_eq in E. subst y. exact Hy. }
  split; [apply Nat2Z.is_nonneg|].
  change 100 with (Z.of_nat 100). apply Nat2Z.inj_le.
  apply Nat.Div0.div_le_upper_bound. lia.
Qed.

Lemma best_match_score_is_greatest_witness :
  0 <= similarity_score
         (find_best_match Sample.overlap_ratio "ginger extract" Sample.rm_df)
    <= 100.
Proof.
  apply (best_match_score_is_greatest Sample.overlap_ratio "ginger extract"
           Sample.rm_df).
  intros row _. apply overlap_ratio_bounds.
Defined.

(** ** One row, one assignment *)

Lemma mapM_Forall2 {A B : Type} (f : A -> py B) (l : list A) (l' : list B) :
  mapM f l = Ok l' -> Forall2 (fun x y => f x = Ok y) l l'.
Proof.
  revert l'. induction l as [|x l IH]; simpl; intros l' H.
  - injection H as <-. constructor.
  - destruct (f x) as [y|] eqn:Ex; simpl in H; [|discriminate].
    destruct (mapM f l) as [ys|]; simpl in H; [|discriminate].
    injection H as <-. constructor; [exact Ex|apply IH; reflexivity].
Qed.

Lemma Forall2_filter_nil {A B : Type} (R : A -> B -> Prop)
  (P : A -> bool) (Q : B -> bool) (l : list A) (l' : list B) :
  Forall2 R l l' ->
  (forall x y, R x y -> P x = Q y) ->
  filter P l = [] -> filter Q l' = [].
Proof.
  intros H HPQ. induction H as [|x y l l' Hxy H IH]; simpl; [reflexivity|].
  rewrite <- (HPQ x y Hxy). destruct (P x); [discriminate|exact IH].
Qed.

Lemma Forall2_filter_singleton {A B : Type} (R : A -> B -> Prop)
  (P : A -> bool) (Q : B -> bool) (l : list A) (l' : list B) (w : A) :
  Forall2 R l l' ->
  (forall x y, R x y -> P x = Q y) ->
  filter P l = [w] ->
  exists a, filter Q l' = [a] /\ R w a.
Proof.
  intros H HPQ. induction H as [|x y l l' Hxy H IH]; simpl; [discriminate|].
  rewrite <- (HPQ x y Hxy). destruct (P x).
  - intros E. injection E as -> E. exists y. split; [|exact Hxy]. f_equal.
    apply (Forall2_filter_nil R P Q l l' H HPQ E).
  - exact IH.
Qed.

Section AssignmentFacts.

Variable token_set_ratio : string -> string -> Z.
Variable order_df : list order_row.
Variable rm_df : list item.

(** X4. In a run that gets as far as the assignments, every document
    that has a candidate row gets exactly one assignment; a document
    without candidate rows gets none. *)
Theorem one_assignment_per_document :
  forall (docs : list document) (final : list assignment),
    assignments token_set_ratio order_df rm_df docs = Ok final ->
    (forall d, In d docs -> cross d <> [] ->
       exists a,
         filter (fun a => String.eqb (filename (row_document (winner a)))
                            (filename d)) final = [a])
    /\ (forall a, In a final ->
          In (row_document (winner a)) docs
          /\ cross (row_document (winner a)) <> []).
Proof.
  intros docs final Hf. unfold assignments in Hf.
  destruct (candidate_rows docs) as [rows|] eqn:Hrows; cbn [bind] in Hf;
    [|discriminate].
  destruct (winners token_set_ratio order_df rm_df rows) as [ws|] eqn:Hws;
    cbn [bind] in Hf; [|discriminate].
  pose proof (mapM_Forall2 _ _ _ Hf) as F.
  split.
  - intros d Hd Hne.
    destruct (cross d) as [|c cs] eqn:Ec; [contradiction|].
    assert (Hc : In c rows).
    { rewrite (candidate_rows_cross _ _ Hrows). apply in_flat_map.
      exists d. split; [exact Hd|]. rewrite Ec. left. reflexivity. }
    assert (Hdoc : doc c = d) by (apply cross_doc; rewrite Ec; left; reflexivity).
    destruct (one_winner_per_file token_set_ratio order_df rm_df rows ws c
                Hws Hc) as [w Hw].
    rewrite Hdoc in Hw.
    destruct (Forall2_filter_singleton _
                (fun r => String.eqb (filename (row_document r)) (filename d))
                (fun a => String.eqb (filename (row_document (winner a)))
                            (filename d)) _ _ w F) as [a [Ha _]].
    + intros r a E.
      destruct (extract_coa_sufficient_content (json_values (row_document r)));
        simpl in E; [|discriminate].
      injection E as <-. reflexivity.
    + exact Hw.
    + exists a. exact Ha.
  - intros a Ha.
    destruct (mapM_In _ _ _ Hf a Ha) as [r [Hr E]].
    destruct (extract_coa_sufficient_content (json_values (row_document r)));
      simpl in E; [|discriminate].
    injection E as <-. simpl.
    destruct (winners_In _ _ _ _ _ _ Hws Hr) as [_ [Hc _]].
    split; [apply (candidate_rows_doc _ _ _ Hrows Hc)|].
    rewrite (candidate_rows_cross _ _ Hrows) in Hc.
    apply in_flat_map in Hc. destruct Hc as [d [Hd Hc]].
    unfold row_document. rewrite (cross_doc d _ Hc).
    intros E. rewrite E in Hc. exact Hc.
Qed.

End AssignmentFacts.

Lemma one_assignment_per_document_witness :
  exists a,
    filter (fun a => String.eqb (filename (row_document (winner a)))
                       (filename Sample.turmeric_new)) Sample.final = [a].
Proof.
  apply (proj1 (one_assignment_per_document Sample.overlap_ratio Sample.order_df
                  Sample.rm_df Sample.extracted_df Sample.final
                  ltac:(vm_compute; reflexivity))).
  - left. reflexivity.
  - vm_compute. discriminate.
Defined.

(** ** Candidate rows of a document *)

Lemma flat_map_product_length {A B C : Type} (f : A -> B -> C)
  (xs : list A) (ys : list B) :
  List.length (flat_map (fun x => map (f x) ys) xs)
  = (List.length xs * List.length ys)%nat.
Proof.
  induction xs as [|x xs IH]; simpl; [reflexivity|].
  rewrite length_app, length_map, IH. reflexivity.
Qed.

(** X5. The candidate rows of a run are the rows of its documents, one
    document after the other; a document has one row for each pair of
    a lot value that is not null and a filename candidate, of which
    there is at least one.  A document whose lot values are all null
    has no row. *)
Theorem candidate_rows_per_document :
  forall (docs : list document) (rows : list cand_row),
    candidate_rows docs = Ok rows ->
    rows = flat_map cross docs
    /\ forall d, In d docs ->
         exists l,
           lot_numbers_column (safe_parse (json_values d)) = Ok l
           /\ List.length (cross d)
              = (List.length (filter not_null (explode l))
                 * List.length (m_numbers d))%nat
           /\ (1 <= List.length (m_numbers d))%nat
           /\ (cross d = [] <-> forall x, In x (explode l) -> x = SNull).
Proof.
  intros docs rows H. split; [apply candidate_rows_cross; exact H|].
  intros d Hd.
  assert (Hok : exists l, lot_numbers_column (safe_parse (json_values d)) = Ok l).
  { unfold candidate_rows, extracted_df2 in H.
    destruct (mapM (fun d0 => l0 <- lot_numbers_column (safe_parse (json_values d0)) ;;
                              Ok (d0, l0)) docs) as [wl|] eqn:Ew;
      simpl in H; [|discriminate].
    clear H. revert wl Ew. induction docs as [|d0 docs IH]; [contradiction|].
    intros wl Ew. simpl in Ew.
    destruct (lot_numbers_column (safe_parse (json_values d0))) as [l0|] eqn:E0;
      simpl in Ew; [|discriminate].
    destruct (mapM (fun d1 => l1 <- lot_numbers_column (safe_parse (json_values d1)) ;;
                              Ok (d1, l1)) docs) as [wl'|] eqn:Ew';
      simpl in Ew; [|discriminate].
    destruct Hd as [<-|Hd]; [exists l0; exact E0|].
    apply (IH Hd wl'). reflexivity. }
  destruct Hok as [l El]. exists l. split; [exact El|].
  assert (Hm : (1 <= List.length (m_numbers d))%nat).
  { pose proof (m_numbers_nonempty d) as Hne.
    destruct (m_numbers d); [contradiction|simpl; lia]. }
  assert (Hlen : List.length (cross d)
                 = (List.length (filter not_null (explode l))
                    * List.length (m_numbers d))%nat).
  { unfold cross, lot_candidates. rewrite El.
    rewrite flat_map_product_length, length_map. reflexivity. }
  split; [exact Hlen|]. split; [exact Hm|].
  split.
  - intros E x Hx. rewrite E in Hlen. simpl in Hlen.
    assert (Hz : List.length (filter not_null (explode l)) = 0%nat) by nia.
    apply length_zero_iff_nil in Hz.
    pose proof (proj1 (filter_nil_iff _ _) Hz x Hx) as Hn.
    destruct x; [reflexivity|discriminate|discriminate].
  - intros Hall. apply length_zero_iff_nil. rewrite Hlen.
    assert (Hz : filter not_null (explode l) = []).
    { apply filter_nil_iff. intros x Hx. rewrite (Hall x Hx). reflexivity. }
    rewrite Hz. reflexivity.
Qed.

Lemma candidate_rows_per_document_witness :
  exists rows,
    candidate_rows Sample.extracted_df = Ok rows
    /\ rows = flat_map cross Sample.extracted_df.
Proof.
  eexists. split; [vm_compute; reflexivity|].
  apply (candidate_rows_per_document Sample.extracted_df).
  vm_compute. reflexivity.
Defined.

(** ** The registry merges *)

Lemma filter_key_unique {B : Type} (right_on : B -> string) (right : list B)
  (k : string) :
  NoDup (map right_on right) ->
  (List.length (filter (fun r => String.eqb (right_on r) k) right) <= 1)%nat.
Proof.
  induction right as [|r right IH]; simpl; intros N; [lia|].
  inversion N as [|? ? Hr N']; subst.
  destruct (String.eqb_spec (right_on r) k) as [E|E]; [|apply IH; exact N'].
  simpl.
  assert (Hz : filter (fun r0 => String.eqb (right_on r0) k) right = []).
  { apply filter_nil_iff. intros x Hx.
    apply String.eqb_neq. intros Ex. apply Hr. rewrite E, <- Ex.
    apply in_map. exact Hx. }
  rewrite Hz. simpl. lia.
Qed.

Lemma merge_left_unique {A B : Type} (left_on : A -> string)
  (right_on : B -> string) (left : list A) (right : list B) :
  NoDup (map right_on right) ->
  map fst (merge_left left_on right_on left right) = left.
Proof.
  intros N.
  induction left as [|l left IH]; [reflexivity|].
  change (merge_left left_on right_on (l :: left) right)
    with (match filter (fun r => String.eqb (right_on r) (left_on l)) right with
          | [] => [(l, None)]
          | matches => map (fun r => (l, Some r)) matches
          end ++ merge_left left_on right_on left right).
  rewrite map_app, IH.
  pose proof (filter_key_unique right_on right (left_on l) N) as Hk.
  destruct (filter (fun r => String.eqb (right_on r) (left_on l)) right)
    as [|m [|m' ms]]; simpl in *; try reflexivity. lia.
Qed.

(** X6. No candidate row is lost when the registry is merged in, and when
    no two registry rows have the same clean key the merged frame has
    the candidate rows one for one, in their order; a key held by
    several registry rows repeats the candidate row. *)
Theorem registry_merge_keeps_candidate_rows :
  forall (token_set_ratio : string -> string -> Z) (order_df : list order_row)
         (rows : list cand_row),
    (forall c, In c rows ->
       exists m, In m (merged_extracted_df2 token_set_ratio order_df rows)
                 /\ cand m = c)
    /\ (forall m, In m (merged_extracted_df2 token_set_ratio order_df rows) ->
          In (cand m) rows)
    /\ (NoDup (map lot_number_order_clean order_df) ->
        map cand (merged_extracted_df2 token_set_ratio order_df rows) = rows).
Proof.
  intros ratio order rows. split; [|split].
  - intros c Hc. apply merged_extracted_df2_covers. exact Hc.
  - intros m Hm. apply (merged_extracted_df2_In ratio order rows m Hm).
  - intros N. unfold merged_extracted_df2, merged_extracted_df.
    rewrite map_map.
    transitivity
      (map fst
         (map fst
            (merge_left (fun r : cand_row * option order_row => m_number_key (fst r))
               lot_number_order_clean
               (merge_left lot_number_clean lot_number_order_clean rows order)
               order))).
    + rewrite map_map. apply map_ext. intros [[c o1] o2]. reflexivity.
    + rewrite merge_left_unique by exact N.
      apply merge_left_unique. exact N.
Qed.

Lemma registry_merge_keeps_candidate_rows_witness :
  NoDup (map lot_number_order_clean Sample.order_df)
  /\ map cand
       (merged_extracted_df2 Sample.overlap_ratio Sample.order_df
          (flat_map cross Sample.extracted_df))
     = flat_map cross Sample.extracted_df.
Proof.
  assert (N : NoDup (map lot_number_order_clean Sample.order_df)).
  { vm_compute.
    repeat (constructor;
            [simpl; intros H;
             repeat (destruct H as [H|H]; [discriminate H|]); exact H|]).
    constructor. }
  split; [exact N|].
  apply (proj2 (proj2 (registry_merge_keeps_candidate_rows Sample.overlap_ratio
                         Sample.order_df (flat_map cross Sample.extracted_df)))).
  exact N.
Defined.

(** ** The final confidence *)

Lemma similarity_score_bounds (token_set_ratio : string -> string -> Z)
  (product_name : string) (rm_df : list item) :
  (forall a b, 0 <= token_set_ratio a b <= 100) ->
  0 <= similarity_score (find_best_match token_set_ratio product_name rm_df)
    <= 100.
Proof.
  intros Hb. unfold find_best_match.
  destruct (best_step_fold token_set_ratio product_name rm_df (-1) None)
    as [[E _]|[before [row [after [_ [E _]]]]]]; rewrite E; simpl.
  - lia.
  - apply Hb.
Qed.

Section ConfidenceFacts.

Variable token_set_ratio : string -> string -> Z.
Variable order_df : list order_row.
Variable rm_df : list item.
Hypothesis ratio_bounds : forall a b, 0 <= token_set_ratio a b <= 100.

Lemma name_similarity_bounds (rows : list cand_row) (m : merged_row) :
  In m (merged_extracted_df2 token_set_ratio order_df rows) ->
  0 <= name_similarity m <= 100.
Proof.
  unfold merged_extracted_df2. rewrite in_map_iff.
  intros [[[c o1] o2] [<- _]]. unfold score. simpl.
  pose proof (ratio_bounds (clean_text (product_name (doc c)))
                (clean_text (name_of o1))).
  pose proof (ratio_bounds (clean_text (product_name (doc c)))
                (clean_text (name_of o2))).
  lia.
Qed.

(** X7. With scores within 0..100, every assignment has a final confidence:
    it is never missing, it lies within 0..100 like the greatest exact
    similarity of the document, and it is not below that similarity. *)
Theorem final_confidence_within_bounds :
  forall (docs : list document) (final : list assignment) (a : assignment),
    assignments token_set_ratio order_df rm_df docs = Ok final ->
    In a final ->
    0 <= max_name_similarity (winner a) <= 100
    /\ exists s,
         name_similarity_final a = Some s
         /\ 0 <= s <= 100
         /\ max_name_similarity (winner a) <= s.
Proof.
  intros docs final a Hf Ha.
  destruct (assignments_In _ _ _ _ _ _ Hf Ha)
    as [rows [ws [_ [Hws [Hw [_ [_ [Hsim _]]]]]]]].
  destruct (winners_In _ _ _ _ _ _ Hws Hw) as [Hm [_ [_ [Hmax _]]]].
  pose proof (name_similarity_bounds rows _ Hm) as Hb.
  rewrite <- Hmax in Hb. split; [exact Hb|].
  rewrite Hsim. unfold final_similarity.
  destruct (Z.eqb_spec (max_name_similarity (winner a)) 0) as [E0|E0].
  - destruct (zero_file_has_fallback _ _ _ _ _ _ Hws Hw E0) as [g [Hg _]].
    unfold name_similarity3. rewrite Hg. simpl.
    eexists. split; [reflexivity|].
    pose proof (similarity_score_bounds token_set_ratio (g_clean_product_name g)
                  rm_df ratio_bounds).
    lia.
  - exists (max_name_similarity (winner a)). split; [reflexivity|]. lia.
Qed.

End ConfidenceFacts.

Lemma final_confidence_within_bounds_witness :
  exists s,
    name_similarity_final (Sample.nth_assignment 3) = Some s
    /\ 0 <= s <= 100
    /\ max_name_similarity (winner (Sample.nth_assignment 3)) <= s.
Proof.
  apply (final_confidence_within_bounds Sample.overlap_ratio Sample.order_df
           Sample.rm_df overlap_ratio_bounds Sample.extracted_df Sample.final).
  - vm_compute. reflexivity.
  - vm_compute. right. right. right. left. reflexivity.
Defined.

(** ** The ranking of a group *)

Section SortedFacts.

Context {A : Type}.
Variable before : A -> A -> bool.
Hypothesis before_asym : forall x y, before x y = true -> before y x = false.
Hypothesis not_before_trans :
  forall x y z, before y x = false -> before z y = false -> before z x = false.

Lemma insert_sorted (x : A) (l : list A) :
  ForallOrdPairs (fun a b => before b a = false) l ->
  ForallOrdPairs (fun a b => before b a = false) (insert before x l).
Proof.
  induction 1 as [|y l Hy Hl IH]; simpl.
  - constructor; constructor.
  - destruct (before y x) eqn:E.
    + constructor; [|exact IH].
      rewrite Forall_forall in *. intros z Hz.
      apply (Permutation_in _ (insert_perm before x l)) in Hz.
      destruct Hz as [<-|Hz]; [apply before_asym; exact E|apply Hy; exact Hz].
    + constructor; [|constructor; assumption].
      rewrite Forall_forall in *. intros z [<-|Hz]; [exact E|].
      apply not_before_trans with y; [exact E|apply Hy; exact Hz].
Qed.

Lemma sort_by_sorted (l : list A) :
  ForallOrdPairs (fun a b => before b a = false) (sort_by before l).
Proof.
  induction l as [|x l IH]; simpl; [constructor|].
  apply insert_sorted. exact IH.
Qed.

End SortedFacts.

Lemma ForallOrdPairs_map {A B : Type} (f : A -> B) (R : B -> B -> Prop)
  (l : list A) :
  ForallOrdPairs (fun x y => R (f x) (f y)) l -> ForallOrdPairs R (map f l).
Proof.
  induction 1 as [|x l Hx _ IH]; simpl; constructor; [|exact IH].
  rewrite Forall_forall in *. intros y Hy.
  apply in_map_iff in Hy. destruct Hy as [z [<- Hz]]. apply Hx. exact Hz.
Qed.

Lemma filter_enumerate_snd {A : Type} (p : A -> bool) (g : list A) :
  map snd (filter (fun r : nat * A => p (snd r)) (enumerate g)) = filter p g.
Proof.
  unfold enumerate. generalize 0%nat.
  induction g as [|x g IH]; intros k; simpl; [reflexivity|].
  destruct (p x); simpl; rewrite IH; reflexivity.
Qed.

Lemma map_snd_combine_seq {A : Type} (l : list A) (k n : nat) :
  List.length l = n -> map snd (combine l (seq k n)) = seq k n.
Proof.
  intros <-. revert k. induction l as [|x l IH]; intros k; simpl; [reflexivity|].
  f_equal. apply IH.
Qed.

Section RankStructure.

Context {A : Type}.
Variable mfg : A -> option string.
Variable expiry : A -> option string.

(** X8. The ranks of a group of [N] rows are 1..N, each given once, and no
    row is lost or repeated. *)
Theorem custom_rank_ranks_each_row_once :
  forall (g : list A),
    map snd (custom_rank mfg expiry g) = seq 1 (List.length g)
    /\ Permutation (map fst (custom_rank mfg expiry g)) g.
Proof.
  intros g. split.
  - rewrite (proj2 (rank_order_tiers mfg expiry g)).
    apply map_snd_combine_seq. apply rank_order_length.
  - apply rank_order_perm.
Qed.

(** X9. The order of the ranks: first the rows with a manufacture date, by
    that date downwards; then the rows with an expiry date only, by
    that date downwards; last the rows without dates, as they came. *)
Theorem custom_rank_order_of_tiers :
  forall (g : list A),
    exists dated expiring,
      map fst (custom_rank mfg expiry g)
      = dated ++ expiring
        ++ filter (fun r => isna_value (mfg r) && isna_value (expiry r)) g
      /\ Permutation dated (filter (fun r => notna (mfg r)) g)
      /\ ForallOrdPairs (fun x y => date_le (mfg y) (mfg x)) dated
      /\ Permutation expiring
           (filter (fun r => isna_value (mfg r) && notna (expiry r)) g)
      /\ ForallOrdPairs (fun x y => date_le (expiry y) (expiry x)) expiring.
Proof.
  intros g.
  exists (map snd (sort_values_desc (fun r : nat * A => mfg (snd r))
                     (filter (fun r => notna (mfg (snd r))) (enumerate g)))),
         (map snd (sort_values_desc (fun r : nat * A => expiry (snd r))
                     (filter (fun r => isna_value (mfg (snd r))
                                       && notna (expiry (snd r))) (enumerate g)))).
  split.
  - fold (rank_order mfg expiry g).
    rewrite (proj1 (rank_order_tiers mfg expiry g)).
    rewrite fallback_in_arrival_order, !map_app.
    rewrite (filter_enumerate_snd
               (fun r => isna_value (mfg r) && isna_value (expiry r))).
    reflexivity.
  - split; [|split; [|split]].
    + rewrite <- (filter_enumerate_snd (fun r => notna (mfg r))).
      apply Permutation_map. apply sort_by_perm.
    + apply ForallOrdPairs_map. unfold sort_values_desc, date_le.
      apply (sort_by_sorted (fun y x : nat * A => date_ltb (mfg (snd x)) (mfg (snd y)))).
      * intros a b. apply date_ltb_asym.
      * intros a b c H1 H2. apply (date_not_ltb_trans _ _ _ H1 H2).
    + rewrite <- (filter_enumerate_snd
                    (fun r => isna_value (mfg r) && notna (expiry r))).
      apply Permutation_map. apply sort_by_perm.
    + apply ForallOrdPairs_map. unfold sort_values_desc, date_le.
      apply (sort_by_sorted
               (fun y x : nat * A => date_ltb (expiry (snd x)) (expiry (snd y)))).
      * intros a b. apply date_ltb_asym.
      * intros a b c H1 H2. apply (date_not_ltb_trans _ _ _ H1 H2).
Qed.

End RankStructure.

(** ** Null fields in the test entries *)

Lemma first_entry_null_label (pattern : string -> bool)
  (earlier later : list test_entry) (bad : test_entry) :
  unmatched pattern earlier ->
  test bad = Null ->
  first_entry pattern (earlier ++ bad :: later) = Raise.
Proof.
  intros Hu Hb. induction Hu as [|e earlier [s [Hs Hn]] _ IH]; simpl.
  - rewrite Hb. reflexivity.
  - rewrite Hs. simpl. rewrite Hn. exact IH.
Qed.

(** X10. A test entry with a [null] label that comes before the first entry
    of a category makes [re] raise while the entries are searched: the
    value of the category is missing, whatever the later entries hold,
    for the chemical and the microbial categories alike. *)
Theorem null_label_hides_later_entries :
  forall (data : envelope) (earlier later : list test_entry) (bad : test_entry),
    test_results data = earlier ++ bad :: later ->
    test bad = Null ->
    (forall key, unmatched (COMPILED_CHEM key) earlier ->
       extract_chem_info data key = Raise
       /\ extract_field (JsonText (PyDict data)) key extract_chem_info = None)
    /\ (forall key, unmatched (COMPILED_MICRO key) earlier ->
          extract_micro_info data key = Raise
          /\ extract_field (JsonText (PyDict data)) key extract_micro_info = None).
Proof.
  intros data earlier later bad Hd Hb. split; intros key Hu.
  - assert (E : extract_chem_info data key = Raise).
    { unfold extract_chem_info.
      rewrite Hd, (first_entry_null_label _ _ _ _ Hu Hb). reflexivity. }
    split; [exact E|]. unfold extract_field. simpl. rewrite E. reflexivity.
  - assert (E : extract_micro_info data key = Raise).
    { unfold extract_micro_info.
      rewrite Hd, (first_entry_null_label _ _ _ _ Hu Hb). reflexivity. }
    split; [exact E|]. unfold extract_field. simpl. rewrite E. reflexivity.
Qed.

Lemma null_label_hides_later_entries_witness :
  extract_field
    (JsonText (PyDict (Sample.tests_only
       [mk_entry Null Absent Absent Absent (Text "n/a");
        Sample.entry "Lead" "2.3 ppm" "5 ppm"])))
    lead_ppm extract_chem_info = None.
Proof.
  apply (proj1 (null_label_hides_later_entries
                  (Sample.tests_only
                     [mk_entry Null Absent Absent Absent (Text "n/a");
                      Sample.entry "Lead" "2.3 ppm" "5 ppm"])
                  [] [Sample.entry "Lead" "2.3 ppm" "5 ppm"]
                  (mk_entry Null Absent Absent Absent (Text "n/a"))
                  eq_refl eq_refl) lead_ppm).
  constructor.
Defined.

(** X11. A [null] result in the first entry of a category: the chemical
    extractor raises and the value is missing even when the limit holds
    a number; the microbial extractor reads the result as the empty
    text and gives no value without raising.  A [null] limit raises in
    the chemical extractor only when the result holds no number. *)
Theorem null_result_chem_raises_micro_reads_empty :
  forall (data : envelope) (earlier later : list test_entry) (item : test_entry)
         (label : string),
    test_results data = earlier ++ item :: later ->
    get (test item) "" = Some label ->
    (forall key,
       unmatched (COMPILED_CHEM key) earlier ->
       COMPILED_CHEM key label = true ->
       (result item = Null ->
        extract_field (JsonText (PyDict data)) key extract_chem_info = None)
       /\ (forall res,
             result item = Text res -> limit item = Null ->
             extract_field (JsonText (PyDict data)) key extract_chem_info
             = option_map float (group (first_number res))))
    /\ (forall key,
          unmatched (COMPILED_MICRO key) earlier ->
          COMPILED_MICRO key label = true ->
          result item = Null ->
          extract_micro_info data key = Ok None).
Proof.
  intros data earlier later item label Hd Hl. split.
  - intros key Hu Hp. split.
    + intros Hr. unfold extract_field, extract_chem_info. simpl.
      rewrite Hd, (first_entry_found _ _ _ _ _ Hu Hl Hp). simpl.
      rewrite Hr. reflexivity.
    + intros res Hr Hlim. unfold extract_field, extract_chem_info. simpl.
      rewrite Hd, (first_entry_found _ _ _ _ _ Hu Hl Hp). cbn [bind].
      rewrite Hr, Hlim. cbn [get text_arg bind]. rewrite search_number.
      destruct (group (first_number res)); reflexivity.
  - intros key Hu Hp Hr. unfold extract_micro_info.
    rewrite Hd, (first_entry_found _ _ _ _ _ Hu Hl Hp). simpl.
    rewrite Hr. reflexivity.
Qed.

Lemma null_result_chem_raises_micro_reads_empty_witness :
  extract_field
    (JsonText (PyDict (Sample.tests_only
       [mk_entry (Text "Lead") Absent (Text "5 ppm") Absent Null])))
    lead_ppm extract_chem_info = None.
Proof.
  apply (proj1 (proj1 (null_result_chem_raises_micro_reads_empty
                         (Sample.tests_only
                            [mk_entry (Text "Lead") Absent (Text "5 ppm") Absent Null])
                         [] [] (mk_entry (Text "Lead") Absent (Text "5 ppm") Absent Null)
                         "Lead" eq_refl eq_refl) lead_ppm
                  ltac:(constructor) ltac:(reflexivity))).
  reflexivity.
Defined.

(** ** The numbers read are never negative *)

Lemma digit_value_nonneg (c : ascii) : is_digit c = true -> 0 <= digit_value c.
Proof.
  unfold is_digit, between, digit_value. intros H.
  apply andb_true_iff in H. destruct H as [H _].
  apply N.leb_le in H. lia.
Qed.

Lemma digits_value_nonneg (s : string) :
  forall acc, 0 <= acc -> forallb_string is_digit s = true ->
              0 <= digits_value acc s.
Proof.
  induction s as [|c s IH]; intros acc Ha H;
    cbn [digits_value forallb_string] in *; [exact Ha|].
  apply andb_true_iff in H. destruct H as [Hc Hs].
  apply IH; [|exact Hs]. pose proof (digit_value_nonneg c Hc). lia.
Qed.

Lemma float_nonneg (m : string) : is_numeral m = true -> Qle 0 (float m).
Proof.
  unfold is_numeral, float. destruct (split_dot m) as [ip [fp|]]; intros H.
  - apply andb_true_iff in H. destruct H as [H1 H2].
    rewrite Qred_correct. unfold Qle. simpl.
    pose proof (digits_value_nonneg fp (digits_value 0 ip)
                  (digits_value_nonneg ip 0 ltac:(lia) H1) H2). lia.
  - unfold Qle. simpl.
    pose proof (digits_value_nonneg ip 0 ltac:(lia) H). lia.
Qed.

Lemma drop_while_split (p : ascii -> bool) (s : string) :
  exists pre, s = (pre ++ drop_while p s)%string
              /\ forallb_string p pre = true.
Proof.
  induction s as [|c s [pre [E H]]]; simpl.
  - exists "". split; reflexivity.
  - destruct (p c) eqn:Ec.
    + exists (String c pre). simpl. rewrite Ec, H. split; [|reflexivity].
      f_equal. exact E.
    + exists "". split; reflexivity.
Qed.

Lemma length_append (a b : string) :
  String.length (a ++ b)%string = (String.length a + String.length b)%nat.
Proof. induction a as [|c a IH]; simpl; [reflexivity|]. rewrite IH. reflexivity. Qed.

Lemma substring_prefix (pre rest : string) :
  substring 0 (String.length (pre ++ rest)%string - String.length rest)
    (pre ++ rest)%string = pre.
Proof.
  rewrite length_append.
  replace (String.length pre + String.length rest - String.length rest)%nat
    with (String.length pre) by lia.
  induction pre as [|c pre IH]; simpl.
  - destruct rest; reflexivity.
  - f_equal. exact IH.
Qed.

Lemma append_assoc (a b c : string) :
  ((a ++ b) ++ c)%string = (a ++ (b ++ c))%string.
Proof. induction a as [|x a IH]; simpl; [reflexivity|]. rewrite IH. reflexivity. Qed.

Lemma split_dot_digits (d : string) :
  forallb_string is_digit d = true -> split_dot d = (d, None).
Proof.
  induction d as [|c d IH]; simpl; intros H; [reflexivity|].
  apply andb_true_iff in H. destruct H as [Hc Hd].
  destruct (Ascii.eqb c ".") eqn:E.
  - apply Ascii.eqb_eq in E. subst c. discriminate Hc.
  - rewrite (IH Hd). reflexivity.
Qed.

Lemma split_dot_fraction (d f : string) :
  forallb_string is_digit d = true ->
  split_dot (d ++ String "." f)%string = (d, Some f).
Proof.
  induction d as [|c d IH]; simpl; intros H; [reflexivity|].
  apply andb_true_iff in H. destruct H as [Hc Hd].
  destruct (Ascii.eqb c ".") eqn:E.
  - apply Ascii.eqb_eq in E. subst c. discriminate Hc.
  - rewrite (IH Hd). reflexivity.
Qed.

(** What a reader of numbers leaves: the text after the leading digits,
    or the text after the digits that follow a dot after them. *)
Lemma numeral_before (s rest : string) :
  rest = drop_while is_digit s
  \/ (exists r', drop_while is_digit s = String "." r'
                 /\ rest = drop_while is_digit r') ->
  is_numeral (substring 0 (String.length s - String.length rest) s) = true.
Proof.
  destruct (drop_while_split is_digit s) as [d [E Hd]].
  intros [->|[r' [Er ->]]].
  - set (r := drop_while is_digit s) in *. rewrite E, substring_prefix.
    unfold is_numeral. rewrite (split_dot_digits d Hd). exact Hd.
  - destruct (drop_while_split is_digit r') as [f [Ef Hf]].
    assert (Es : s = ((d ++ String "." f) ++ drop_while is_digit r')%string).
    { rewrite append_assoc. simpl. rewrite <- Ef, <- Er. exact E. }
    set (q := drop_while is_digit r') in *. rewrite Es, substring_prefix.
    unfold is_numeral. rewrite (split_dot_fraction d f Hd), Hd, Hf. reflexivity.
Qed.

Lemma number_end_numeral (s rest : string) :
  number_end s = Some rest ->
  is_numeral (substring 0 (String.length s - String.length rest) s) = true.
Proof.
  unfold number_end. intros H. apply numeral_before.
  destruct (drop_while is_digit s) as [|c r'] eqn:Er.
  - destruct (starts_with is_digit s); [|discriminate].
    injection H as <-. left. reflexivity.
  - destruct (Ascii.eqb c "." && starts_with is_digit r') eqn:E.
    + injection H as <-. apply andb_true_iff in E. destruct E as [E _].
      apply Ascii.eqb_eq in E. subst c. right. exists r'. split; reflexivity.
    + destruct (starts_with is_digit s); [|discriminate].
      injection H as <-. left. reflexivity.
Qed.

Lemma number_cfu_end_numeral (s rest : string) :
  number_cfu_end s = Some rest ->
  is_numeral (substring 0 (String.length s - String.length rest) s) = true.
Proof.
  unfold number_cfu_end. intros H. apply numeral_before.
  destruct (drop_while is_digit s) as [|c r'] eqn:Er; [discriminate|].
  destruct (Ascii.eqb c "." && starts_with is_digit r'
            && cfu_follows (drop_while is_digit r')) eqn:E.
  - injection H as <-. apply andb_true_iff in E. destruct E as [E _].
    apply andb_true_iff in E. destruct E as [E _].
    apply Ascii.eqb_eq in E. subst c. right. exists r'. split; reflexivity.
  - destruct (starts_with is_digit s && cfu_follows (String c r'));
      [|discriminate].
    injection H as <-. left. reflexivity.
Qed.

Lemma scan_found (ending : string -> option string) (s : string) :
  forall i j m,
    scan ending i s = Some (j, m) ->
    exists t rest,
      ending t = Some rest
      /\ m = substring 0 (String.length t - String.length rest) t.
Proof.
  induction s as [|c s IH]; intros i j m; cbn [scan].
  - destruct (ending "") as [rest|] eqn:E; [|discriminate].
    intros H. injection H as _ <-. exists "", rest. split; [exact E|reflexivity].
  - destruct (ending (String c s)) as [rest|] eqn:E.
    + intros H. injection H as _ <-. exists (String c s), rest.
      split; [exact E|reflexivity].
    + apply IH.
Qed.

Lemma first_number_numeral (s : string) (m : string) :
  group (first_number s) = Some m -> is_numeral m = true.
Proof.
  unfold group, first_number.
  destruct (scan number_end 0 s) as [[j m']|] eqn:E; [|discriminate].
  simpl. intros H. injection H as <-.
  destruct (scan_found _ _ _ _ _ E) as [t [rest [Ht ->]]].
  apply number_end_numeral. exact Ht.
Qed.

Lemma first_number_cfu_numeral (s : string) (m : string) :
  group (first_number_cfu s) = Some m -> is_numeral m = true.
Proof.
  unfold group, first_number_cfu.
  destruct (scan number_cfu_end 0 s) as [[j m']|] eqn:E; [|discriminate].
  simpl. intros H. injection H as <-.
  destruct (scan_found _ _ _ _ _ E) as [t [rest [Ht ->]]].
  apply number_cfu_end_numeral. exact Ht.
Qed.

Lemma chem_value_nonneg (data : envelope) (key : chem_key) (v : Q) :
  extract_chem_info data key = Ok (Some v) -> Qle 0 v.
Proof.
  unfold extract_chem_info.
  destruct (first_entry (COMPILED_CHEM key) (test_results data)) as [[info|]|];
    cbn [bind]; try discriminate.
  destruct (get (result info) "") as [res|]; cbn [text_arg bind];
    [|discriminate].
  rewrite search_number.
  destruct (group (first_number res)) as [m|] eqn:E1.
  - intros H. injection H as <-.
    apply float_nonneg, (first_number_numeral res), E1.
  - destruct (get (limit info) "") as [lim|]; cbn [text_arg bind];
      [|discriminate].
    rewrite search_number.
    destruct (group (first_number lim)) as [m|] eqn:E2.
    + intros H. injection H as <-.
      apply float_nonneg, (first_number_numeral lim), E2.
    + destruct (found false CHEM_NEGATIVE (lower res)); [|discriminate].
      intros H. injection H as <-. apply Qle_refl.
Qed.

Lemma micro_value_nonneg (data : envelope) (key : micro_key) (v : Q) :
  extract_micro_info data key = Ok (Some v) -> Qle 0 v.
Proof.
  unfold extract_micro_info.
  destruct (first_entry (COMPILED_MICRO key) (test_results data)) as [[info|]|];
    cbn [bind]; try discriminate.
  rewrite search_number_cfu.
  destruct (group (first_number_cfu (or_empty (get (result info) ""))))
    as [m|] eqn:E1.
  - intros H. injection H as <-.
    apply float_nonneg, (first_number_cfu_numeral _ _ E1).
  - destruct (found false MICRO_NEGATIVE
                (lower (or_empty (get (result info) "")))); [|discriminate].
    intros H. injection H as <-. apply Qle_refl.
Qed.

(** X12. The value of a chemical or of a microbial field is never negative:
    the numeral read holds digits and at most one dot, so that a sign
    before the number of a result or of a limit is not read. *)
Theorem extracted_values_never_negative :
  forall (c : cell) (v : Q),
    (forall key, extract_field c key extract_chem_info = Some v -> Qle 0 v)
    /\ (forall key, extract_field c key extract_micro_info = Some v -> Qle 0 v).
Proof.
  intros c v. split; intros key; unfold extract_field;
    destruct (loads_dict c) as [data|]; cbn [bind catch]; try discriminate.
  - destruct (extract_chem_info data key) as [[x|]|] eqn:E; cbn [catch];
      try discriminate.
    intros H. injection H as <-. apply (chem_value_nonneg data key x E).
  - destruct (extract_micro_info data key) as [[x|]|] eqn:E; cbn [catch];
      try discriminate.
    intros H. injection H as <-. apply (micro_value_nonneg data key x E).
Qed.

Lemma extracted_values_never_negative_witness :
  Qle 0 (5 # 2).
Proof.
  apply (proj1 (extracted_values_never_negative
                  (JsonText (PyDict (Sample.tests_only
                     [Sample.entry "Lead" "-2.5 ppm" "5 ppm"])))
                  (5 # 2)) lead_ppm).
  vm_compute. reflexivity.
Defined.

(** ** Cleaned texts and test names *)

Lemma rev_string_app (s : string) :
  forall acc, rev_string acc s = (rev_string "" s ++ acc)%string.
Proof.
  induction s as [|c s IH]; intros acc; simpl; [reflexivity|].
  rewrite (IH (String c acc)), (IH (String c "")), append_assoc. reflexivity.
Qed.

Lemma append_nil_r (s : string) : (s ++ "")%string = s.
Proof. induction s as [|c s IH]; simpl; [reflexivity|]. rewrite IH. reflexivity. Qed.

Lemma rev_string_append (a b : string) :
  rev_string "" (a ++ b)%string = (rev_string "" b ++ rev_string "" a)%string.
Proof.
  induction a as [|c a IH]; simpl.
  - rewrite append_nil_r. reflexivity.
  - rewrite (rev_string_app (a ++ b)), (rev_string_app a), IH, append_assoc.
    reflexivity.
Qed.

Lemma rev_string_involutive (s : string) :
  rev_string "" (rev_string "" s) = s.
Proof.
  induction s as [|c s IH]; simpl; [reflexivity|].
  rewrite (rev_string_app s (String c "")), rev_string_append, IH. reflexivity.
Qed.

Lemma forallb_string_append (p : ascii -> bool) (a b : string) :
  forallb_string p (a ++ b)%string = forallb_string p a && forallb_string p b.
Proof.
  induction a as [|c a IH]; simpl; [reflexivity|].
  rewrite IH, andb_assoc. reflexivity.
Qed.

Lemma forallb_string_rev (p : ascii -> bool) (s : string) :
  forallb_string p (rev_string "" s) = forallb_string p s.
Proof.
  induction s as [|c s IH]; simpl; [reflexivity|].
  rewrite (rev_string_app s (String c "")), forallb_string_append, IH. simpl.
  rewrite andb_true_r. apply andb_comm.
Qed.

Lemma drop_while_all (p : ascii -> bool) (s : string) :
  forallb_string p s = true -> drop_while p s = "".
Proof.
  induction s as [|c s IH]; simpl; [reflexivity|].
  destruct (p c); [exact IH|discriminate].
Qed.

Lemma drop_while_append (p : ascii -> bool) (a b : string) :
  drop_while p (a ++ b)%string
  = if forallb_string p a then drop_while p b
    else (drop_while p a ++ b)%string.
Proof.
  induction a as [|c a IH]; simpl; [reflexivity|].
  destruct (p c); [exact IH|reflexivity].
Qed.

(** [rstrip] read from the left. *)
Lemma rstrip_cons (c : ascii) (s : string) :
  rstrip (String c s)
  = if forallb_string is_space s && is_space c then ""
    else String c (rstrip s).
Proof.
  unfold rstrip. simpl. rewrite (rev_string_app s (String c "")).
  rewrite drop_while_append, forallb_string_rev.
  destruct (forallb_string is_space s) eqn:E.
  - rewrite (drop_while_all is_space (rev_string "" s))
      by (rewrite forallb_string_rev; exact E).
    simpl. destruct (is_space c); reflexivity.
  - simpl. rewrite rev_string_append. reflexivity.
Qed.

Lemma forallb_string_drop_while (p q : ascii -> bool) (s : string) :
  forallb_string p s = true -> forallb_string p (drop_while q s) = true.
Proof.
  induction s as [|c s IH]; simpl; [reflexivity|].
  intros H. destruct (q c); [|exact H].
  apply andb_true_iff in H. apply IH, H.
Qed.

Lemma forallb_string_rstrip (p : ascii -> bool) (s : string) :
  forallb_string p s = true -> forallb_string p (rstrip s) = true.
Proof.
  induction s as [|c s IH]; [reflexivity|].
  cbn [forallb_string]. intros H. apply andb_true_iff in H.
  destruct H as [Hc Hs]. rewrite rstrip_cons.
  destruct (forallb_string is_space s && is_space c); [reflexivity|].
  cbn [forallb_string]. rewrite Hc, (IH Hs). reflexivity.
Qed.

Lemma forallb_string_strip (p : ascii -> bool) (s : string) :
  forallb_string p s = true -> forallb_string p (strip s) = true.
Proof.
  intros H. unfold strip, lstrip.
  apply forallb_string_rstrip, forallb_string_drop_while, H.
Qed.

Lemma rstrip_head (s : string) :
  starts_with is_space s = false -> starts_with is_space (rstrip s) = false.
Proof.
  destruct s as [|c s]; [reflexivity|]. cbn [starts_with]. intros H.
  rewrite rstrip_cons, H, andb_false_r. exact H.
Qed.

Lemma strip_trimmed (s : string) : trimmed (strip s) = true.
Proof.
  unfold trimmed, strip, lstrip, ends_with.
  rewrite (rstrip_head _ (drop_while_head is_space s)).
  unfold rstrip. rewrite rev_string_involutive, drop_while_head. reflexivity.
Qed.

Lemma strip_fixed (s : string) : trimmed s = true -> strip s = s.
Proof.
  unfold trimmed, ends_with. intros H. apply andb_true_iff in H.
  destruct H as [H1 H2]. apply negb_true_iff in H1, H2.
  unfold strip, lstrip. rewrite (drop_while_not _ _ H1).
  unfold rstrip. rewrite (drop_while_not _ _ H2). apply rev_string_involutive.
Qed.

Lemma forallb_string_filter (p : ascii -> bool) (s : string) :
  forallb_string p (filter_chars p s) = true.
Proof.
  induction s as [|c s IH]; simpl; [reflexivity|].
  destruct (p c) eqn:E; [simpl; rewrite E; exact IH|exact IH].
Qed.

Lemma filter_chars_fixed (p : ascii -> bool) (s : string) :
  forallb_string p s = true -> filter_chars p s = s.
Proof.
  induction s as [|c s IH]; simpl; [reflexivity|].
  intros H. apply andb_true_iff in H. destruct H as [Hc Hs].
  rewrite Hc, (IH Hs). reflexivity.
Qed.

Lemma plain_is_not_upper (c : ascii) : plain c = true -> is_upper c = false.
Proof.
  unfold plain, is_lower, is_digit, is_space, is_upper, between.
  intros H. apply andb_false_iff.
  repeat (apply orb_true_iff in H; destruct H as [H|H]);
    try (apply andb_true_iff in H; destruct H as [H1 H2];
         apply N.leb_le in H1, H2);
    try apply N.eqb_eq in H;
    destruct (65 <=? code c)%N eqn:E1; auto; right;
    apply N.leb_le in E1; apply N.leb_gt; lia.
Qed.

Lemma lower_fixed (s : string) :
  forallb_string plain s = true -> lower s = s.
Proof.
  induction s as [|c s IH]; simpl; [reflexivity|].
  intros H. apply andb_true_iff in H. destruct H as [Hc Hs].
  unfold lower_char. rewrite (plain_is_not_upper c Hc), (IH Hs). reflexivity.
Qed.

Lemma clean_text_fixed (s : string) :
  is_clean_text s = true -> clean_text (Some s) = s.
Proof.
  unfold is_clean_text. intros H. apply andb_true_iff in H.
  destruct H as [Hp Ht].
  change (strip (filter_chars plain (lower s)) = s).
  rewrite (lower_fixed s Hp).
  rewrite (filter_chars_fixed plain s Hp).
  apply strip_fixed, Ht.
Qed.

(** X13. A cleaned text holds small letters, digits and whitespace only and
    has no whitespace at its ends; cleaning it again changes nothing. *)
Theorem clean_text_gives_a_fixed_clean_text :
  forall (text : option string),
    is_clean_text (clean_text text) = true
    /\ clean_text (Some (clean_text text)) = clean_text text.
Proof.
  intros text.
  assert (H : is_clean_text (clean_text text) = true).
  { destruct text as [t|]; [|reflexivity].
    change (clean_text (Some t)) with (strip (filter_chars plain (lower t))).
    unfold is_clean_text. rewrite strip_trimmed, andb_true_r.
    apply forallb_string_strip. apply (forallb_string_filter plain). }
  split; [exact H|]. apply clean_text_fixed, H.
Qed.

Lemma name_space_is_blank (c : ascii) :
  (is_lower c || is_digit c || Ascii.eqb c " ") = true ->
  is_space c = true -> c = " "%char.
Proof.
  destruct c as [[] [] [] [] [] [] [] []]; vm_compute; intros H1 H2;
    try discriminate; reflexivity.
Qed.

Lemma name_char_plain (c : ascii) :
  (is_lower c || is_digit c || Ascii.eqb c " ") = true -> plain c = true.
Proof.
  unfold plain. intros H. apply orb_true_iff in H. destruct H as [H|H].
  - rewrite H. reflexivity.
  - apply Ascii.eqb_eq in H. subst c. reflexivity.
Qed.

Lemma forallb_string_impl (p q : ascii -> bool) (s : string) :
  (forall c, p c = true -> q c = true) ->
  forallb_string p s = true -> forallb_string q s = true.
Proof.
  intros Hpq. induction s as [|c s IH]; simpl; [reflexivity|].
  intros H. apply andb_true_iff in H. destruct H as [Hc Hs].
  rewrite (Hpq c Hc), (IH Hs). reflexivity.
Qed.

Lemma map_chars_plain (s : string) :
  forallb_string plain
    (map_chars (fun c => if plain c then c else " "%char) s) = true.
Proof.
  induction s as [|c s IH]; simpl; [reflexivity|].
  rewrite IH, andb_true_r. destruct (plain c) eqn:E; [exact E|reflexivity].
Qed.

Lemma map_chars_fixed (s : string) :
  forallb_string plain s = true ->
  map_chars (fun c => if plain c then c else " "%char) s = s.
Proof.
  induction s as [|c s IH]; simpl; [reflexivity|].
  intros H. apply andb_true_iff in H. destruct H as [Hc Hs].
  rewrite Hc, (IH Hs). reflexivity.
Qed.

Lemma collapse_chars (s : string) :
  forall b,
    forallb_string plain s = true ->
    forallb_string (fun c => is_lower c || is_digit c || Ascii.eqb c " ")
      (collapse b s) = true.
Proof.
  induction s as [|c s IH]; intros b; simpl; [reflexivity|].
  intros H. apply andb_true_iff in H. destruct H as [Hc Hs].
  destruct (is_space c) eqn:E.
  - destruct b; [apply IH, Hs|]. cbn [forallb_string].
    rewrite (IH true Hs). reflexivity.
  - simpl. rewrite (IH false Hs), andb_true_r.
    unfold plain in Hc. rewrite E, orb_false_r in Hc. rewrite Hc. reflexivity.
Qed.

Lemma collapse_single_spaced (s : string) :
  forall b, single_spaced b (collapse b s) = true.
Proof.
  induction s as [|c s IH]; intros b; simpl; [reflexivity|].
  destruct (is_space c) eqn:E.
  - destruct b; [apply IH|]. simpl. apply IH.
  - simpl. rewrite E, andb_false_r. simpl. apply IH.
Qed.

Lemma single_spaced_weaken (b : bool) (s : string) :
  single_spaced b s = true -> single_spaced false s = true.
Proof.
  destruct s as [|c s]; simpl; [reflexivity|].
  intros H. apply andb_true_iff in H. exact (proj2 H).
Qed.

Lemma single_spaced_drop_while (s : string) :
  forall b, single_spaced b s = true ->
            single_spaced false (drop_while is_space s) = true.
Proof.
  induction s as [|c s IH]; intros b; [reflexivity|].
  cbn [single_spaced drop_while]. intros H.
  apply andb_true_iff in H. destruct H as [_ H].
  destruct (is_space c) eqn:E; [apply (IH true), H|].
  cbn [single_spaced]. rewrite E. exact H.
Qed.

Lemma single_spaced_rstrip (s : string) :
  forall b, single_spaced b s = true -> single_spaced b (rstrip s) = true.
Proof.
  induction s as [|c s IH]; intros b; [reflexivity|].
  cbn [single_spaced]. intros H.
  apply andb_true_iff in H. destruct H as [H1 H2].
  rewrite rstrip_cons.
  destruct (forallb_string is_space s && is_space c); [reflexivity|].
  cbn [single_spaced]. rewrite H1, (IH _ H2). reflexivity.
Qed.

Lemma collapse_fixed (s : string) :
  forall b,
    forallb_string (fun c => is_lower c || is_digit c || Ascii.eqb c " ") s
    = true ->
    single_spaced b s = true ->
    collapse b s = s.
Proof.
  induction s as [|c s IH]; intros b; [reflexivity|].
  cbn [forallb_string single_spaced collapse]. intros H1 H2.
  apply andb_true_iff in H1. destruct H1 as [Hc Hs].
  apply andb_true_iff in H2. destruct H2 as [Hb Hr].
  destruct (is_space c) eqn:E.
  - rewrite andb_true_r in Hb. apply negb_true_iff in Hb. subst b.
    rewrite (IH true Hs Hr), (name_space_is_blank c Hc E). reflexivity.
  - rewrite (IH false Hs Hr). reflexivity.
Qed.

Lemma clean_test_name_fixed (s : string) :
  is_clean_name s = true -> clean_test_name s = s.
Proof.
  unfold is_clean_name. intros H. apply andb_true_iff in H.
  destruct H as [H Hs]. apply andb_true_iff in H. destruct H as [Hc Ht].
  assert (Hp : forallb_string plain s = true)
    by exact (forallb_string_impl _ _ s name_char_plain Hc).
  unfold clean_test_name.
  rewrite (lower_fixed s Hp), (map_chars_fixed s Hp).
  rewrite (collapse_fixed s false Hc Hs). apply strip_fixed, Ht.
Qed.

(** X14. A cleaned test name holds small letters and digits in words that a
    single space separates, with no space at its ends; cleaning it again
    changes nothing. *)
Theorem clean_test_name_gives_a_fixed_clean_name :
  forall (name : string),
    is_clean_name (clean_test_name name) = true
    /\ clean_test_name (clean_test_name name) = clean_test_name name.
Proof.
  intros name.
  assert (H : is_clean_name (clean_test_name name) = true).
  { unfold is_clean_name, clean_test_name.
    rewrite strip_trimmed, andb_true_r. apply andb_true_iff. split.
    - apply forallb_string_strip, collapse_chars, map_chars_plain.
    - unfold strip, lstrip. apply single_spaced_rstrip.
      apply (single_spaced_drop_while _ false), collapse_single_spaced. }
  split; [exact H|]. apply clean_test_name_fixed, H.
Qed.

(** ** The shape of the lot candidates *)

Lemma substring_step (c : ascii) (s r : string) :
  (String.length r <= String.length s)%nat ->
  substring 0 (String.length (String c s) - String.length r) (String c s)
  = String c (substring 0 (String.length s - String.length r) s).
Proof.
  intros H. cbn [String.length].
  replace (S (String.length s) - String.length r)%nat
    with (S (String.length s - String.length r)) by lia.
  reflexivity.
Qed.

Lemma substring_done (r : string) :
  substring 0 (String.length r - String.length r) r = "".
Proof. rewrite Nat.sub_diag. destruct r; reflexivity. Qed.

Lemma some_eq {A : Type} (a b : A) : Some a = Some b -> a = b.
Proof. intros H. injection H as H. exact H. Qed.

Lemma m_number_match (prev : option ascii) (t m : string) :
  match_here false M_NUMBER prev t = Some m -> is_m_number m = true.
Proof.
  unfold match_here, M_NUMBER, Opt, digit. cbn [run lit_eq].
  destruct t as [|c0 t]; [discriminate|].
  destruct (Ascii.eqb "M" c0) eqn:E0; [|discriminate].
  apply Ascii.eqb_eq in E0. subst c0.
  destruct t as [|c1 t]; [discriminate|].
  destruct (is_digit c1) eqn:E1; [|discriminate].
  destruct t as [|c2 t]; [discriminate|].
  destruct (is_digit c2) eqn:E2; [|discriminate].
  destruct t as [|c3 t]; [discriminate|].
  destruct (is_digit c3) eqn:E3; [|discriminate].
  destruct t as [|c4 t]; [discriminate|].
  destruct (is_digit c4) eqn:E4; [|discriminate].
  destruct t as [|c5 t].
  - cbv beta iota. intros H. apply some_eq in H. subst m.
    repeat (rewrite substring_step by (simpl; lia)).
    try rewrite substring_done.
    cbn [is_m_number forallb_string]. rewrite E1, E2, E3, E4. reflexivity.
  - destruct (is_digit c5) eqn:E5.
    + destruct t as [|c6 t].
      * cbv beta iota. intros H. apply some_eq in H. subst m.
        repeat (rewrite substring_step by (simpl; lia)).
        try rewrite substring_done.
        cbn [is_m_number forallb_string]. rewrite E1, E2, E3, E4, E5. reflexivity.
      * destruct (is_digit c6) eqn:E6.
        -- cbv beta iota. intros H. apply some_eq in H. subst m.
           repeat (rewrite substring_step by (simpl; lia)).
           try rewrite substring_done.
           cbn [is_m_number forallb_string]. rewrite E1, E2, E3, E4, E5, E6. reflexivity.
        -- cbv beta iota. intros H. apply some_eq in H. subst m.
           repeat (rewrite substring_step by (simpl; lia)).
           try rewrite substring_done.
           cbn [is_m_number forallb_string]. rewrite E1, E2, E3, E4, E5. reflexivity.
    + cbv beta iota. intros H. apply some_eq in H. subst m.
      repeat (rewrite substring_step by (simpl; lia)).
      try rewrite substring_done.
      cbn [is_m_number forallb_string]. rewrite E1, E2, E3, E4. reflexivity.
Qed.

Lemma search_from_match (ic : bool) (r : regex) (s : string) :
  forall prev i j m,
    search_from ic r prev i s = Some (j, m) ->
    exists prev' t, match_here ic r prev' t = Some m.
Proof.
  induction s as [|c s IH]; intros prev i j m; cbn [search_from].
  - destruct (match_here ic r prev "") as [m'|] eqn:E; [|discriminate].
    intros H. injection H as _ <-. exists prev, "". exact E.
  - destruct (match_here ic r prev (String c s)) as [m'|] eqn:E.
    + intros H. injection H as _ <-. exists prev, (String c s). exact E.
    + apply IH.
Qed.

Lemma findall_from_match (ic : bool) (r : regex) (fuel : nat) :
  forall prev s m,
    In m (findall_from ic fuel r prev s) ->
    exists prev' t, match_here ic r prev' t = Some m.
Proof.
  induction fuel as [|fuel IH]; intros prev s m; cbn [findall_from];
    [intros []|].
  destruct (search_from ic r prev 0 s) as [[i m']|] eqn:E; [|intros []].
  intros [<-|H].
  - apply (search_from_match _ _ _ _ _ _ _ E).
  - apply (IH _ _ _ H).
Qed.

Lemma lot_is_m_number (x : scalar) (m : string) :
  clean_and_extract_lot x = Some m -> is_m_number m = true.
Proof.
  unfold clean_and_extract_lot, group, search.
  destruct (search_from false M_NUMBER None 0 (remove_nonword (str x)))
    as [[i m']|] eqn:E; [|discriminate].
  simpl. intros H. injection H as <-.
  destruct (search_from_match _ _ _ _ _ _ _ E) as [prev [t Ht]].
  apply (m_number_match prev t), Ht.
Qed.

Lemma digit_is_word (c : ascii) : is_digit c = true -> is_word c = true.
Proof. unfold is_word. intros ->. reflexivity. Qed.

Lemma digit_is_not_upper (c : ascii) : is_digit c = true -> is_upper c = false.
Proof.
  intros H. apply plain_is_not_upper. unfold plain. rewrite H.
  rewrite orb_true_r. reflexivity.
Qed.

Lemma lower_digits (s : string) :
  forallb_string is_digit s = true -> lower s = s.
Proof.
  intros H. apply lower_fixed.
  apply (forallb_string_impl is_digit plain); [|exact H].
  intros c Hc. unfold plain. rewrite Hc, orb_true_r. reflexivity.
Qed.

Lemma is_m_number_key (m : string) :
  is_m_number m = true ->
  exists ds, m = String "M" ds
             /\ forallb_string is_digit ds = true
             /\ (4 <= String.length ds <= 6)%nat
             /\ clean_key (Some (lower m)) = String "m" ds.
Proof.
  destruct m as [|c ds]; [discriminate|]. cbn [is_m_number]. intros H.
  apply andb_true_iff in H. destruct H as [H H6].
  apply andb_true_iff in H. destruct H as [H H4].
  apply andb_true_iff in H. destruct H as [Hc Hd].
  apply Ascii.eqb_eq in Hc. subst c.
  apply Nat.leb_le in H4, H6.
  exists ds. split; [reflexivity|]. split; [exact Hd|]. split; [lia|].
  unfold clean_key, str_text, remove_nonword.
  cbn [lower]. rewrite (lower_digits ds Hd).
  change (lower_char "M") with "m"%char. cbn [filter_chars].
  change (is_word "m") with true. cbn iota.
  rewrite (filter_chars_fixed is_word ds
             (forallb_string_impl _ _ ds digit_is_word Hd)).
  reflexivity.
Qed.

(** X15. A lot candidate read from a value is [M] and four to six digits; its
    matching key is [m] and the same digits. *)
Theorem lot_candidate_is_m_number :
  forall (x : scalar) (m : string),
    clean_and_extract_lot x = Some m ->
    exists ds,
      m = String "M" ds
      /\ forallb_string is_digit ds = true
      /\ (4 <= String.length ds <= 6)%nat
      /\ clean_key (Some (lower m)) = String "m" ds.
Proof.
  intros x m H. apply is_m_number_key, (lot_is_m_number x), H.
Qed.

Lemma lot_candidate_is_m_number_witness :
  exists ds,
    "M123456" = String "M" ds
    /\ forallb_string is_digit ds = true
    /\ (4 <= String.length ds <= 6)%nat
    /\ clean_key (Some (lower "M123456")) = String "m" ds.
Proof.
  apply (lot_candidate_is_m_number (SStr "lot: M-12345/67 (b)")).
  vm_compute. reflexivity.
Defined.

Lemma m_numbers_shape (d : document) (m : string) :
  In (SStr m) (m_numbers d) -> is_m_number m = true.
Proof.
  unfold m_numbers.
  destruct (fromkeys String.eqb
              (findall false M_NUMBER (remove_nonword (filename_clean d))))
    as [|x l] eqn:E.
  - intros [H|[]]. discriminate H.
  - intros H. apply in_map_iff in H. destruct H as [s [Hs H]].
    injection Hs as ->. rewrite <- E in H.
    apply (proj1 (fromkeys_In String.eqb string_eqb_eq _ _)) in H.
    unfold findall in H. apply findall_from_match in H.
    destruct H as [prev [t H]]. apply (m_number_match prev t), H.
Qed.

(** X16. The filename candidates of a document are distinct; they are the
    M-numbers of the cleaned filename, each [M] and four to six digits,
    or the single value [0] when the filename holds none. *)
Theorem filename_candidates_are_distinct_m_numbers :
  forall (d : document),
    NoDup (m_numbers d)
    /\ (m_numbers d = [SInt 0]
        \/ exists ms,
             ms <> []
             /\ m_numbers d = map SStr ms
             /\ Forall (fun m => is_m_number m = true) ms
             /\ forall m, In m ms <->
                          In m (findall false M_NUMBER
                                  (remove_nonword (filename_clean d)))).
Proof.
  intros d. pose proof (m_numbers_shape d) as Hs. unfold m_numbers in *.
  pose proof (fromkeys_NoDup String.eqb string_eqb_eq
                (findall false M_NUMBER (remove_nonword (filename_clean d))))
    as N.
  pose proof (fromkeys_In String.eqb string_eqb_eq
                (findall false M_NUMBER (remove_nonword (filename_clean d))))
    as HI.
  destruct (fromkeys String.eqb
              (findall false M_NUMBER (remove_nonword (filename_clean d))))
    as [|x l].
  - split; [|left; reflexivity].
    constructor; [intros []|constructor].
  - split.
    + apply Finite.Injective_map_NoDup; [|exact N].
      intros a b H. injection H as H. exact H.
    + right. exists (x :: l). split; [discriminate|].
      split; [reflexivity|]. split; [|exact HI].
      apply Forall_forall. intros m Hm. apply Hs.
      apply in_map. exact Hm.
Qed.

Lemma cross_fields (d : document) (c : cand_row) :
  In c (cross d) ->
  (exists x, lot_number c = clean_and_extract_lot x)
  /\ In (m_number c) (m_numbers d).
Proof.
  unfold cross, lot_candidates. rewrite in_flat_map. intros [lot [Hl H]].
  apply in_map_iff in H. destruct H as [m [<- Hm]]. simpl.
  split; [|exact Hm].
  destruct (lot_numbers_column (safe_parse (json_values d))); [|destruct Hl].
  apply in_map_iff in Hl. destruct Hl as [x [<- _]]. exists x. reflexivity.
Qed.

Lemma merged_extracted_df2_keys (token_set_ratio : string -> string -> Z)
  (order_df : list order_row) (rows : list cand_row) (r : merged_row) :
  In r (merged_extracted_df2 token_set_ratio order_df rows) ->
  In (cand r) rows
  /\ (forall o, rm1 r = Some o ->
        In o order_df /\ lot_number_order_clean o = lot_number_clean (cand r))
  /\ (forall o, rm2 r = Some o ->
        In o order_df /\ lot_number_order_clean o = m_number_key (cand r)).
Proof.
  unfold merged_extracted_df2. rewrite in_map_iff.
  intros [[[c o1] o2] [<- H]]. cbn [score cand rm1 rm2 fst snd].
  apply merge_left_In in H. cbn [fst snd] in H. destruct H as [H H2].
  unfold merged_extracted_df in H.
  apply merge_left_In in H. cbn [fst snd] in H. destruct H as [H H1].
  split; [exact H|]. split; intros o Ho.
  - rewrite Ho in H1. exact H1.
  - rewrite Ho in H2. exact H2.
Qed.

Lemma lower_char_not_upper (c : ascii) : is_upper (lower_char c) = false.
Proof. destruct c as [[] [] [] [] [] [] [] []]; vm_compute; reflexivity. Qed.

Lemma lower_not_upper (s : string) :
  forallb_string (fun c => negb (is_upper c)) (lower s) = true.
Proof.
  induction s as [|c s IH]; simpl; [reflexivity|].
  rewrite lower_char_not_upper, IH. reflexivity.
Qed.

Lemma forallb_string_filter_chars (p q : ascii -> bool) (s : string) :
  forallb_string p s = true -> forallb_string p (filter_chars q s) = true.
Proof.
  induction s as [|c s IH]; simpl; [reflexivity|].
  intros H. apply andb_true_iff in H. destruct H as [Hc Hs].
  destruct (q c); [simpl; rewrite Hc|]; apply IH, Hs.
Qed.

(** The key of a missing lot is met by a missing registry lot only: a
    lot in small letters never cleans to ["None"]. *)
Lemma none_key_is_missing_lot (o : order_row) :
  lot_number_order_clean o = "None" -> lot_number_order o = None.
Proof.
  unfold lot_number_order_clean, clean_key.
  destruct (lot_number_order o) as [s|]; [|reflexivity].
  cbn [option_map str_text]. intros H. exfalso.
  pose proof (forallb_string_filter_chars (fun c => negb (is_upper c)) is_word
                (lower s) (lower_not_upper s)) as F.
  unfold remove_nonword in H. rewrite H in F. discriminate F.
Qed.

(** X17. An exact match needs the whole key.  A registry row is attached
    through the lot candidate only when its lot, in small letters and
    without its non-word characters, is [m] and the digits of that
    candidate and nothing else, or, for a row without lot candidate,
    when the registry row has no lot either.  It is attached through
    the filename candidate only when its cleaned lot is [m] and the
    digits of that candidate, or, for the placeholder [0], when its
    cleaned lot is the text ["nan"]. *)
Theorem exact_match_on_whole_m_number_key :
  forall (token_set_ratio : string -> string -> Z) (order_df : list order_row)
         (docs : list document) (rows : list cand_row) (r : merged_row),
    candidate_rows docs = Ok rows ->
    In r (merged_extracted_df2 token_set_ratio order_df rows) ->
    (forall o,
       rm1 r = Some o ->
       match lot_number (cand r) with
       | Some m =>
           exists ds,
             m = String "M" ds
             /\ forallb_string is_digit ds = true
             /\ (4 <= String.length ds <= 6)%nat
             /\ lot_number_order_clean o = String "m" ds
       | None => lot_number_order o = None
       end)
    /\ (forall o,
          rm2 r = Some o ->
          match m_number (cand r) with
          | SStr m =>
              exists ds,
                m = String "M" ds
                /\ forallb_string is_digit ds = true
                /\ (4 <= String.length ds <= 6)%nat
                /\ lot_number_order_clean o = String "m" ds
          | SInt z =>
              z = 0
              /\ exists s, lot_number_order o = Some s
                           /\ remove_nonword (lower s) = "nan"
          | SNull => False
          end).
Proof.
  intros ratio order docs rows r Hrows Hr.
  destruct (merged_extracted_df2_keys ratio order rows r Hr) as [Hc [H1 H2]].
  rewrite (candidate_rows_cross _ _ Hrows) in Hc.
  apply in_flat_map in Hc. destruct Hc as [d [_ Hc]].
  destruct (cross_fields d (cand r) Hc) as [[x Hx] Hm].
  split; intros o Ho.
  - destruct (H1 o Ho) as [_ Hk]. unfold lot_number_clean in Hk.
    destruct (lot_number (cand r)) as [m|] eqn:Hv.
    + cbn [option_map] in Hk. rewrite Hk. symmetry in Hx.
      destruct (is_m_number_key m (lot_is_m_number x m Hx))
        as [ds [E1 [E2 [E3 E4]]]].
      exists ds. repeat split; try assumption; lia.
    + cbn [option_map] in Hk. apply none_key_is_missing_lot. exact Hk.
  - destruct (H2 o Ho) as [_ Hk]. unfold m_number_key in Hk.
    destruct (m_number (cand r)) as [|z|m] eqn:Hv.
    + apply m_numbers_not_null in Hm. discriminate Hm.
    + cbn [lower_str] in Hk. split.
      * unfold m_numbers in Hm.
        destruct (fromkeys String.eqb
                    (findall false M_NUMBER (remove_nonword (filename_clean d))))
          as [|y l].
        -- destruct Hm as [Hm|[]]. injection Hm as <-. reflexivity.
        -- apply in_map_iff in Hm. destruct Hm as [y' [Hy _]]. discriminate Hy.
      * unfold lot_number_order_clean, clean_key in Hk.
        destruct (lot_number_order o) as [s|]; [|discriminate Hk].
        exists s. split; [reflexivity|exact Hk].
    + cbn [lower_str] in Hk. rewrite Hk.
      destruct (is_m_number_key m (m_numbers_shape d m Hm))
        as [ds [E1 [E2 [E3 E4]]]].
      exists ds. repeat split; try assumption; try lia.
Qed.

Lemma exact_match_on_whole_m_number_key_witness :
  exists ds,
    "M12345" = String "M" ds
    /\ forallb_string is_digit ds = true
    /\ (4 <= String.length ds <= 6)%nat
    /\ lot_number_order_clean
         (mk_order (Some "M12345")
            (mk_item (Some "RM-100") (Some "Turmeric Extract")))
       = String "m" ds.
Proof.
  exact (proj1 (exact_match_on_whole_m_number_key Sample.overlap_ratio
                  Sample.order_df Sample.extracted_df
                  (flat_map cross Sample.extracted_df)
                  (merged (winner (Sample.nth_assignment 0)))
                  ltac:(vm_compute; reflexivity)
                  ltac:(vm_compute; left; reflexivity))
           (mk_order (Some "M12345")
              (mk_item (Some "RM-100") (Some "Turmeric Extract")))
           eq_refl).
Defined.

(** ** The pages of the catalog *)

Lemma fetch_pages {A : Type} (pages : list (list A)) :
  forall (rest : list (py (list A))) (items : list A) (skip0 : nat)
         (requests : list nat),
    Forall (fun p => p <> []) pages ->
    fetch (map Ok pages ++ rest) (mk_paging items skip0 true) requests
    = fetch rest
        (mk_paging (items ++ List.concat pages)
           (skip0 + take * List.length pages) true)
        (requests
         ++ map (fun i => (skip0 + take * i)%nat) (seq 0 (List.length pages))).
Proof.
  induction pages as [|p pages IH]; intros rest items skip0 requests H.
  - cbn [map List.concat List.length seq app].
    rewrite !app_nil_r, Nat.mul_0_r, Nat.add_0_r. reflexivity.
  - inversion H as [|? ? Hp Hps]; subst.
    cbn [map app fetch has_more skip].
    assert (E : turn (mk_paging items skip0 true) p
                = mk_paging (items ++ p) (skip0 + take) true).
    { destruct p; [contradiction|reflexivity]. }
    rewrite E, (IH rest _ _ _ Hps). cbn [List.concat List.length seq map].
    rewrite <- seq_shift, map_map, <- !app_assoc. cbn [app].
    rewrite Nat.mul_0_r, Nat.add_0_r.
    f_equal.
    + f_equal. lia.
    + f_equal. f_equal. apply map_ext. intros i. lia.
Qed.

(** X18. The paging loop asks for the pages at 0, 1000, 2000, ... and stops
    at the first empty page: the items are those of the pages before it
    in order, and the answers after it are never asked for.  A failed
    request raises, and the loop is still running while every page so
    far held an item. *)
Theorem paging_stops_at_first_empty_page :
  forall (A : Type) (pages : list (list A)) (later : list (py (list A))),
    Forall (fun p => p <> []) pages ->
    fetch_all (map Ok pages ++ Ok [] :: later)
    = Ok (mk_paging (List.concat pages) (take * List.length pages) false,
          map (fun i => (take * i)%nat) (seq 0 (S (List.length pages))))
    /\ fetch_all (map Ok pages ++ Raise :: later) = Raise
    /\ (exists requests,
          fetch_all (map Ok pages)
          = Ok (mk_paging (List.concat pages) (take * List.length pages) true,
                requests)
          /\ List.length requests = List.length pages).
Proof.
  intros A pages later H. unfold fetch_all. split; [|split].
  - rewrite (fetch_pages pages _ _ _ _ H).
    cbn [fetch has_more turn all_items skip app].
    rewrite seq_S, map_app. cbn [map Nat.add].
    destruct later; reflexivity.
  - rewrite (fetch_pages pages _ _ _ _ H). reflexivity.
  - rewrite <- (app_nil_r (map Ok pages)).
    rewrite (fetch_pages pages _ _ _ _ H).
    exists (map (fun i => (0 + take * i)%nat) (seq 0 (List.length pages))).
    split; [reflexivity|]. rewrite length_map, length_seq. reflexivity.
Qed.

Lemma paging_stops_at_first_empty_page_witness :
  fetch_all [Ok [mk_item (Some "RM-100") (Some "Turmeric Extract");
                 mk_item (Some "RM-200") (Some "Ginger Root Extract")];
             Ok [mk_item (Some "RM-300") (Some "Ashwagandha Powder")];
             Ok [];
             Ok [mk_item (Some "RM-400") (Some "Licorice Extract")]]
  = Ok (mk_paging
          [mk_item (Some "RM-100") (Some "Turmeric Extract");
           mk_item (Some "RM-200") (Some "Ginger Root Extract");
           mk_item (Some "RM-300") (Some "Ashwagandha Powder")]
          (take * 2) false,
        map (fun i => (take * i)%nat) (seq 0 3)).
Proof.
  apply (proj1 (paging_stops_at_first_empty_page item
                  [[mk_item (Some "RM-100") (Some "Turmeric Extract");
                    mk_item (Some "RM-200") (Some "Ginger Root Extract")];
                   [mk_item (Some "RM-300") (Some "Ashwagandha Powder")]]
                  [Ok [mk_item (Some "RM-400") (Some "Licorice Extract")]]
                  ltac:(repeat constructor; discriminate))).
Defined.

(** ** Cells that only [safe_parse] reads *)

(** X19. A cell that holds the envelope behind the quote that the sheet puts
    before a formula, or as a Python literal, is read by [safe_parse]
    alone: the lot candidates come from its envelope, while the test
    values, the general information and the content score are missing,
    since they are read with [json.loads] on the cell as it is. *)
Theorem escaped_cell_gives_lots_but_no_fields :
  forall (d : document) (e : envelope),
    json_values d = QuotedJson (PyDict e) \/ json_values d = ReprText (PyDict e) ->
    safe_parse (json_values d) = PyDict e
    /\ lot_candidates d
       = map clean_and_extract_lot
           (filter not_null
              (explode (or_else (lot_number_value e)
                          (or_else (lot_numbers_value e) (Many [SInt 0])))))
    /\ (forall key, extract_field (json_values d) key extract_chem_info = None)
    /\ (forall key, extract_field (json_values d) key extract_micro_info = None)
    /\ extract_general_info (json_values d) = no_info
    /\ extract_coa_sufficient_content (json_values d) = Ok None.
Proof.
  intros d e H. unfold lot_candidates.
  destruct H as [H|H]; rewrite H; repeat split; reflexivity.
Qed.

Lemma escaped_cell_gives_lots_but_no_fields_witness :
  lot_candidates
    (mk_document "M40001 licorice.pdf" "M40001 licorice"
       (QuotedJson (PyDict
          (mk_envelope (One (SStr "M40001")) (One SNull)
             (mk_info (Some "Licorice Extract") None None) [] (Some 9)))))
  = [Some "M40001"]
  /\ extract_coa_sufficient_content
       (QuotedJson (PyDict
          (mk_envelope (One (SStr "M40001")) (One SNull)
             (mk_info (Some "Licorice Extract") None None) [] (Some 9))))
     = Ok None.
Proof.
  pose proof (escaped_cell_gives_lots_but_no_fields
                (mk_document "M40001 licorice.pdf" "M40001 licorice"
                   (QuotedJson (PyDict
                      (mk_envelope (One (SStr "M40001")) (One SNull)
                         (mk_info (Some "Licorice Extract") None None) []
                         (Some 9)))))
                _ (or_introl eq_refl)) as [_ [H1 [_ [_ [_ H2]]]]].
  split; [exact H1|exact H2].
Defined.

(** ** Labels in any case *)

Lemma lower_char_idem (c : ascii) : lower_char (lower_char c) = lower_char c.
Proof. destruct c as [[] [] [] [] [] [] [] []]; vm_compute; reflexivity. Qed.

Lemma is_word_lower_char (c : ascii) : is_word (lower_char c) = is_word c.
Proof. destruct c as [[] [] [] [] [] [] [] []]; vm_compute; reflexivity. Qed.

Lemma lit_eq_lower (c x : ascii) :
  lit_eq true c (lower_char x) = lit_eq true c x.
Proof. unfold lit_eq. rewrite lower_char_idem. reflexivity. Qed.

Lemma word_opt_lower (p : option ascii) :
  word_opt (option_map lower_char p) = word_opt p.
Proof. destruct p as [c|]; [apply is_word_lower_char|reflexivity]. Qed.

Lemma word_opt_peek_lower (s : string) :
  word_opt (peek (lower s)) = word_opt (peek s).
Proof. destruct s as [|c s]; [reflexivity|apply is_word_lower_char]. Qed.

Lemma run_lower (r : regex) :
  literal r = true ->
  forall (prev : option ascii) (s : string) (k k' : cont),
    (forall p t, k' (option_map lower_char p) (lower t)
                 = option_map lower (k p t)) ->
    run true r (option_map lower_char prev) (lower s) k'
    = option_map lower (run true r prev s k).
Proof.
  induction r as [|c|p|r1 IH1 r2 IH2|r1 IH1 r2 IH2|r1 IH1| |r1 IH1];
    cbn [literal]; intros L prev s k k' Hk; try discriminate.
  - cbn [run]. apply Hk.
  - cbn [run]. destruct s as [|x s]; [reflexivity|]. cbn [lower].
    rewrite lit_eq_lower. destruct (lit_eq true c x); [|reflexivity].
    apply (Hk (Some x) s).
  - apply andb_true_iff in L. destruct L as [L1 L2]. cbn [run].
    apply (IH1 L1). intros p t. apply (IH2 L2). exact Hk.
  - apply andb_true_iff in L. destruct L as [L1 L2]. cbn [run].
    rewrite (IH1 L1 prev s k k' Hk).
    destruct (run true r1 prev s k); [reflexivity|].
    apply (IH2 L2). exact Hk.
  - cbn [run]. rewrite word_opt_lower, word_opt_peek_lower.
    destruct (xorb (word_opt prev) (word_opt (peek s))); [|reflexivity].
    apply Hk.
Qed.

Lemma match_here_lower (r : regex) (prev : option ascii) (s : string) :
  literal r = true ->
  is_some (match_here true r (option_map lower_char prev) (lower s))
  = is_some (match_here true r prev s).
Proof.
  intros L. unfold match_here.
  rewrite (run_lower r L prev s (fun _ rest => Some rest)
             (fun _ rest => Some rest)) by reflexivity.
  destruct (run true r prev s (fun _ rest => Some rest)); reflexivity.
Qed.

Lemma search_from_lower (r : regex) (s : string) :
  literal r = true ->
  forall prev i,
    is_some (search_from true r (option_map lower_char prev) i (lower s))
    = is_some (search_from true r prev i s).
Proof.
  intros L. induction s as [|c s IH]; intros prev i; cbn [search_from lower].
  - pose proof (match_here_lower r prev "" L) as H. cbn [lower] in H.
    destruct (match_here true r (option_map lower_char prev) "");
      destruct (match_here true r prev ""); try discriminate H; reflexivity.
  - pose proof (match_here_lower r prev (String c s) L) as H. cbn [lower] in H.
    destruct (match_here true r (option_map lower_char prev)
                (String (lower_char c) (lower s)));
      destruct (match_here true r prev (String c s)); try discriminate H;
      try reflexivity.
    apply (IH (Some c) (S i)).
Qed.

Lemma found_lower (r : regex) (s : string) :
  literal r = true -> found true r (lower s) = found true r s.
Proof.
  intros L. pose proof (search_from_lower r s L None 0%nat) as H.
  unfold found, search. cbn [option_map] in H.
  destruct (search_from true r None 0 (lower s));
    destruct (search_from true r None 0 s); try discriminate H; reflexivity.
Qed.

(** X20. The patterns of the categories do not tell small letters from
    capitals: two labels that differ in the case of their letters only
    belong to the same categories. *)
Theorem label_match_ignores_case :
  forall (a b : string),
    lower a = lower b ->
    (forall key, COMPILED_CHEM key a = COMPILED_CHEM key b)
    /\ (forall key, COMPILED_MICRO key a = COMPILED_MICRO key b).
Proof.
  intros a b H. split; intros key.
  - unfold COMPILED_CHEM.
    assert (L : literal (CHEM_PATTERNS key) = true)
      by (destruct key; reflexivity).
    rewrite <- (found_lower _ a L), <- (found_lower _ b L), H. reflexivity.
  - unfold COMPILED_MICRO.
    assert (L : literal (MICRO_PATTERNS key) = true)
      by (destruct key; reflexivity).
    rewrite <- (found_lower _ a L), <- (found_lower _ b L), H. reflexivity.
Qed.

Lemma label_match_ignores_case_witness :
  COMPILED_CHEM lead_ppm "LEAD (Pb)" = COMPILED_CHEM lead_ppm "lead (pb)".
Proof.
  apply (proj1 (label_match_ignores_case "LEAD (Pb)" "lead (pb)" eq_refl)).
Defined.

(** ** Documents without a lot *)

(** X21. A document whose envelope holds no lot (both lot fields are missing,
    empty or zero) is not dropped: the placeholder [0] stands for its
    lot, no M-number is read from it, and the document keeps one
    candidate row with a missing lot for each filename candidate. *)
Theorem document_without_lots_keeps_its_rows :
  forall (d : document) (e : envelope),
    safe_parse (json_values d) = PyDict e ->
    truthy (lot_number_value e) = false ->
    truthy (lot_numbers_value e) = false ->
    lot_candidates d = [None]
    /\ cross d = map (mk_cand d None) (m_numbers d)
    /\ cross d <> [].
Proof.
  intros d e Hp H1 H2.
  assert (E : lot_candidates d = [None]).
  { unfold lot_candidates. rewrite Hp. unfold lot_numbers_column, or_else.
    rewrite H1, H2. reflexivity. }
  assert (C : cross d = map (mk_cand d None) (m_numbers d)).
  { unfold cross. rewrite E. cbn [flat_map]. apply app_nil_r. }
  split; [exact E|]. split; [exact C|].
  rewrite C. intros H. apply map_eq_nil in H.
  exact (m_numbers_nonempty d H).
Qed.

Lemma document_without_lots_keeps_its_rows_witness :
  cross Sample.ginger = map (mk_cand Sample.ginger None) (m_numbers Sample.ginger).
Proof.
  apply (proj1 (proj2 (document_without_lots_keeps_its_rows Sample.ginger
                         (mk_envelope (One SNull) (One SNull)
                            (mk_info (Some "Ginger Root Extract") None
                               (Some "2025-01-01"))
                            [Sample.entry "Salmonella" "Absent in 25 g" ""]
                            (Some 10))
                         eq_refl eq_refl eq_refl))).
Defined.

(** ** Runs that end *)

Lemma rank_one_nil (l : list assignment) :
  rank_one (rm_ranked l) = [] -> rm_ranked l = [].
Proof.
  intros H. pose proof (rank_one_codes l) as E. rewrite H in E.
  symmetry in E. apply map_eq_nil in E.
  unfold rm_ranked, groupby_apply. rewrite E. reflexivity.
Qed.

(** X22. A run ends without an exception only if the candidate frame has
    a row, some filename gave an M-number, some file is unmatched (its
    greatest exact similarity is 0) and some row is exported: without
    candidate rows line 442 raises, with the placeholder [0] for every
    M-number line 445 raises, when every file has an exact similarity
    other than 0 line 509 raises, and when no assignment with a code
    passes the filter line 592 raises. *)
Theorem run_ends_only_with_unmatched_file_and_export :
  forall (token_set_ratio : string -> string -> Z) (order_df : list order_row)
         (rm_df : list item) (docs : list document) (out : list export_row),
    process_validation token_set_ratio order_df rm_df docs = Ok out ->
    out <> []
    /\ exists rows,
         candidate_rows docs = Ok rows
         /\ rows <> []
         /\ (exists r m, In r rows /\ m_number r = SStr m)
         /\ unmatched_file (merged_extracted_df2 token_set_ratio order_df rows)
            <> [].
Proof.
  intros ratio order rm docs out H. unfold process_validation in H.
  destruct (assignments ratio order rm docs) as [final|] eqn:Hf;
    cbn [bind] in H; [|discriminate].
  apply rm_clean_Ok in H. destruct H as [Hne ->]. split.
  - intros E. apply map_eq_nil in E. apply Hne, rank_one_nil, E.
  - unfold assignments in Hf.
    destruct (candidate_rows docs) as [rows|] eqn:Hrows; cbn [bind] in Hf;
      [|discriminate].
    destruct (winners ratio order rm rows) as [ws|] eqn:Hws; cbn [bind] in Hf;
      [|discriminate].
    apply winners_Ok in Hws. destruct Hws as [Hr [Hs [df3 [Hdf3 _]]]].
    apply merged_extracted_df3_Ok in Hdf3. destruct Hdf3 as [Hu _].
    exists rows. split; [reflexivity|]. split; [exact Hr|]. split; [|exact Hu].
    unfold has_str in Hs. apply orb_true_iff in Hs. destruct Hs as [Hs|Hs].
    + apply existsb_exists in Hs. destruct Hs as [x [Hx Ht]].
      apply in_map_iff in Hx. destruct Hx as [r [<- Hx]].
      destruct (m_number r) as [|z|m] eqn:Em; try discriminate Ht.
      exists r, m. split; [exact Hx|exact Em].
    + exfalso. destruct rows as [|r rows]; [apply Hr; reflexivity|].
      cbn [map forallb] in Hs. apply andb_true_iff in Hs. destruct Hs as [Hs _].
      assert (Hin : In r (flat_map cross docs)).
      { rewrite <- (candidate_rows_cross _ _ Hrows). left. reflexivity. }
      apply in_flat_map in Hin. destruct Hin as [d [_ Hc]].
      destruct (cross_fields d r Hc) as [_ Hm].
      apply m_numbers_not_null in Hm. rewrite Hm in Hs. discriminate Hs.
Qed.

Lemma run_ends_only_with_unmatched_file_and_export_witness :
  Sample.export <> []
  /\ exists rows,
       candidate_rows Sample.extracted_df = Ok rows
       /\ rows <> []
       /\ (exists r m, In r rows /\ m_number r = SStr m)
       /\ unmatched_file
            (merged_extracted_df2 Sample.overlap_ratio Sample.order_df rows)
          <> [].
Proof.
  apply (run_ends_only_with_unmatched_file_and_export Sample.overlap_ratio
           Sample.order_df Sample.rm_df Sample.extracted_df Sample.export).
  vm_compute. reflexivity.
Defined.

(** The runs that the code ends with an exception: no document, a
    single document without M-number in its filename, a single document
    that is matched exactly, a single document that the filter drops. *)
Example runs_that_raise :
  process_validation Sample.overlap_ratio Sample.order_df Sample.rm_df [] = Raise
  /\ process_validation Sample.overlap_ratio Sample.order_df Sample.rm_df
       [Sample.scan] = Raise
  /\ process_validation Sample.overlap_ratio Sample.order_df Sample.rm_df
       [Sample.turmeric_new] = Raise
  /\ process_validation Sample.overlap_ratio Sample.order_df Sample.rm_df
       [mk_document "M30001.pdf" "M30001" Unparsable] = Raise.
Proof. repeat split; vm_compute; reflexivity. Qed.
